(** * ApertoDNS client: IP discovery, reconciliation and update dispatch

    A shallow embedding of the detect / compare / update / repeat core of the
    ApertoDNS command line client ([utils.js]: [getCurrentIP],
    [getCurrentIPv6], [loadLastIP], [saveCurrentIP]; [index.js]:
    [getAuthToken], [runUpdate], [runDaemonMode]) and the properties its
    specification states about it.

    JavaScript strings are modelled by [string]; a character stands for one
    code unit in the range 0..255.  Asynchronous code is sequential between
    its [await]s, so it is modelled by a state-and-exception monad over an
    explicit world (the answers of the network, the terminal, the clock). *)

From Stdlib Require Import Bool Arith ZArith List String Ascii Lia.
From Stdlib Require Import DecimalString.
Import ListNotations.
Open Scope string_scope.

Set Implicit Arguments.

(* ================================================================== *)
(** ** JavaScript strings: [trim], truthiness, strict equality          *)
(* ================================================================== *)

Module JS.

(** [WhiteSpace] and [LineTerminator] code units below 256: TAB, LF, VT, FF,
    CR, SP and NBSP.  These are what [String.prototype.trim] strips. *)
Definition isWhiteSpace (c : ascii) : bool :=
  let n := nat_of_ascii c in
  ((n =? 9) || (n =? 10) || (n =? 11) || (n =? 12) || (n =? 13)
   || (n =? 32) || (n =? 160))%nat.

Fixpoint trimStart (s : string) : string :=
  match s with
  | EmptyString => EmptyString
  | String c s' => if isWhiteSpace c then trimStart s' else s
  end.

Fixpoint rev (s : string) : string :=
  match s with
  | EmptyString => EmptyString
  | String c s' => rev s' ++ String c EmptyString
  end.

Definition trimEnd (s : string) : string := rev (trimStart (rev s)).

(** [s.trim()] *)
Definition trim (s : string) : string := trimEnd (trimStart s).

(** [s.includes(":")] for a one-character needle. *)
Fixpoint includes (c : ascii) (s : string) : bool :=
  match s with
  | EmptyString => false
  | String d s' => Ascii.eqb d c || includes c s'
  end.

(** Values that are either a string or [null] / [undefined]. *)
Definition truthy (v : option string) : bool :=
  match v with
  | Some s => negb (String.eqb s "")
  | None => false
  end.

(** [a === b] on such values. *)
Definition strict_eq (a b : option string) : bool :=
  match a, b with
  | Some x, Some y => String.eqb x y
  | None, None => true
  | _, _ => false
  end.

(** [a || b] on such values. *)
Definition or_else (a b : option string) : option string :=
  if truthy a then a else b.

(** The string [v] of [if (v) return v;], when [v] is truthy. *)
Definition pick (v : option string) : option string :=
  match v with
  | Some s => if truthy v then Some s else None
  | None => None
  end.

End JS.

(* ================================================================== *)
(** ** Regular expressions as [RegExp.prototype.test] sees them         *)
(* ================================================================== *)

Module Regex.

(** The fragment the client uses: character classes, literal characters,
    concatenation and bounded repetition.  A pattern anchored by [^] and [$]
    (without the [m] flag) tests the whole input. *)
Inductive regex : Type :=
| Void
| Eps
| Cls (p : ascii -> bool)
| Cat (r s : regex)
| Alt (r s : regex).

Fixpoint nullable (r : regex) : bool :=
  match r with
  | Void => false
  | Eps => true
  | Cls _ => false
  | Cat r s => nullable r && nullable s
  | Alt r s => nullable r || nullable s
  end.

Fixpoint deriv (c : ascii) (r : regex) : regex :=
  match r with
  | Void => Void
  | Eps => Void
  | Cls p => if p c then Eps else Void
  | Cat r s =>
      if nullable r then Alt (Cat (deriv c r) s) (deriv c s)
      else Cat (deriv c r) s
  | Alt r s => Alt (deriv c r) (deriv c s)
  end.

(** [/^r$/.test(s)] *)
Fixpoint test (r : regex) (s : string) : bool :=
  match s with
  | EmptyString => nullable r
  | String c s' => test (deriv c r) s'
  end.

(** [r{n}] *)
Fixpoint times (n : nat) (r : regex) : regex :=
  match n with
  | 0 => Eps
  | S n' => Cat r (times n' r)
  end.

(** [r{0,n}] *)
Fixpoint upto (n : nat) (r : regex) : regex :=
  match n with
  | 0 => Eps
  | S n' => Alt Eps (Cat r (upto n' r))
  end.

(** [r{m,n}] *)
Definition range (m n : nat) (r : regex) : regex :=
  Cat (times m r) (upto (n - m) r).

(** [\d] without the [u] flag: the ten ASCII digits. *)
Definition isDigit (c : ascii) : bool :=
  let n := nat_of_ascii c in ((48 <=? n) && (n <=? 57))%nat.

Definition digit : regex := Cls isDigit.

(** [\.] *)
Definition lit (c : ascii) : regex := Cls (Ascii.eqb c).

(** The language of a pattern. *)
Fixpoint lang (r : regex) (s : string) : Prop :=
  match r with
  | Void => False
  | Eps => s = ""
  | Cls p => exists c, s = String c "" /\ p c = true
  | Cat r1 r2 => exists s1 s2, s = s1 ++ s2 /\ lang r1 s1 /\ lang r2 s2
  | Alt r1 r2 => lang r1 s \/ lang r2 s
  end.

End Regex.

(** [const ipv4Regex = /^(\d{1,3}\.){3}\d{1,3}$/;] *)
Definition ipv4Regex : Regex.regex :=
  Regex.Cat
    (Regex.times 3 (Regex.Cat (Regex.range 1 3 Regex.digit) (Regex.lit ".")))
    (Regex.range 1 3 Regex.digit).

(** [ipv4Regex.test(ip)] *)
Definition ipv4Regex_test (ip : string) : bool := Regex.test ipv4Regex ip.

(** What the pattern describes, in words: four groups of one to three
    decimal digits separated by single dots. *)
Definition all_digits (s : string) : Prop :=
  forall c, In c (list_ascii_of_string s) -> Regex.isDigit c = true.

Definition digit_group (s : string) : Prop :=
  (1 <= String.length s <= 3)%nat /\ all_digits s.

Definition dotted_quad (s : string) : Prop :=
  exists a b c d,
    s = a ++ "." ++ b ++ "." ++ c ++ "." ++ d
    /\ digit_group a /\ digit_group b /\ digit_group c /\ digit_group d.

(* ================================================================== *)
(** ** The world a tick runs in, and the client's state                 *)
(* ================================================================== *)

(** Outcome of running asynchronous code: a value, or a thrown [Error]
    with its [message]. *)
Inductive Result (A : Type) : Type :=
| Ret (a : A)
| Throw (msg : string).
Arguments Ret {A} a.
Arguments Throw {A} msg.

(** A [Response] of [fetch]: the status line and what reading the body
    ([res.text()], [res.json()]) gives.  A JSON body [null], on which every
    property access throws, is a [Throw] payload as well. *)
Record Response (A : Type) : Type := mkResponse {
  status : N;
  payload : Result A
}.

(** [res.ok] *)
Definition ok {A} (res : Response A) : bool :=
  ((200 <=? status res) && (status res <=? 299))%N.

(** [await fetch(...)]: rejected (network error, abort at the timeout) or
    resolved with a response. *)
Inductive Fetched (A : Type) : Type :=
| Rejected (msg : string)
| Resolved (res : Response A).
Arguments Rejected {A} msg.
Arguments Resolved {A} res.

(** [config.json] and the remote CLI configuration. *)
Record Config : Type := mkConfig {
  id : option string;
  apiToken : option string;
  jwtToken : option string;
  domain : option string;
  ttl : option N;
  ipService : option string;
  ipv6Service : option string;
  useIPv6 : bool
}.

(** [let config = {};] *)
Definition empty_config : Config :=
  mkConfig None None None None None None None false.

(** The JSON body of [POST /update-dns].  [ip] is always present and may be
    [null]; the other fields are left out when [undefined]. *)
Record UpdateBody : Type := mkBody {
  name : option string;
  ip : option string;
  body_ttl : option N;
  ipv6 : option string
}.

(** The fields the client reads in the reply of [/update-dns]. *)
Record UpdateReply : Type := mkReply {
  results : option (list string);
  error : option string;
  details : option string
}.

(** The fields the client reads in the reply of [/cli-config/from-token]. *)
Record ConfigReply : Type := mkConfigReply {
  reply_config : option Config;
  reply_error : option string
}.

(** How [fs.writeFileSync(p, data)] fails when it does.  The file is opened
    with flag ['w'], which creates or truncates it, and the data is written
    afterwards: either the open is refused and the file is left as it was,
    or the error comes after the open and the file holds the bytes written
    until then, none or a prefix of the data. *)
Inductive WriteFailure : Type :=
| OpenRefused
| WriteInterrupted (written : nat).

(** Everything outside the program that one tick consults.  Within a tick
    an endpoint gives one answer: each detection provider is asked at most
    once by a call of a resolver, and the update endpoint once by a tick. *)
Record World : Type := mkWorld {
  useApiKey : option string;               (* getOption("--api-key") *)
  forceUpdate : bool;                      (* args.includes("--force") *)
  env_APERTODNS_API_KEY : option string;   (* process.env.APERTODNS_API_KEY *)
  http_get : string -> Fetched string;     (* GET to a detection provider *)
  post_update_dns : UpdateBody -> option string -> Fetched UpdateReply;
  post_cli_config : string -> Fetched ConfigReply;
  stdin_answer : string;                   (* the line typed at a prompt *)
  writable : bool;                         (* does fs.writeFileSync succeed *)
  write_failure : WriteFailure;            (* how it fails when it does not *)
  now : string;                            (* new Date().toISOString() *)
  daemonInterval : option Z                (* --interval; None is NaN *)
}.

(** A file of the data directory. [Unreadable]: it exists and reading it
    throws. *)
Inductive File : Type :=
| Missing
| Content (s : string)
| Unreadable.

(** [last_ip.txt] and [last_ipv6.txt]. *)
Record Store : Type := mkStore {
  ipPath : File;
  ipv6Path : File
}.

(** What the client prints: one constructor per message, with the values
    the message shows; colours, the spinner and the echo of the server's
    reply are left out. *)
Inductive Output : Type :=
| OutConfigNotFound
| OutNoIp
| OutUnchanged (ip : option string)
| OutUpdated (domain : option string) (ip previousIp : option string)
| OutError (msg : option string)
| OutDaemonStart (interval : option Z)
| LogUnchanged (timestamp : string) (currentIP : option string)
| LogChanged (timestamp : string) (lastIP currentIP : option string)
| LogUpdated (timestamp : string)
| LogRejected (timestamp : string) (msg : option string)
| LogError (timestamp : string) (msg : string).

(** The observable actions, in the order they happen. *)
Inductive Event : Type :=
| Get (url : string)
| PostUpdate (body : UpdateBody) (bearer : option string)
| PostCliConfig (token : string)
| Prompt (question : string)
| Clock
| Save (ip : option string)
| Out (o : Output).

Record State : Type := mkState {
  config : Config;
  files : Store;
  trace : list Event
}.

(** *** The monad *)

Definition M (A : Type) : Type := World -> State -> Result A * State.

Definition ret {A} (a : A) : M A := fun _ st => (Ret a, st).

Definition bind {A B} (m : M A) (k : A -> M B) : M B :=
  fun w st =>
    match m w st with
    | (Ret a, st') => k a w st'
    | (Throw msg, st') => (Throw msg, st')
    end.

(** [throw new Error(msg)] *)
Definition throw {A} (msg : string) : M A := fun _ st => (Throw msg, st).

(** [try { m } catch (err) { h(err.message) }], and [m.catch(h)]. *)
Definition catch {A} (m : M A) (h : string -> M A) : M A :=
  fun w st =>
    match m w st with
    | (Ret a, st') => (Ret a, st')
    | (Throw msg, st') => h msg w st'
    end.

Definition ask : M World := fun w st => (Ret w, st).
Definition get_config : M Config := fun _ st => (Ret (config st), st).
Definition set_config (c : Config) : M unit :=
  fun _ st => (Ret tt, mkState c (files st) (trace st)).
Definition get_files : M Store := fun _ st => (Ret (files st), st).
Definition set_files (f : Store) : M unit :=
  fun _ st => (Ret tt, mkState (config st) f (trace st)).
Definition emit (e : Event) : M unit :=
  fun _ st => (Ret tt, mkState (config st) (files st) (trace st ++ [e])).

(** Settle a [Result] obtained from the world. *)
Definition settle {A} (r : Result A) : M A :=
  match r with
  | Ret a => ret a
  | Throw msg => throw msg
  end.

Declare Scope js_scope.
Delimit Scope js_scope with js.
Notation "x <- m ;; k" := (bind m (fun x => k))
  (at level 61, m at next level, right associativity) : js_scope.
Notation "m ;; k" := (bind m (fun _ => k))
  (at level 61, right associativity) : js_scope.
Open Scope js_scope.

(** [await fetch(url, { signal })] to a detection provider. *)
Definition fetch_get (url : string) : M (Response string) :=
  emit (Get url) ;;
  w <- ask ;;
  match http_get w url with
  | Rejected msg => throw msg
  | Resolved res => ret res
  end.

(** [await res.text()], [await res.json()] *)
Definition body_of {A} (res : Response A) : M A := settle (payload res).

(** The decimal numeral of a status code, as a template literal prints it. *)
Definition show_status (n : N) : string :=
  NilZero.string_of_uint (N.to_uint n).

(* ================================================================== *)
(** ** utils.js                                                         *)
(* ================================================================== *)

Definition default_ipService : string := "https://api.ipify.org".
Definition default_ipService6 : string := "https://api6.ipify.org".

(** A parameter with a default value: [None] is an [undefined] argument. *)
Definition ipService_or_default (arg : option string) : string :=
  match arg with Some u => u | None => default_ipService end.

Definition ipService6_or_default (arg : option string) : string :=
  match arg with Some u => u | None => default_ipService6 end.

(** [const fallbacks = [...]] *)
Definition fallbacks : list string :=
  [ "https://api.ipify.org";
    "https://ifconfig.me/ip";
    "https://icanhazip.com";
    "https://checkip.amazonaws.com" ].

(** The [try] block of [getCurrentIP]. *)
Definition preferred_attempt (ipService : string) : M string :=
  res <- fetch_get ipService ;;
  if negb (ok res) then throw ("HTTP " ++ show_status (status res))
  else
    body <- body_of res ;;
    let ip := JS.trim body in
    if negb (ipv4Regex_test ip) then throw "Invalid IPv4 format"
    else ret ip.

(** The body of the inner [try] of the fallback loop: [Some ip] stands for
    [return ip], [None] for falling out of the [if]s. *)
Definition fallback_attempt (fallback : string) : M (option string) :=
  res <- fetch_get fallback ;;
  if ok res then
    body <- body_of res ;;
    let ip := JS.trim body in
    if ipv4Regex_test ip then ret (Some ip) else ret None
  else ret None.

(** [for (const fallback of fallbacks) { ... } throw new Error(...)] *)
Fixpoint fallback_loop (ipService : string) (l : list string) : M string :=
  match l with
  | [] => throw "Unable to detect IP address"
  | fallback :: rest =>
      if String.eqb fallback ipService then fallback_loop ipService rest
      else
        r <- catch (fallback_attempt fallback) (fun _ => ret None) ;;
        match r with
        | Some ip => ret ip
        | None => fallback_loop ipService rest
        end
  end.

(** [getCurrentIP(ipService = 'https://api.ipify.org')] *)
Definition getCurrentIP (arg : option string) : M string :=
  let ipService := ipService_or_default arg in
  catch (preferred_attempt ipService)
        (fun _ => fallback_loop ipService fallbacks).

(** [getCurrentIPv6(ipService6 = 'https://api6.ipify.org')] *)
Definition getCurrentIPv6 (arg : option string) : M (option string) :=
  let ipService6 := ipService6_or_default arg in
  catch
    (res <- fetch_get ipService6 ;;
     if negb (ok res) then throw ("HTTP " ++ show_status (status res))
     else
       body <- body_of res ;;
       let ip := JS.trim body in
       if negb (JS.includes ":" ip) then throw "Invalid IPv6 format"
       else ret (Some ip))
    (fun _ => ret None).

(** [fs.existsSync(p) ? fs.readFileSync(p, "utf-8").trim() : null], inside
    [try { } catch { return null; }]. *)
Definition load (f : File) : option string :=
  match f with
  | Missing => None
  | Content s => Some (JS.trim s)
  | Unreadable => None
  end.

Definition loadLastIP : M (option string) :=
  fs <- get_files ;; ret (load (ipPath fs)).

Definition loadLastIPv6 : M (option string) :=
  fs <- get_files ;; ret (load (ipv6Path fs)).

(** [fs.writeFileSync(p, ip)] inside [try { } catch (err) { }]: a value that
    is not a string is refused with a [TypeError] before the file is opened,
    and every error is swallowed.  A write that fails after the open leaves
    the truncated file with what was written. *)
Definition write (w : World) (old : File) (data : option string) : File :=
  match data with
  | Some s =>
      if writable w then Content s
      else match write_failure w with
           | OpenRefused => old
           | WriteInterrupted n => Content (substring 0 n s)
           end
  | None => old
  end.

Definition saveCurrentIP (ip : option string) : M unit :=
  emit (Save ip) ;;
  w <- ask ;;
  fs <- get_files ;;
  set_files (mkStore (write w (ipPath fs) ip) (ipv6Path fs)).

Definition saveCurrentIPv6 (ip : option string) : M unit :=
  w <- ask ;;
  fs <- get_files ;;
  set_files (mkStore (ipPath fs) (write w (ipv6Path fs) ip)).

(* ================================================================== *)
(** ** index.js                                                         *)
(* ================================================================== *)

(** [promptInput(question)]: the answer, trimmed. *)
Definition promptInput (question : string) : M string :=
  emit (Prompt question) ;;
  w <- ask ;;
  ret (JS.trim (stdin_answer w)).

(** [getAuthToken]: "Priority: CLI arg > env var > config file". *)
Definition getAuthToken : M string :=
  w <- ask ;;
  cfg <- get_config ;;
  match JS.pick (useApiKey w) with
  | Some k => ret k
  | None =>
  match JS.pick (env_APERTODNS_API_KEY w) with
  | Some k => ret k
  | None =>
  match JS.pick (jwtToken cfg) with
  | Some k => ret k
  | None =>
  match JS.pick (apiToken cfg) with
  | Some k => ret k
  | None => promptInput "Token JWT o API Key: "
  end end end end.

(** [fetchRemoteConfig(token)]: every failure becomes [null]. *)
Definition fetchRemoteConfig (token : string) : M (option Config) :=
  catch
    (emit (PostCliConfig token) ;;
     w <- ask ;;
     match post_cli_config w token with
     | Rejected msg => throw msg
     | Resolved res =>
         data <- body_of res ;;
         match reply_config data with
         | Some c =>
             if negb (ok res) || negb (JS.truthy (id c))
             then throw "Configurazione non valida"
             else ret (Some c)
         | None => throw "Configurazione non valida"
         end
     end)
    (fun _ => ret None).

(** [await fetch(`${API_BASE}/update-dns`, { method: "POST", ... })] *)
Definition fetch_update_dns (body : UpdateBody) (bearer : option string)
  : M (Response UpdateReply) :=
  emit (PostUpdate body bearer) ;;
  w <- ask ;;
  match post_update_dns w body bearer with
  | Rejected msg => throw msg
  | Resolved res => ret res
  end.

(** [data.results] is truthy. *)
Definition acknowledges (data : UpdateReply) : bool :=
  match results data with Some _ => true | None => false end.

(** [p.catch(() => null)] *)
Definition or_null (m : M string) : M (option string) :=
  catch (x <- m ;; ret (Some x)) (fun _ => ret None).

(** The part of [runUpdate] after the configuration is known. *)
Definition runUpdate_detect : M unit :=
  w <- ask ;;
  cfg <- get_config ;;
  currentIP <- or_null (getCurrentIP (ipService cfg)) ;;
  currentIPv6 <-
    (if useIPv6 cfg
     then catch (getCurrentIPv6 (ipv6Service cfg)) (fun _ => ret None)
     else ret None) ;;
  if negb (JS.truthy currentIP) && negb (JS.truthy currentIPv6)
  then emit (Out OutNoIp)
  else
    lastIP <- loadLastIP ;;
    if negb (forceUpdate w) && JS.strict_eq lastIP currentIP
    then emit (Out (OutUnchanged currentIP))
    else
      let body := mkBody (domain cfg) currentIP (ttl cfg)
                         (JS.pick currentIPv6) in
      res <- fetch_update_dns body (apiToken cfg) ;;
      data <- body_of res ;;
      if ok res && acknowledges data
      then
        saveCurrentIP currentIP ;;
        emit (Out (OutUpdated (domain cfg) currentIP lastIP))
      else
        emit (Out (OutError (JS.or_else (error data) (details data)))).

(** [runUpdate] *)
Definition runUpdate : M unit :=
  cfg <- get_config ;;
  if JS.truthy (apiToken cfg) then runUpdate_detect
  else
    apiToken' <- promptInput "Token API: " ;;
    remoteConfig <- fetchRemoteConfig apiToken' ;;
    match remoteConfig with
    | None => emit (Out OutConfigNotFound)
    | Some rc =>
        set_config (mkConfig (id rc) (Some apiToken') (jwtToken rc)
                             (domain rc) (ttl rc) (ipService rc)
                             (ipv6Service rc) (useIPv6 rc)) ;;
        runUpdate_detect
    end.

(** [new Date().toISOString().replace("T", " ").substring(0, 19)] *)
Fixpoint replace_T (s : string) : string :=
  match s with
  | EmptyString => EmptyString
  | String c s' =>
      if Ascii.eqb c "T" then String " " s' else String c (replace_T s')
  end.

Definition timestamp_of (iso : string) : string :=
  substring 0 19 (replace_T iso).

(** [config.ttl || 300] *)
Definition ttl_or_300 (t : option N) : N :=
  match t with
  | Some n => if N.eqb n 0 then 300%N else n
  | None => 300%N
  end.

(** The [try] block of a daemon tick. *)
Definition update_body (timestamp : string) : M unit :=
  cfg <- get_config ;;
  currentIP <-
    or_null (getCurrentIP (JS.or_else (ipService cfg)
                                      (Some default_ipService))) ;;
  lastIP <- loadLastIP ;;
  if JS.strict_eq lastIP currentIP
  then emit (Out (LogUnchanged timestamp currentIP))
  else
    emit (Out (LogChanged timestamp lastIP currentIP)) ;;
    if JS.truthy (apiToken cfg) && JS.truthy (domain cfg)
    then
      let body := mkBody (domain cfg) currentIP
                         (Some (ttl_or_300 (ttl cfg))) None in
      res <- fetch_update_dns body (apiToken cfg) ;;
      if ok res
      then
        saveCurrentIP currentIP ;;
        emit (Out (LogUpdated timestamp))
      else
        data <- body_of res ;;
        emit (Out (LogRejected timestamp
                     (JS.or_else (error data) (details data))))
    else ret tt.

(** [const update = async () => { ... }] of [runDaemonMode]: one tick. *)
Definition update : M unit :=
  emit Clock ;;
  w <- ask ;;
  let timestamp := timestamp_of (now w) in
  catch (update_body timestamp)
        (fun msg => emit (Out (LogError timestamp msg))).

(** The ticks started by [setInterval(update, ...)], one world per tick, each
    run to completion before the next.  A tick whose promise rejected would
    be an unhandled rejection, which ends the process. *)
Fixpoint interval_ticks (ws : list World) (st : State)
  : Result unit * State :=
  match ws with
  | [] => (Ret tt, st)
  | w :: ws' =>
      match update w st with
      | (Ret _, st') => interval_ticks ws' st'
      | (Throw msg, st') => (Throw msg, st')
      end
  end.

(** [runDaemonMode]: the banner, [await update()], then the repeating
    timer. *)
Definition runDaemonMode (w0 : World) (ws : list World) (st : State)
  : Result unit * State :=
  match (emit (Out (OutDaemonStart (daemonInterval w0))) ;; update) w0 st with
  | (Ret _, st') => interval_ticks ws st'
  | (Throw msg, st') => (Throw msg, st')
  end.

(* ================================================================== *)
(** ** The timing of the daemon's ticks                                 *)
(* ================================================================== *)

Module Scheduler.

(** The delay [setInterval] uses, in milliseconds: a delay that is not a
    number, is below 1 or above 2147483647 is replaced by 1. *)
Definition timer_delay (ms : option Z) : Z :=
  match ms with
  | Some d => if ((1 <=? d) && (d <=? 2147483647))%Z then d else 1%Z
  | None => 1%Z
  end.

(** [daemonInterval * 1000] *)
Definition period (interval : option Z) : Z :=
  timer_delay (option_map (fun i => (i * 1000)%Z) interval).

(** The [n]-th and later firings of a timer armed at [armed]: each starts a
    tick, whose awaited chain takes the given duration; the timer does not
    look at whether earlier ticks have finished.  A tick is the pair of its
    start and its finish. *)
Fixpoint firings (armed p : Z) (n : Z) (durations : list Z)
  : list (Z * Z) :=
  match durations with
  | [] => []
  | d :: ds =>
      let start := (armed + n * p)%Z in
      (start, (start + d)%Z) :: firings armed p (n + 1)%Z ds
  end.

(** [await update(); setInterval(update, daemonInterval * 1000);] started at
    [t0]: the first tick is awaited, and the timer is armed when it has
    finished. *)
Definition timeline (interval : option Z) (t0 : Z) (d0 : Z)
  (durations : list Z) : list (Z * Z) :=
  let armed := (t0 + d0)%Z in
  (t0, armed) :: firings armed (period interval) 1%Z durations.

(** No tick starts before the tick before it has finished. *)
Fixpoint no_overlap (ticks : list (Z * Z)) : bool :=
  match ticks with
  | [] => true
  | (_, fin) :: rest =>
      match rest with
      | [] => true
      | (start, _) :: _ => (fin <=? start)%Z && no_overlap rest
      end
  end.

End Scheduler.

(* ================================================================== *)
(** ** Observing a run                                              *)
(* ================================================================== *)

(** A state with more events recorded. *)
Definition extend (st : State) (evs : list Event) : State :=
  mkState (config st) (files st) (trace st ++ evs).

(** The events added between two states. *)
Definition since (st st' : State) : list Event :=
  skipn (List.length (trace st)) (trace st').

(** The providers contacted, the update requests sent, the addresses handed
    to [saveCurrentIP], and the lines printed. *)
Definition gets (evs : list Event) : list string :=
  flat_map (fun e => match e with Get u => [u] | _ => [] end) evs.

Definition posts (evs : list Event) : list UpdateBody :=
  flat_map (fun e => match e with PostUpdate b _ => [b] | _ => [] end) evs.

(** The bearer tokens of the update requests in a trace. *)
Definition bearers (evs : list Event) : list (option string) :=
  flat_map (fun e => match e with PostUpdate _ t => [t] | _ => [] end) evs.

Definition saves (evs : list Event) : list (option string) :=
  flat_map (fun e => match e with Save a => [a] | _ => [] end) evs.

Definition outs (evs : list Event) : list Output :=
  flat_map (fun e => match e with Out o => [o] | _ => [] end) evs.

Definition prompts (evs : list Event) : list string :=
  flat_map (fun e => match e with Prompt q => [q] | _ => [] end) evs.


(** The tick reported "unchanged". *)
Definition is_unchanged (o : Output) : bool :=
  match o with
  | OutUnchanged _ => true
  | LogUnchanged _ _ => true
  | _ => false
  end.

Definition reported_unchanged (evs : list Event) : bool :=
  existsb is_unchanged (outs evs).

(** The tick reported an error. *)
Definition is_error (o : Output) : bool :=
  match o with
  | OutError _ => true
  | LogRejected _ _ => true
  | LogError _ _ => true
  | _ => false
  end.


(** The state with another content of [last_ipv6.txt]. *)
Definition with_ipv6Path (st : State) (f6 : File) : State :=
  mkState (config st) (mkStore (ipPath (files st)) f6) (trace st).

(* ================================================================== *)
(** ** The resolvers as an iteration strategy                       *)
(* ================================================================== *)

(** What a provider's answer is worth to [getCurrentIP]: the trimmed body
    of a 2xx response when it passes [ipv4Regex], nothing otherwise. *)
Definition answer_v4 (w : World) (url : string) : option string :=
  match http_get w url with
  | Rejected _ => None
  | Resolved res =>
      if ok res then
        match payload res with
        | Ret body =>
            if ipv4Regex_test (JS.trim body) then Some (JS.trim body)
            else None
        | Throw _ => None
        end
      else None
  end.

(** The same for [getCurrentIPv6]: the trimmed body must contain a colon. *)
Definition answer_v6 (w : World) (url : string) : option string :=
  match http_get w url with
  | Rejected _ => None
  | Resolved res =>
      if ok res then
        match payload res with
        | Ret body =>
            if JS.includes ":" (JS.trim body) then Some (JS.trim body)
            else None
        | Throw _ => None
        end
      else None
  end.

(** The iteration strategy of the specification (first success wins): the
    providers contacted, in order, and the first valid answer. *)
Fixpoint first_valid (answer : string -> option string) (l : list string)
  : list string * option string :=
  match l with
  | [] => ([], None)
  | u :: rest =>
      match answer u with
      | Some a => ([u], Some a)
      | None =>
          let (contacted, r) := first_valid answer rest in
          (u :: contacted, r)
      end
  end.

(** The providers [getCurrentIP] may contact: the preferred one, then the
    fallbacks other than it, in their fixed order. *)
Definition candidates (ipService : string) : list string :=
  ipService :: filter (fun u => negb (String.eqb u ipService)) fallbacks.

(** The outcome of the iteration strategy as [getCurrentIP] reports it. *)
Definition resolved_or_unavailable (r : option string) : Result string :=
  match r with
  | Some a => Ret a
  | None => Throw "Unable to detect IP address"
  end.

(** The providers a call [getCurrentIP(arg)] contacts and what it finds, by
    the iteration strategy. *)
Definition resolve_v4 (w : World) (arg : option string)
  : list string * option string :=
  first_valid (answer_v4 w) (candidates (ipService_or_default arg)).

(** [currentIPv6] of [runUpdate] and the request that produced it. *)
Definition resolve_v6 (w : World) (cfg : Config)
  : list string * option string :=
  if useIPv6 cfg
  then ([ipService6_or_default (ipv6Service cfg)],
        answer_v6 w (ipService6_or_default (ipv6Service cfg)))
  else ([], None).

(* ================================================================== *)
(** ** The words of the specification                               *)
(* ================================================================== *)

(** "Four dot-separated decimal octets, 0-255 each": the string is split at
    its dots, and each of the four parts is a numeral of one to three digits
    whose value is at most 255. *)
Fixpoint split_dots (s : string) : list string :=
  match s with
  | EmptyString => [EmptyString]
  | String c s' =>
      if Ascii.eqb c "." then EmptyString :: split_dots s'
      else match split_dots s' with
           | h :: t => String c h :: t
           | [] => [String c EmptyString]
           end
  end.

Fixpoint decimal_value (acc : nat) (s : string) : nat :=
  match s with
  | EmptyString => acc
  | String c s' => decimal_value (acc * 10 + (nat_of_ascii c - 48)) s'
  end.

Definition is_octet (s : string) : bool :=
  ((1 <=? String.length s) && (String.length s <=? 3))%nat
  && forallb Regex.isDigit (list_ascii_of_string s)
  && (decimal_value 0 s <=? 255)%nat.

Definition four_octets (s : string) : bool :=
  match split_dots s with
  | [a; b; c; d] => is_octet a && is_octet b && is_octet c && is_octet d
  | _ => false
  end.

(** The Reconciler of the specification (section 4.3), per family. *)
Inductive Decision : Type := Unchanged | Changed | ForcedUpdate.

Definition decide (force : bool) (stored resolved : option string)
  : Decision :=
  if force then ForcedUpdate
  else match stored with
       | None => Changed
       | Some _ => if JS.strict_eq stored resolved then Unchanged else Changed
       end.

(** Which decisions call the dispatcher. *)
Definition triggers (d : Decision) : bool :=
  match d with
  | Unchanged => false
  | Changed | ForcedUpdate => true
  end.

(** The reply of the update endpoint counts as a failure for the single-shot
    path: no response, a body that cannot be read, a status that is not 2xx,
    or no [results]. *)
Definition single_shot_failure (r : Fetched UpdateReply) : Prop :=
  match r with
  | Rejected _ => True
  | Resolved res =>
      match payload res with
      | Throw _ => True
      | Ret data => ok res && acknowledges data = false
      end
  end.

(** The same for the daemon, which looks at the status only. *)
Definition daemon_failure (r : Fetched UpdateReply) : Prop :=
  match r with
  | Rejected _ => True
  | Resolved res => ok res = false
  end.

(* ================================================================== *)
(** ** Example inputs                                               *)
(* ================================================================== *)

(** A state with an empty trace. *)
Definition initial (c : Config) (f : Store) : State := mkState c f [].

(** A provider landscape for examples: the listed URLs answer 200 with the
    given body, every other request is rejected. *)
Fixpoint serve (table : list (string * string)) (url : string)
  : Fetched string :=
  match table with
  | [] => Rejected "request failed"
  | (u, body) :: rest =>
      if String.eqb u url then Resolved (mkResponse 200 (Ret body))
      else serve rest url
  end.

(** Every endpoint but one answers 200 with the same body; that one is
    unreachable. *)
Definition all_but (down body : string) (url : string) : Fetched string :=
  if String.eqb url down then Rejected "request failed"
  else Resolved (mkResponse 200 (Ret body)).

(** A world for examples: no arguments, no environment, the given providers
    and the given reply of the update endpoint. *)
Definition example_world (table : list (string * string))
  (force : bool) (reply : Fetched UpdateReply) : World :=
  mkWorld None force None (serve table) (fun _ _ => reply)
          (fun _ => Rejected "request failed") "" true OpenRefused
          "2024-05-01T10:20:30.000Z" (Some 300%Z).

Definition example_config : Config :=
  mkConfig (Some "1") (Some "tok") None (Some "home.apertodns.com")
           (Some 300%N) None None false.

Definition acknowledged : Fetched UpdateReply :=
  Resolved (mkResponse 200 (Ret (mkReply (Some ["ok"]) None None))).

(** The default provider is down, [ifconfig.me] answers an error page,
    [icanhazip.com] answers an address followed by a newline. *)
Definition w_fallback : World :=
  example_world
    [("https://ifconfig.me/ip", "<html>busy</html>");
     ("https://icanhazip.com", "198.51.100.7" ++ String "010" "");
     ("https://checkip.amazonaws.com", "203.0.113.9")]
    false acknowledged.

Definition st_first_run : State :=
  initial example_config (mkStore Missing Missing).

(** A provider that answers a numeral out of the octet range. *)
Definition w_out_of_range : World :=
  example_world [("https://api.ipify.org", "999.999.999.999")]
                false acknowledged.

Definition w_default_v6_down : World :=
  mkWorld None false None (all_but default_ipService6 "2001:db8::1")
          (fun _ _ => acknowledged) (fun _ => Rejected "request failed")
          "" true OpenRefused "2024-05-01T10:20:30.000Z" (Some 300%Z).

Definition w_default_v4_down : World :=
  mkWorld None false None (all_but default_ipService "198.51.100.7")
          (fun _ _ => acknowledged) (fun _ => Rejected "request failed")
          "" true OpenRefused "2024-05-01T10:20:30.000Z" (Some 300%Z).

(** The spec's idempotence example: the stored address is the resolved
    one. *)
Definition w_same_address : World :=
  example_world [("https://api.ipify.org", "203.0.113.5")] false acknowledged.

Definition st_stored_203 : State :=
  initial example_config (mkStore (Content "203.0.113.5") Missing).

(** Dual-stack example: the IPv4 address is the stored one, the IPv6 address
    has changed. *)
Definition dual_stack_config : Config :=
  mkConfig (Some "1") (Some "tok") None (Some "home.apertodns.com")
           (Some 300%N) None None true.

Definition w_ipv6_changed : World :=
  example_world [("https://api.ipify.org", "203.0.113.5");
                 ("https://api6.ipify.org", "2001:db8::2")]
                false acknowledged.

Definition st_dual_stack : State :=
  initial dual_stack_config
          (mkStore (Content "203.0.113.5") (Content "2001:db8::1")).

(** Daemon examples: the address moved from 10.0.0.1 to 10.0.0.2, and the
    update endpoint is unreachable, or answers 500, or answers 200 without
    [results]. *)
Definition st_stored_10_0_0_1 : State :=
  initial example_config (mkStore (Content "10.0.0.1") Missing).

Definition w_update_unreachable : World :=
  example_world [("https://api.ipify.org", "10.0.0.2")] false
                (Rejected "connect ECONNREFUSED").

Definition w_update_500 : World :=
  example_world [("https://api.ipify.org", "10.0.0.2")] false
    (Resolved (mkResponse 500
                 (Ret (mkReply None (Some "internal error") None)))).

Definition w_update_200_no_results : World :=
  example_world [("https://api.ipify.org", "10.0.0.2")] false
    (Resolved (mkResponse 200
                 (Ret (mkReply None (Some "update refused") None)))).

Definition w_update_200_not_json : World :=
  example_world [("https://api.ipify.org", "10.0.0.2")] false
    (Resolved (mkResponse 200 (Throw "Unexpected token < in JSON"))).

(** The resilience scenario of the specification: the address is 10.0.0.1
    and the update succeeds; then the address is 10.0.0.2 and the update
    endpoint is unreachable; then it is reachable again. *)
Definition w_tick1 : World :=
  example_world [("https://api.ipify.org", "10.0.0.1")] false acknowledged.

Definition w_tick3 : World :=
  example_world [("https://api.ipify.org", "10.0.0.2")] false acknowledged.

(** IPv4 is unreachable, IPv6 is not. *)
Definition w_ipv6_only : World :=
  example_world [("https://api6.ipify.org", "2001:db8::2")] false acknowledged.

Definition st_dual_stack_first_run : State :=
  initial dual_stack_config (mkStore Missing Missing).

(** Every detection provider is unreachable. *)
Definition w_offline : World := example_world [] false acknowledged.


(** The world [w] with a data directory in which [fs.writeFileSync] fails
    in the given way. *)
Definition with_write_failure (w : World) (f : WriteFailure) : World :=
  mkWorld (useApiKey w) (forceUpdate w) (env_APERTODNS_API_KEY w)
          (http_get w) (post_update_dns w) (post_cli_config w)
          (stdin_answer w) false f (now w) (daemonInterval w).

(** The disk is full: the file is opened, hence emptied, and nothing can be
    written to it. *)
Definition w_disk_full : World :=
  with_write_failure
    (example_world [("https://api.ipify.org", "203.0.113.5")] false
                   acknowledged)
    (WriteInterrupted 0).

(** A client without any credential, and one whose only credential is the
    environment variable. *)
Definition no_credential_config : Config :=
  mkConfig None None None (Some "home.apertodns.com") (Some 300%N)
           None None false.

Definition st_no_credential : State :=
  initial no_credential_config (mkStore (Content "10.0.0.1") Missing).

Definition w_env_key : World :=
  mkWorld None false (Some "ak_live_key")
          (serve [("https://api.ipify.org", "10.0.0.2")])
          (fun _ _ => acknowledged) (fun _ => Rejected "request failed")
          "" true OpenRefused "2024-05-01T10:20:30.000Z" (Some 300%Z).

(* ================================================================== *)
(** ** index.js: the command line                                       *)
(* ================================================================== *)

Module Cli.

(** [args.includes(x)] *)
Definition includes (x : string) (args : list string) : bool :=
  existsb (String.eqb x) args.

(** [args.indexOf(x)]; [None] is [-1]. *)
Fixpoint indexOf (x : string) (args : list string) : option nat :=
  match args with
  | [] => None
  | a :: rest =>
      if String.eqb a x then Some 0 else option_map S (indexOf x rest)
  end.

(** [s.startsWith('-')] *)
Definition startsWithDash (s : string) : bool := String.prefix "-" s.

(** [a && !a.startsWith('-') ? a : null], for [a] an element of [args] or
    [undefined]. *)
Definition usable (a : option string) : option string :=
  match a with
  | Some s =>
      if JS.truthy a && negb (startsWithDash s) then Some s else None
  | None => None
  end.

(** [getOption(name)] *)
Definition getOption (name : string) (args : list string) : option string :=
  match indexOf name args with
  | Some idx => usable (nth_error args (idx + 1))
  | None => None
  end.

(** [process.argv.slice(2)] *)
Definition args_of (argv : list string) : list string := skipn 2 argv.

Definition isCron (args : list string) : bool := includes "--cron" args.

(** [process.argv] after [if (isCron) { process.argv.push("--quiet");
    process.argv.push("--json"); }]: the pushes go to [process.argv], of
    which [args] is a copy made before. *)
Definition argv_after_startup (argv : list string) : list string :=
  if isCron (args_of argv) then (argv ++ ["--quiet"; "--json"])%list
  else argv.

(** [!isQuiet && !isCron], the condition of [showBanner()]. *)
Definition showsBanner (args : list string) : bool :=
  negb (includes "--quiet" args) && negb (isCron args).

Definition subcommand (args : list string) : option string :=
  usable (nth_error args 0).

Definition subcommandArg (args : list string) : option string :=
  usable (nth_error args 1).

Definition isQuiet (args : list string) : bool := includes "--quiet" args.
Definition showHelp (args : list string) : bool :=
  includes "--help" args || includes "-h" args.
Definition showVersion (args : list string) : bool :=
  includes "--version" args || includes "-v" args.
Definition showJson (args : list string) : bool := includes "--json" args.
Definition runVerify (args : list string) : bool := includes "--verify" args.
Definition runSetup (args : list string) : bool := includes "--setup" args.
Definition showStatus (args : list string) : bool :=
  includes "--status" args || includes "--show" args.
Definition forceUpdate (args : list string) : bool := includes "--force" args.
Definition enableTokenId (args : list string) : option string :=
  getOption "--enable" args.
Definition disableTokenId (args : list string) : option string :=
  getOption "--disable" args.
Definition toggleTokenId (args : list string) : option string :=
  getOption "--toggle" args.
Definition runConfigEdit (args : list string) : bool :=
  includes "--config" args.

(** [subcommand === word && (!subcommandArg || subcommandArg === "list")] *)
Definition lists (word : string) (args : list string) : bool :=
  JS.strict_eq (subcommand args) (Some word)
  && (negb (JS.truthy (subcommandArg args))
      || JS.strict_eq (subcommandArg args) (Some "list")).

(** [subcommand === word && subcommandArg === verb ? args[2] : null] *)
Definition third_word (word verb : string) (args : list string)
  : option string :=
  if JS.strict_eq (subcommand args) (Some word)
     && JS.strict_eq (subcommandArg args) (Some verb)
  then nth_error args 2 else None.

Definition listDomains (args : list string) : bool :=
  includes "--domains" args || lists "domains" args.
Definition listTokens (args : list string) : bool :=
  includes "--tokens" args || lists "tokens" args.
Definition addDomainArg (args : list string) : option string :=
  JS.or_else (getOption "--add-domain" args) (third_word "domains" "add" args).
Definition deleteDomainArg (args : list string) : option string :=
  JS.or_else (getOption "--delete-domain" args)
             (third_word "domains" "delete" args).
Definition showStats (args : list string) : bool :=
  includes "--stats" args || JS.strict_eq (subcommand args) (Some "stats").
Definition showLogs (args : list string) : bool :=
  includes "--logs" args || JS.strict_eq (subcommand args) (Some "logs").
Definition testDns (args : list string) : option string :=
  JS.or_else (getOption "--test" args)
             (if JS.strict_eq (subcommand args) (Some "test")
              then subcommandArg args else None).
Definition showDashboard (args : list string) : bool :=
  includes "--dashboard" args
  || JS.strict_eq (subcommand args) (Some "dashboard").
Definition listWebhooks (args : list string) : bool :=
  includes "--webhooks" args
  || JS.strict_eq (subcommand args) (Some "webhooks").
Definition listApiKeys (args : list string) : bool :=
  includes "--api-keys" args || lists "api-keys" args.
Definition createApiKeyArg (args : list string) : option string :=
  JS.or_else (getOption "--create-api-key" args)
             (third_word "api-keys" "create" args).
Definition deleteApiKeyArg (args : list string) : option string :=
  JS.or_else (getOption "--delete-api-key" args)
             (third_word "api-keys" "delete" args).
Definition showScopes (args : list string) : bool :=
  includes "--scopes" args || JS.strict_eq (subcommand args) (Some "scopes").
Definition useApiKey (args : list string) : option string :=
  getOption "--api-key" args.
Definition updateDomainArg (args : list string) : option string :=
  if JS.strict_eq (subcommand args) (Some "update")
  then subcommandArg args else None.
Definition runInteractive (args : list string) : bool :=
  match args with [] => true | _ => false end.
Definition runDaemon (args : list string) : bool :=
  includes "--daemon" args || JS.strict_eq (subcommand args) (Some "daemon").
Definition showMyIp (args : list string) : bool :=
  includes "--my-ip" args || includes "--ip" args
  || JS.strict_eq (subcommand args) (Some "ip")
  || JS.strict_eq (subcommand args) (Some "my-ip").
Definition logout (args : list string) : bool :=
  includes "--logout" args || JS.strict_eq (subcommand args) (Some "logout").

(** [txtSetArgs] and [txtDeleteArgs]: the words after the flag, taken as
    they are. *)
Definition txtSetArgs (args : list string)
  : option (option string * option string * option string) :=
  match indexOf "--txt-set" args with
  | Some idx => Some (nth_error args (idx + 1), nth_error args (idx + 2),
                      nth_error args (idx + 3))
  | None => None
  end.

Definition txtDeleteArgs (args : list string)
  : option (option string * option string) :=
  match indexOf "--txt-delete" args with
  | Some idx => Some (nth_error args (idx + 1), nth_error args (idx + 2))
  | None => None
  end.

(** What the process does with its arguments. *)
Inductive Command : Type :=
| Help
| Version
| Logout
| TxtSet (hostname name value : option string)
| TxtDelete (hostname name : option string)
| MyIp
| Daemon
| TokenState (tokenId : string) (desired : option bool)
| Dashboard
| DomainsList
| AddDomain (name : string)
| DeleteDomain (name : string)
| UpdateSingleDomain (name : string)
| TestDns (name : string)
| TokensList
| Stats
| Logs
| Webhooks
| ApiKeysList
| CreateApiKey (name : string)
| DeleteApiKey (keyId : string)
| Scopes
| Setup
| Verify
| Status
| ConfigEdit
| Interactive
| RunUpdate.

(** The [if ... else if ...] chain of [main]. *)
Definition main (args : list string) : Command :=
  if logout args then Logout else
  match txtSetArgs args with Some (h, n, v) => TxtSet h n v | None =>
  match txtDeleteArgs args with Some (h, n) => TxtDelete h n | None =>
  if showMyIp args then MyIp else
  if runDaemon args then Daemon else
  match JS.pick (enableTokenId args) with
  | Some t => TokenState t (Some true) | None =>
  match JS.pick (disableTokenId args) with
  | Some t => TokenState t (Some false) | None =>
  match JS.pick (toggleTokenId args) with
  | Some t => TokenState t None | None =>
  if showDashboard args then Dashboard else
  if listDomains args then DomainsList else
  match JS.pick (addDomainArg args) with Some d => AddDomain d | None =>
  match JS.pick (deleteDomainArg args) with Some d => DeleteDomain d | None =>
  match JS.pick (updateDomainArg args) with
  | Some d => UpdateSingleDomain d | None =>
  match JS.pick (testDns args) with Some d => TestDns d | None =>
  if listTokens args then TokensList else
  if showStats args then Stats else
  if showLogs args then Logs else
  if listWebhooks args then Webhooks else
  if listApiKeys args then ApiKeysList else
  match JS.pick (createApiKeyArg args) with Some k => CreateApiKey k | None =>
  match JS.pick (deleteApiKeyArg args) with Some k => DeleteApiKey k | None =>
  if showScopes args then Scopes else
  if runSetup args then Setup else
  if runVerify args then Verify else
  if showStatus args then Status else
  if runConfigEdit args then ConfigEdit else
  if runInteractive args then Interactive else RunUpdate
  end end end end end end end end end end end.

(** The module body before [main()]: [--help] and [--version] print and
    exit. *)
Definition startup (args : list string) : Command :=
  if showHelp args then Help
  else if showVersion args then Version
  else main args.

(** The words that select a command: the flags [main] and the module body
    look for with [includes], [indexOf] or [getOption], and the
    subcommands. *)
Definition command_flags : list string :=
  [ "--help"; "-h"; "--version"; "-v"; "--logout"; "--txt-set";
    "--txt-delete"; "--my-ip"; "--ip"; "--daemon"; "--enable"; "--disable";
    "--toggle"; "--dashboard"; "--domains"; "--add-domain";
    "--delete-domain"; "--test"; "--tokens"; "--stats"; "--logs";
    "--webhooks"; "--api-keys"; "--create-api-key"; "--delete-api-key";
    "--scopes"; "--setup"; "--verify"; "--status"; "--show"; "--config" ].

Definition subcommands : list string :=
  [ "logout"; "ip"; "my-ip"; "daemon"; "dashboard"; "domains"; "update";
    "test"; "tokens"; "stats"; "logs"; "webhooks"; "api-keys"; "scopes" ].

End Cli.

(* ================================================================== *)
(** ** index.js: the daemon's interval                                  *)
(* ================================================================== *)

(** The value of a digit in a radix, for [parseInt]. *)
Definition digit_value (radix : nat) (c : ascii) : option nat :=
  let n := nat_of_ascii c in
  let d := if ((48 <=? n) && (n <=? 57))%nat then Some (n - 48)
           else if ((97 <=? n) && (n <=? 122))%nat then Some (n - 87)
           else if ((65 <=? n) && (n <=? 90))%nat then Some (n - 55)
           else None in
  match d with
  | Some v => if (v <? radix)%nat then Some v else None
  | None => None
  end.

(** The value of the longest prefix of digits; [None] when it is empty. *)
Fixpoint parse_digits (radix : nat) (acc : option Z) (s : string)
  : option Z :=
  match s with
  | EmptyString => acc
  | String c r =>
      match digit_value radix c with
      | Some d =>
          parse_digits radix
            (Some (match acc with Some a => a | None => 0 end
                   * Z.of_nat radix + Z.of_nat d)%Z) r
      | None => acc
      end
  end.

(** [parseInt(s)] without a radix: leading white space, a sign, [0x] or
    [0X] for radix 16, then the longest prefix of digits; [None] is [NaN].
    The result is the integer the digits denote; the number JavaScript
    computes with is the double nearest to it, the same below 2^53. *)
Definition parseInt (s : string) : option Z :=
  let s1 := JS.trimStart s in
  let '(negative, s2) :=
    match s1 with
    | String c r =>
        if Ascii.eqb c "-" then (true, r)
        else if Ascii.eqb c "+" then (false, r)
        else (false, s1)
    | EmptyString => (false, s1)
    end in
  let '(radix, s3) :=
    match s2 with
    | String c0 (String c1 r) =>
        if Ascii.eqb c0 "0" && (Ascii.eqb c1 "x" || Ascii.eqb c1 "X")
        then (16, r) else (10, s2)
    | _ => (10, s2)
    end in
  match parse_digits radix None s3 with
  | Some z => Some (if negative then (- z)%Z else z)
  | None => None
  end.

(** [getOption("--interval") ? parseInt(getOption("--interval")) : 300] *)
Definition daemonInterval_of (args : list string) : option Z :=
  match JS.pick (Cli.getOption "--interval" args) with
  | Some v => parseInt v
  | None => Some 300%Z
  end.

(* ================================================================== *)
(** ** index.js: [compareVersions]                                      *)
(* ================================================================== *)

Section Versions.

(** The numbers of JavaScript other than [NaN], with [+0] and [-0] taken as
    one, their order, and the conversion [Number] from strings, in which
    [None] is [NaN]. *)
Variable num : Type.
Variable zero : num.
Variable gtb : num -> num -> bool.
Variable Number : string -> option num.

(** [parts[i] || 0]: a missing part, [NaN] and zero all give zero. *)
Definition part (parts : list (option num)) (i : nat) : num :=
  match nth_error parts i with
  | Some (Some x) => x
  | _ => zero
  end.

(** The [for] loop from index [i], with [steps] iterations left. *)
Fixpoint compare_from (parts1 parts2 : list (option num)) (i steps : nat)
  : Z :=
  match steps with
  | 0 => 0%Z
  | S k =>
      let p1 := part parts1 i in
      let p2 := part parts2 i in
      if gtb p1 p2 then 1%Z
      else if gtb p2 p1 then (-1)%Z
      else compare_from parts1 parts2 (S i) k
  end.

(** [v.split('.').map(Number)] *)
Definition version_parts (v : string) : list (option num) :=
  map Number (split_dots v).

(** [compareVersions(v1, v2)] *)
Definition compareVersions (v1 v2 : string) : Z :=
  let parts1 := version_parts v1 in
  let parts2 := version_parts v2 in
  compare_from parts1 parts2 0
    (Nat.max (List.length parts1) (List.length parts2)).

End Versions.

(** An instance of [Number] for examples: the empty string is 0 and a string
    of decimal digits is its value, exactly as [Number] has them up to 15
    digits; every other string is given as [NaN], as [Number] does for a part
    with a suffix such as [3-beta]. *)
Definition Number_of_numeral (s : string) : option Z :=
  if forallb Regex.isDigit (list_ascii_of_string s)
  then Some (Z.of_nat (decimal_value 0 s)) else None.

(* ================================================================== *)
(** ** Conditions on the world                                          *)
(* ================================================================== *)

(** The update endpoint acknowledges every request. *)
Definition always_acknowledged (w : World) : Prop :=
  forall b t, exists res data,
    post_update_dns w b t = Resolved res
    /\ payload res = Ret data
    /\ ok res && acknowledges data = true.

(** The update endpoint answers every request with a 2xx status. *)
Definition always_ok (w : World) : Prop :=
  forall b t, exists res,
    post_update_dns w b t = Resolved res /\ ok res = true.

(** Two worlds that a daemon tick cannot tell apart: the same providers,
    update endpoint, file system (whether a write succeeds, and how it
    fails) and clock. *)
Definition same_for_daemon (w w' : World) : Prop :=
  http_get w = http_get w'
  /\ post_update_dns w = post_update_dns w'
  /\ writable w = writable w'
  /\ write_failure w = write_failure w'
  /\ now w = now w'.


(* ================================================================== *)
(** ** index.js: [getAuthHeaders] and [updateSingleDomain]              *)
(* ================================================================== *)

Module Account.

(** [s.toLowerCase()] on code units below 256: the capitals A-Z, and the
    capitals of Latin-1 from U+00C0 to U+00DE other than the multiplication
    sign, move up by 32. *)
Definition lower (c : ascii) : ascii :=
  let n := nat_of_ascii c in
  if (((65 <=? n) && (n <=? 90))
      || ((192 <=? n) && (n <=? 222) && negb (n =? 215)))%nat
  then ascii_of_nat (n + 32) else c.

Fixpoint toLowerCase (s : string) : string :=
  match s with
  | EmptyString => EmptyString
  | String c s' => String (lower c) (toLowerCase s')
  end.

(** The authentication header of a request. *)
Inductive Header : Type :=
| XApiKey (key : string)
| Bearer (token : string).

(** [getAuthHeaders(token)]: "API Keys start with ak_ or apertodns_live_ or
    apertodns_test_". *)
Definition getAuthHeaders (token : string) : Header :=
  if JS.truthy (Some token)
     && (String.prefix "ak_" token
         || String.prefix "apertodns_live_" token
         || String.prefix "apertodns_test_" token)
  then XApiKey token
  else Bearer token.

(** An entry of the account's domain list.  A [name] that is not a string
    is [None]. *)
Record Domain : Type := mkDomain {
  domain_id : string;
  domain_name : option string;
  domain_ip : option string
}.

(** What the client reads in the body of [GET /domains]:
    [listData.domains || listData] when that is an array, and the fields
    of an error. *)
Record DomainsData : Type := mkDomainsData {
  as_list : option (list Domain);
  list_error : option string;
  list_message : option string
}.

(** The body of [PATCH /domains/:id]: [ip] is always present and may be
    [null], [ipv6] is left out when there is none. *)
Record PatchBody : Type := mkPatch {
  patch_ip : option string;
  patch_ipv6 : option string
}.

(** What the client reads in the reply of the [PATCH]. *)
Record PatchData : Type := mkPatchData {
  patch_error : option string;
  patch_details : option string;
  patch_message : option string
}.

(** The account API.  The payload of a response is its JSON value, [None]
    being the JSON [null]. *)
Record Api : Type := mkApi {
  get_domains : Header -> Fetched (option DomainsData);
  patch_domain : string -> PatchBody -> Header -> Fetched (option PatchData)
}.

(** What [updateSingleDomain] reports. *)
Inductive Report : Type :=
| NoIp
| AuthFailed (msg : option string)
| NotFound (domainName : string)
| Updated (domainName : string) (ip ipv6 previousIp : option string)
| Failed (msg : option string)
| Exception (msg : string).

(** The requests to the account API and the report, in order. *)
Inductive Call : Type :=
| GetDomains (h : Header)
| PatchDomain (domainId : string) (body : PatchBody) (h : Header)
| Say (r : Report).

(** The client's state with the calls made so far. *)
Record AState : Type := mkAState {
  core : State;
  calls : list Call
}.

Definition MA (A : Type) : Type :=
  Api -> World -> AState -> Result A * AState.

Definition retA {A} (a : A) : MA A := fun _ _ s => (Ret a, s).

Definition bindA {A B} (m : MA A) (k : A -> MA B) : MA B :=
  fun api w s =>
    match m api w s with
    | (Ret a, s') => k a api w s'
    | (Throw msg, s') => (Throw msg, s')
    end.

Definition throwA {A} (msg : string) : MA A := fun _ _ s => (Throw msg, s).

Definition catchA {A} (m : MA A) (h : string -> MA A) : MA A :=
  fun api w s =>
    match m api w s with
    | (Ret a, s') => (Ret a, s')
    | (Throw msg, s') => h msg api w s'
    end.

(** A computation of the core, run on the core state. *)
Definition lift {A} (m : M A) : MA A :=
  fun _ w s =>
    match m w (core s) with
    | (r, st') => (r, mkAState st' (calls s))
    end.

Definition call (c : Call) : MA unit :=
  fun _ _ s => (Ret tt, mkAState (core s) (calls s ++ [c])).

(** The message of the [TypeError] raised by a property access on [null] or
    [undefined], or by calling what is not a function. *)
Definition type_error : string := "TypeError".

(** [await fetch(`${API_BASE}/domains`, { headers })] *)
Definition fetch_domains (h : Header) : MA (Response (option DomainsData)) :=
  bindA (call (GetDomains h)) (fun _ =>
  fun api _ s =>
    match get_domains api h with
    | Rejected msg => (Throw msg, s)
    | Resolved res => (Ret res, s)
    end).

(** [await fetch(`${API_BASE}/domains/${domain.id}`, { method: "PATCH",
    ... })] *)
Definition fetch_patch (domainId : string) (body : PatchBody) (h : Header)
  : MA (Response (option PatchData)) :=
  bindA (call (PatchDomain domainId body h)) (fun _ =>
  fun api _ s =>
    match patch_domain api domainId body h with
    | Rejected msg => (Throw msg, s)
    | Resolved res => (Ret res, s)
    end).

(** [await res.json()] *)
Definition json {A} (res : Response A) : MA A :=
  match payload res with
  | Ret a => retA a
  | Throw msg => throwA msg
  end.

(** [domains.find(d => d.name === domainName ||
    d.name.toLowerCase() === domainName.toLowerCase())]: the first entry
    that matches; an entry whose name is not a string, met before any match,
    raises a [TypeError]. *)
Fixpoint find_domain (domainName : string) (domains : list Domain)
  : Result (option Domain) :=
  match domains with
  | [] => Ret None
  | d :: rest =>
      match domain_name d with
      | None => Throw type_error
      | Some n =>
          if String.eqb n domainName
             || String.eqb (toLowerCase n) (toLowerCase domainName)
          then Ret (Some d)
          else find_domain domainName rest
      end
  end.

(** The [try] block of [updateSingleDomain]. *)
Definition updateSingleDomain_body (domainName token : string) : MA unit :=
  bindA (lift (or_null (getCurrentIP (Some "https://api.ipify.org"))))
    (fun currentIP =>
  bindA (lift (catch (getCurrentIPv6 (Some "https://api6.ipify.org"))
                     (fun _ => ret None)))
    (fun currentIPv6 =>
  if negb (JS.truthy currentIP) && negb (JS.truthy currentIPv6)
  then call (Say NoIp)
  else
    bindA (fetch_domains (getAuthHeaders token)) (fun listRes =>
    if negb (ok listRes) then
      bindA (catchA (json listRes)
                    (fun _ => retA (Some (mkDomainsData None None None))))
        (fun errData =>
      match errData with
      | None => throwA type_error
      | Some e =>
          call (Say (AuthFailed
                       (JS.or_else (list_error e) (list_message e))))
      end)
    else
      bindA (json listRes) (fun listData =>
      match listData with
      | None => throwA type_error
      | Some data =>
          match as_list data with
          | None => throwA type_error
          | Some domains =>
              match find_domain domainName domains with
              | Throw msg => throwA msg
              | Ret None => call (Say (NotFound domainName))
              | Ret (Some d) =>
                  let updateBody := mkPatch currentIP (JS.pick currentIPv6) in
                  bindA (fetch_patch (domain_id d) updateBody
                                     (getAuthHeaders token)) (fun res =>
                  bindA (json res) (fun data =>
                  if ok res
                  then call (Say (Updated domainName currentIP
                                          (JS.pick currentIPv6)
                                          (domain_ip d)))
                  else
                    match data with
                    | None => throwA type_error
                    | Some e =>
                        call (Say (Failed
                                     (JS.or_else
                                        (JS.or_else (patch_error e)
                                                    (patch_details e))
                                        (patch_message e))))
                    end))
              end
          end
      end)))).

(** [updateSingleDomain(domainName)] *)
Definition updateSingleDomain (domainName : string) : MA unit :=
  bindA (lift getAuthToken) (fun token =>
  catchA (updateSingleDomain_body domainName token)
         (fun msg => call (Say (Exception msg)))).

(** The [PATCH] requests among the calls. *)
Definition patches (cs : list Call) : list (string * PatchBody * Header) :=
  flat_map (fun c => match c with
                     | PatchDomain i b h => [(i, b, h)]
                     | _ => []
                     end) cs.

(** The reports among the calls. *)
Definition reports (cs : list Call) : list Report :=
  flat_map (fun c => match c with Say r => [r] | _ => [] end) cs.

(** A name matches an entry as [find] tests it. *)
Definition matches (domainName : string) (d : Domain) : bool :=
  match domain_name d with
  | Some n => String.eqb n domainName
              || String.eqb (toLowerCase n) (toLowerCase domainName)
  | None => false
  end.

(** The calls added between two states. *)
Definition new_calls (s s' : AState) : list Call :=
  skipn (List.length (calls s)) (calls s').

(** The state with other files. *)
Definition with_files (s : AState) (f : Store) : AState :=
  mkAState (mkState (config (core s)) f (trace (core s))) (calls s).

(** The token [getAuthToken] gives, and whether it has to prompt for it. *)
Definition auth_token (w : World) (cfg : Config) : string :=
  match JS.pick (useApiKey w) with
  | Some k => k
  | None =>
  match JS.pick (env_APERTODNS_API_KEY w) with
  | Some k => k
  | None =>
  match JS.pick (jwtToken cfg) with
  | Some k => k
  | None =>
  match JS.pick (apiToken cfg) with
  | Some k => k
  | None => JS.trim (stdin_answer w)
  end end end end.

Definition auth_prompts (w : World) (cfg : Config) : list Event :=
  match JS.pick (useApiKey w), JS.pick (env_APERTODNS_API_KEY w),
        JS.pick (jwtToken cfg), JS.pick (apiToken cfg) with
  | None, None, None, None => [Prompt "Token JWT o API Key: "]
  | _, _, _, _ => []
  end.

(** The calls of [updateSingleDomain] once the token and the two addresses
    are known, by cases on what the account API answers. *)
Definition calls_after_patch (api : Api) (domainName : string)
  (h : Header) (ip4 ip6 : option string) (d : Domain) : list Call :=
  PatchDomain (domain_id d) (mkPatch ip4 (JS.pick ip6)) h
  :: match patch_domain api (domain_id d) (mkPatch ip4 (JS.pick ip6)) h with
     | Rejected msg => [Say (Exception msg)]
     | Resolved res =>
         match payload res with
         | Throw msg => [Say (Exception msg)]
         | Ret data =>
             if ok res
             then [Say (Updated domainName ip4 (JS.pick ip6) (domain_ip d))]
             else match data with
                  | None => [Say (Exception type_error)]
                  | Some e =>
                      [Say (Failed (JS.or_else
                                      (JS.or_else (patch_error e)
                                                  (patch_details e))
                                      (patch_message e)))]
                  end
         end
     end.

Definition calls_of (api : Api) (domainName token : string)
  (ip4 ip6 : option string) : list Call :=
  if negb (JS.truthy ip4) && negb (JS.truthy ip6) then [Say NoIp]
  else
    GetDomains (getAuthHeaders token)
    :: match get_domains api (getAuthHeaders token) with
       | Rejected msg => [Say (Exception msg)]
       | Resolved res =>
           if negb (ok res) then
             match payload res with
             | Throw _ => [Say (AuthFailed None)]
             | Ret None => [Say (Exception type_error)]
             | Ret (Some e) =>
                 [Say (AuthFailed
                         (JS.or_else (list_error e) (list_message e)))]
             end
           else
             match payload res with
             | Throw msg => [Say (Exception msg)]
             | Ret None => [Say (Exception type_error)]
             | Ret (Some data) =>
                 match as_list data with
                 | None => [Say (Exception type_error)]
                 | Some domains =>
                     match find_domain domainName domains with
                     | Throw msg => [Say (Exception msg)]
                     | Ret None => [Say (NotFound domainName)]
                     | Ret (Some d) =>
                         calls_after_patch api domainName
                           (getAuthHeaders token) ip4 ip6 d
                     end
                 end
             end
       end.

(** An account API for examples: the domain list is the given one, and the
    [PATCH] is answered 200. *)
Definition example_api (domains : list Domain) : Api :=
  mkApi (fun _ => Resolved (mkResponse 200
                              (Ret (Some (mkDomainsData (Some domains)
                                                       None None)))))
        (fun _ _ _ => Resolved (mkResponse 200
                                  (Ret (Some (mkPatchData None None None))))).

Definition example_domains : list Domain :=
  [ mkDomain "17" (Some "office.apertodns.com") (Some "192.0.2.1");
    mkDomain "42" (Some "Home.ApertoDNS.com") (Some "203.0.113.5") ].

End Account.

(* ================================================================== *)
(** * Properties                                                        *)
(* ================================================================== *)

Unset Implicit Arguments.

(** ** Strings and patterns *)

Lemma append_nil_r (s : string) : s ++ "" = s.
Proof. induction s as [|c s IH]; simpl; [reflexivity | now rewrite IH]. Qed.

Lemma append_assoc (a b c : string) : (a ++ b) ++ c = a ++ (b ++ c).
Proof. induction a as [|x a IH]; simpl; [reflexivity | now rewrite IH]. Qed.

Lemma append_eq_nil (a b : string) : a ++ b = "" -> a = "" /\ b = "".
Proof. destruct a; simpl; [auto | discriminate]. Qed.

Lemma length_append (a b : string) :
  String.length (a ++ b) = String.length a + String.length b.
Proof. induction a as [|x a IH]; simpl; [reflexivity | now rewrite IH]. Qed.

Lemma nullable_lang (r : Regex.regex) :
  Regex.nullable r = true <-> Regex.lang r "".
Proof.
  induction r as [| |p|r1 IH1 r2 IH2|r1 IH1 r2 IH2]; simpl.
  - split; [discriminate | tauto].
  - split; auto.
  - split; [discriminate | intros (c & H & _); discriminate].
  - rewrite andb_true_iff, IH1, IH2. split.
    + intros [H1 H2]. exists "", "". auto.
    + intros (s1 & s2 & E & H1 & H2).
      symmetry in E. apply append_eq_nil in E as [-> ->]. auto.
  - rewrite orb_true_iff, IH1, IH2. tauto.
Qed.

Lemma deriv_lang (c : ascii) (r : Regex.regex) :
  forall s, Regex.lang (Regex.deriv c r) s <-> Regex.lang r (String c s).
Proof.
  induction r as [| |p|r1 IH1 r2 IH2|r1 IH1 r2 IH2]; intros s; simpl.
  - tauto.
  - split; [tauto | discriminate].
  - destruct (p c) eqn:Hp; simpl.
    + split.
      * intros ->. exists c. auto.
      * intros (d & E & _). now inversion E.
    + split; [tauto |].
      intros (d & E & Hd). inversion E; subst. congruence.
  - assert (Hcat : (exists s1 s2, s = s1 ++ s2
                      /\ Regex.lang (Regex.deriv c r1) s1 /\ Regex.lang r2 s2)
                   <-> (exists s1' s2, String c s = String c s1' ++ s2
                          /\ Regex.lang r1 (String c s1') /\ Regex.lang r2 s2)).
    { split; intros (s1 & s2 & E & H1 & H2); exists s1, s2.
      - subst s. simpl. rewrite <- IH1. auto.
      - simpl in E. inversion E. rewrite IH1. auto. }
    destruct (Regex.nullable r1) eqn:Hn; simpl.
    + rewrite Hcat, IH2. split.
      * intros [(s1 & s2 & E & H1 & H2) | H].
        -- exists (String c s1), s2. auto.
        -- exists "", (String c s). apply nullable_lang in Hn. auto.
      * intros (s1 & s2 & E & H1 & H2). destruct s1 as [|d s1].
        -- right. simpl in E. now subst s2.
        -- left. simpl in E. inversion E; subst. exists s1, s2. auto.
    + rewrite Hcat. split.
      * intros (s1 & s2 & E & H1 & H2). exists (String c s1), s2. auto.
      * intros (s1 & s2 & E & H1 & H2). destruct s1 as [|d s1].
        -- apply nullable_lang in H1. congruence.
        -- simpl in E. inversion E; subst. exists s1, s2. auto.
  - rewrite IH1, IH2. tauto.
Qed.

(** [test] decides the language of the pattern. *)
Lemma test_lang (s : string) :
  forall r, Regex.test r s = true <-> Regex.lang r s.
Proof.
  induction s as [|c s IH]; intros r; simpl.
  - apply nullable_lang.
  - rewrite IH. apply deriv_lang.
Qed.

Lemma lang_digit_group (a : string) :
  Regex.lang (Regex.range 1 3 Regex.digit) a <-> digit_group a.
Proof.
  unfold digit_group, all_digits. split.
  - simpl. intros (s1 & s2 & -> & (d1 & e & -> & (c1 & -> & H1) & ->) & H).
    simpl. destruct H as [-> | (d2 & e2 & -> & (c2 & -> & H2) & H)].
    + simpl. split; [lia |]. intros c [<- | []]. assumption.
    + simpl. destruct H as [-> | (d3 & e3 & -> & (c3 & -> & H3) & ->)].
      * simpl. split; [lia |]. intros c [<- | [<- | []]]; assumption.
      * simpl. split; [lia |].
        intros c [<- | [<- | [<- | []]]]; assumption.
  - intros [[Hlo Hhi] Hd].
    destruct a as [|c1 [|c2 [|c3 [|c4 a]]]]; simpl in Hlo, Hhi; try lia.
    + exists (String c1 ""), "". repeat split.
      * exists (String c1 ""), "". repeat split.
        exists c1. split; [reflexivity | apply Hd; simpl; auto].
      * now left.
    + exists (String c1 ""), (String c2 ""). repeat split.
      * exists (String c1 ""), "". repeat split.
        exists c1. split; [reflexivity | apply Hd; simpl; auto].
      * right. exists (String c2 ""), "". repeat split.
        -- exists c2. split; [reflexivity | apply Hd; simpl; auto].
        -- now left.
    + exists (String c1 ""), (String c2 (String c3 "")). repeat split.
      * exists (String c1 ""), "". repeat split.
        exists c1. split; [reflexivity | apply Hd; simpl; auto].
      * right. exists (String c2 ""), (String c3 ""). repeat split.
        -- exists c2. split; [reflexivity | apply Hd; simpl; auto].
        -- right. exists (String c3 ""), "". repeat split.
           exists c3. split; [reflexivity | apply Hd; simpl; auto].
Qed.

Lemma lang_dot (s : string) : Regex.lang (Regex.lit ".") s <-> s = ".".
Proof.
  change (Regex.lang (Regex.lit ".") s)
    with (exists c, s = String c "" /\ Ascii.eqb "." c = true).
  split.
  - intros (c & -> & H). apply Ascii.eqb_eq in H. now subst c.
  - intros ->. exists "."%char. auto.
Qed.

Lemma lang_group_dot (s : string) :
  Regex.lang (Regex.Cat (Regex.range 1 3 Regex.digit) (Regex.lit ".")) s
  <-> exists a, s = a ++ "." /\ digit_group a.
Proof.
  change (Regex.lang (Regex.Cat ?r ?q) s)
    with (exists s1 s2, s = s1 ++ s2 /\ Regex.lang r s1 /\ Regex.lang q s2).
  split.
  - intros (s1 & s2 & -> & H1 & H2).
    apply lang_digit_group in H1. apply lang_dot in H2. subst s2. eauto.
  - intros (a & -> & H). exists a, ".". repeat split.
    + now apply lang_digit_group.
    + now apply lang_dot.
Qed.

(** The pattern accepts exactly the strings made of four groups of one to
    three digits separated by dots. *)
Lemma ipv4Regex_dotted_quad (s : string) :
  ipv4Regex_test s = true <-> dotted_quad s.
Proof.
  unfold ipv4Regex_test. rewrite test_lang. unfold ipv4Regex, dotted_quad.
  set (g := Regex.Cat (Regex.range 1 3 Regex.digit) (Regex.lit ".")).
  set (o := Regex.range 1 3 Regex.digit).
  change (Regex.lang (Regex.Cat (Regex.times 3 g) o) s)
    with (exists s1 s2, s = s1 ++ s2
            /\ (exists x1 y1, s1 = x1 ++ y1 /\ Regex.lang g x1
                 /\ exists x2 y2, y1 = x2 ++ y2 /\ Regex.lang g x2
                 /\ exists x3 y3, y2 = x3 ++ y3 /\ Regex.lang g x3
                 /\ y3 = "")
            /\ Regex.lang o s2).
  split.
  - intros (s1 & s2 & -> & (x1 & y1 & -> & G1 & x2 & y2 & -> & G2
                            & x3 & y3 & -> & G3 & ->) & Ho).
    apply lang_group_dot in G1 as (a & -> & Ha).
    apply lang_group_dot in G2 as (b & -> & Hb).
    apply lang_group_dot in G3 as (c & -> & Hc).
    apply lang_digit_group in Ho.
    exists a, b, c, s2. split; [| auto].
    rewrite append_nil_r. now rewrite !append_assoc.
  - intros (a & b & c & d & -> & Ha & Hb & Hc & Hd).
    exists (a ++ "." ++ b ++ "." ++ c ++ "."), d. split; [| split].
    + now rewrite !append_assoc.
    + exists (a ++ "."), (b ++ "." ++ c ++ "."). split; [| split].
      * now rewrite !append_assoc.
      * apply lang_group_dot. eauto.
      * exists (b ++ "."), (c ++ "."). split; [| split].
        -- now rewrite !append_assoc.
        -- apply lang_group_dot. eauto.
        -- exists (c ++ "."), "". split; [| split].
           ++ now rewrite append_nil_r.
           ++ apply lang_group_dot. eauto.
           ++ reflexivity.
    + now apply lang_digit_group.
Qed.

Example ipv4Regex_accepts : ipv4Regex_test "203.0.113.5" = true.
Proof. reflexivity. Qed.

Example ipv4Regex_accepts_large : ipv4Regex_test "999.999.999.999" = true.
Proof. reflexivity. Qed.

Example ipv4Regex_rejects_space : ipv4Regex_test " 203.0.113.5" = false.
Proof. reflexivity. Qed.

Example ipv4Regex_rejects_empty : ipv4Regex_test "" = false.
Proof. reflexivity. Qed.

Example trim_example :
  JS.trim (String "009" " 10.0.0.1 " ++ String "010" "") = "10.0.0.1".
Proof. reflexivity. Qed.

(** ** Bookkeeping of states and traces *)

Lemma extend_nil (st : State) : extend st [] = st.
Proof. destruct st; unfold extend; simpl. now rewrite app_nil_r. Qed.

Lemma extend_extend (st : State) (a b : list Event) :
  extend (extend st a) b = extend st (a ++ b).
Proof. unfold extend; simpl. now rewrite app_assoc. Qed.

Lemma since_extend (st : State) (evs : list Event) :
  since st (extend st evs) = evs.
Proof.
  unfold since, extend; simpl.
  rewrite skipn_app, skipn_all, Nat.sub_diag. reflexivity.
Qed.

Lemma gets_map_Get (l : list string) : gets (map Get l) = l.
Proof. induction l as [|u l IH]; simpl; [reflexivity | now rewrite IH]. Qed.

Lemma posts_map_Get (l : list string) : posts (map Get l) = [].
Proof. induction l as [|u l IH]; simpl; auto. Qed.

Lemma outs_map_Get (l : list string) : outs (map Get l) = [].
Proof. induction l as [|u l IH]; simpl; auto. Qed.

Lemma saves_map_Get (l : list string) : saves (map Get l) = [].
Proof. induction l as [|u l IH]; simpl; auto. Qed.

Lemma prompts_map_Get (l : list string) : prompts (map Get l) = [].
Proof. induction l as [|u l IH]; simpl; auto. Qed.

Lemma posts_app (a b : list Event) : posts (a ++ b) = (posts a ++ posts b)%list.
Proof. apply flat_map_app. Qed.

Lemma outs_app (a b : list Event) : outs (a ++ b) = (outs a ++ outs b)%list.
Proof. apply flat_map_app. Qed.

Lemma saves_app (a b : list Event) : saves (a ++ b) = (saves a ++ saves b)%list.
Proof. apply flat_map_app. Qed.

Lemma gets_app (a b : list Event) : gets (a ++ b) = (gets a ++ gets b)%list.
Proof. apply flat_map_app. Qed.

Lemma prompts_app (a b : list Event) :
  prompts (a ++ b) = (prompts a ++ prompts b)%list.
Proof. apply flat_map_app. Qed.

(** Unfolding of the monad's operations. *)
Ltac run :=
  unfold bind, ret, throw, catch, ask, emit, settle, body_of,
    get_config, set_config, get_files, set_files; simpl.

(** ** The IPv4 resolver *)

Lemma first_valid_sound (answer : string -> option string) (l : list string) :
  forall contacted a,
    first_valid answer l = (contacted, Some a) ->
    exists before u,
      contacted = (before ++ [u])%list
      /\ (forall x, In x before -> answer x = None)
      /\ answer u = Some a
      /\ exists rest, l = (contacted ++ rest)%list.
Proof.
  induction l as [|u l IH]; intros contacted a; simpl.
  - discriminate.
  - destruct (answer u) as [b|] eqn:Hu.
    + intros [= <- <-]. exists [], u. repeat split; auto.
      * intros x [].
      * now exists l.
    + destruct (first_valid answer l) as [c r] eqn:Hl.
      intros [= <- ->].
      destruct (IH c a eq_refl) as (before & v & -> & Hb & Hv & rest & ->).
      exists (u :: before), v. repeat split; auto.
      * intros x [<- | Hx]; auto.
      * now exists rest.
Qed.

Lemma first_valid_exhausted (answer : string -> option string)
  (l : list string) :
  forall contacted,
    first_valid answer l = (contacted, None) ->
    contacted = l /\ forall x, In x l -> answer x = None.
Proof.
  induction l as [|u l IH]; intros contacted; simpl.
  - intros [= <-]. split; [reflexivity | intros x []].
  - destruct (answer u) as [b|] eqn:Hu; [discriminate |].
    destruct (first_valid answer l) as [c r] eqn:Hl.
    intros [= <- ->]. destruct (IH c eq_refl) as [-> Hall].
    split; [reflexivity |]. intros x [<- | Hx]; auto.
Qed.

Lemma answer_v4_valid (w : World) (u a : string) :
  answer_v4 w u = Some a -> ipv4Regex_test a = true.
Proof.
  unfold answer_v4. destruct (http_get w u) as [m|res]; [discriminate |].
  destruct (ok res); [| discriminate].
  destruct (payload res) as [body|m]; [| discriminate].
  destruct (ipv4Regex_test (JS.trim body)) eqn:E; [| discriminate].
  now intros [= <-].
Qed.

(** One pass of the fallback loop's body is the provider's [answer_v4]. *)
Lemma fallback_attempt_answer (w : World) (u : string) (st : State) :
  catch (fallback_attempt u) (fun _ => ret None) w st
  = (Ret (answer_v4 w u), extend st [Get u]).
Proof.
  unfold fallback_attempt, fetch_get, answer_v4. run.
  destruct (http_get w u) as [m|res]; [reflexivity |].
  destruct (ok res); [| reflexivity].
  destruct (payload res) as [body|m]; simpl; [| reflexivity].
  destruct (ipv4Regex_test (JS.trim body)); reflexivity.
Qed.

(** The [try] block succeeds exactly with the provider's [answer_v4]. *)
Lemma preferred_attempt_answer (w : World) (u : string) (st : State) :
  match answer_v4 w u with
  | Some a => preferred_attempt u w st = (Ret a, extend st [Get u])
  | None => exists msg,
      preferred_attempt u w st = (Throw msg, extend st [Get u])
  end.
Proof.
  unfold preferred_attempt, fetch_get, answer_v4. run.
  destruct (http_get w u) as [m|res]; [eauto |].
  destruct (ok res); simpl; [| eauto].
  destruct (payload res) as [body|m]; simpl; [| eauto].
  destruct (ipv4Regex_test (JS.trim body)); simpl; eauto.
Qed.

(** The fallback loop is the first-success iteration over the fallbacks
    other than the provider already tried. *)
Lemma fallback_loop_first_valid (w : World) (ipService : string)
  (l : list string) :
  forall st,
    fallback_loop ipService l w st
    = let (contacted, r) :=
        first_valid (answer_v4 w)
          (filter (fun u => negb (String.eqb u ipService)) l) in
      (resolved_or_unavailable r, extend st (map Get contacted)).
Proof.
  induction l as [|u l IH]; intros st; simpl.
  - unfold throw. now rewrite extend_nil.
  - destruct (String.eqb u ipService); simpl; [apply IH |].
    unfold bind at 1. rewrite fallback_attempt_answer.
    destruct (answer_v4 w u) as [a|]; [reflexivity |].
    rewrite IH.
    destruct (first_valid _ _) as [c r]. now rewrite extend_extend.
Qed.

(** [getCurrentIP] is the first-success iteration over [candidates]. *)
Lemma getCurrentIP_first_valid (arg : option string) (w : World) (st : State) :
  getCurrentIP arg w st
  = let (contacted, r) :=
      first_valid (answer_v4 w) (candidates (ipService_or_default arg)) in
    (resolved_or_unavailable r, extend st (map Get contacted)).
Proof.
  unfold getCurrentIP, candidates.
  set (svc := ipService_or_default arg).
  unfold catch. cbn [first_valid].
  pose proof (preferred_attempt_answer w svc st) as H.
  destruct (answer_v4 w svc) as [a|].
  - now rewrite H.
  - destruct H as [msg ->]. rewrite fallback_loop_first_valid.
    destruct (first_valid _ _) as [c r]. now rewrite extend_extend.
Qed.

Lemma first_valid_found (answer : string -> option string)
  (before : list string) (u : string) (after : list string) (a : string) :
  (forall x, In x before -> answer x = None) ->
  answer u = Some a ->
  first_valid answer (before ++ u :: after) = ((before ++ [u])%list, Some a).
Proof.
  intros Hb Hu. induction before as [|x before IH]; simpl.
  - now rewrite Hu.
  - rewrite (Hb x) by (simpl; auto).
    rewrite IH by (intros y Hy; apply Hb; simpl; auto). reflexivity.
Qed.

Lemma first_valid_none (answer : string -> option string) (l : list string) :
  (forall x, In x l -> answer x = None) ->
  first_valid answer l = (l, None).
Proof.
  intros Hl. induction l as [|x l IH]; simpl; [reflexivity |].
  rewrite (Hl x) by (simpl; auto).
  rewrite IH by (intros y Hy; apply Hl; simpl; auto). reflexivity.
Qed.

(** Whatever [getCurrentIP] returns has passed [ipv4Regex]. *)
Lemma getCurrentIP_validated (arg : option string) (w : World)
  (st st' : State) (a : string) :
  getCurrentIP arg w st = (Ret a, st') -> ipv4Regex_test a = true.
Proof.
  rewrite getCurrentIP_first_valid.
  destruct (first_valid _ _) as [c [b|]] eqn:E; simpl; [| discriminate].
  intros [= <- _].
  apply first_valid_sound in E as (before & u & _ & _ & Hu & _).
  eapply answer_v4_valid; eauto.
Qed.

(** C3.  When the preferred IPv4 provider fails (the request is rejected or
    aborted at its timeout, the status is not 2xx, the body cannot be read or
    does not pass the pattern), [getCurrentIP] goes through the fallback
    providers other than the one already tried, in their fixed order, and
    returns the answer of the first one that validates, having contacted
    exactly the providers up to it; when none validates it throws
    "Unable to detect IP address" after contacting all of them; and an
    address it returns has always passed the pattern. *)
Theorem C3_fallback_iteration :
  forall (arg : option string) (w : World) (st : State),
    answer_v4 w (ipService_or_default arg) = None ->
    (forall before u after a,
        filter (fun x => negb (String.eqb x (ipService_or_default arg)))
               fallbacks = (before ++ u :: after)%list ->
        (forall x, In x before -> answer_v4 w x = None) ->
        answer_v4 w u = Some a ->
        getCurrentIP arg w st
        = (Ret a,
           extend st (map Get (ipService_or_default arg :: before ++ [u]))))
    /\ ((forall x, In x fallbacks ->
                   x <> ipService_or_default arg -> answer_v4 w x = None) ->
        getCurrentIP arg w st
        = (Throw "Unable to detect IP address",
           extend st
             (map Get
                (ipService_or_default arg
                 :: filter (fun x =>
                              negb (String.eqb x (ipService_or_default arg)))
                           fallbacks))))
    /\ (forall a st',
           getCurrentIP arg w st = (Ret a, st') -> ipv4Regex_test a = true).
Proof.
  intros arg w st Hpref. split; [| split].
  - intros before u after a Hsplit Hbefore Hu.
    rewrite getCurrentIP_first_valid. unfold candidates.
    cbn [first_valid]. rewrite Hpref, Hsplit.
    rewrite (@first_valid_found (answer_v4 w) before u after a Hbefore Hu).
    reflexivity.
  - intros Hall. rewrite getCurrentIP_first_valid. unfold candidates.
    cbn [first_valid]. rewrite Hpref.
    rewrite first_valid_none; [reflexivity |].
    intros x Hx. apply filter_In in Hx as [Hx Hne].
    apply Hall; [assumption |].
    apply negb_true_iff, String.eqb_neq in Hne. assumption.
  - intros a st'. apply getCurrentIP_validated.
Qed.

Lemma C3_fallback_iteration_witness :
  answer_v4 w_fallback (ipService_or_default None) = None
  /\ getCurrentIP None w_fallback st_first_run
     = (Ret "198.51.100.7",
        extend st_first_run
          [Get "https://api.ipify.org"; Get "https://ifconfig.me/ip";
           Get "https://icanhazip.com"]).
Proof.
  split; [reflexivity |].
  apply (proj1 (C3_fallback_iteration None w_fallback st_first_run eq_refl)
           ["https://ifconfig.me/ip"] "https://icanhazip.com"
           ["https://checkip.amazonaws.com"] "198.51.100.7").
  - reflexivity.
  - intros x [<- | []]. reflexivity.
  - reflexivity.
Defined.

(** The providers contacted by a call of [getCurrentIP], and its result. *)
Lemma getCurrentIP_contacted (arg : option string) (w : World) (st : State) :
  gets (since st (snd (getCurrentIP arg w st)))
  = fst (first_valid (answer_v4 w) (candidates (ipService_or_default arg)))
  /\ fst (getCurrentIP arg w st)
     = resolved_or_unavailable
         (snd (first_valid (answer_v4 w)
                 (candidates (ipService_or_default arg)))).
Proof.
  rewrite getCurrentIP_first_valid.
  destruct (first_valid _ _) as [c r]; simpl.
  now rewrite since_extend, gets_map_Get.
Qed.

Lemma answer_v4_of_body (w : World) (u : string) (n : N) (b : string) :
  http_get w u = Resolved (mkResponse n (Ret b)) ->
  ok (mkResponse n (Ret b)) = true ->
  answer_v4 w u
  = if ipv4Regex_test (JS.trim b) then Some (JS.trim b) else None.
Proof. intros H Hok. unfold answer_v4. now rewrite H, Hok. Qed.

(** C4, as the code has it.  For every provider that a call of
    [getCurrentIP] contacts and that answers 2xx with a body [b]: the call
    returns [b] trimmed if and only if the trimmed body matches the pattern,
    that is, consists of four groups of one to three decimal digits separated
    by dots (the value of a group is not checked against 255); when it does
    not match, the provider counts as failed: a further provider is
    contacted after it, or, when none is left, the call throws. *)
Theorem C4_returned_iff_matches_pattern :
  forall (arg : option string) (w : World) (st : State)
         (u : string) (n : N) (b : string),
    In u (gets (since st (snd (getCurrentIP arg w st)))) ->
    http_get w u = Resolved (mkResponse n (Ret b)) ->
    ok (mkResponse n (Ret b)) = true ->
    (fst (getCurrentIP arg w st) = Ret (JS.trim b)
     <-> dotted_quad (JS.trim b))
    /\ (~ dotted_quad (JS.trim b) ->
        (exists c1 v c2,
            gets (since st (snd (getCurrentIP arg w st)))
            = (c1 ++ u :: v :: c2)%list)
        \/ fst (getCurrentIP arg w st) = Throw "Unable to detect IP address").
Proof.
  intros arg w st u n b Hin Hget Hok.
  pose proof (answer_v4_of_body w u n b Hget Hok) as Hans.
  destruct (getCurrentIP_contacted arg w st) as [Hc Hr].
  rewrite Hc in *. rewrite Hr.
  destruct (first_valid _ _) as [c r] eqn:E. cbn [fst snd] in Hin |- *.
  rewrite <- ipv4Regex_dotted_quad. split.
  - split.
    + destruct r as [a|]; simpl; [| discriminate].
      intros [= ->].
      apply first_valid_sound in E as (_ & v & _ & _ & Hv & _).
      eapply answer_v4_valid; eauto.
    + intros Hm. rewrite Hm in Hans.
      destruct r as [a|].
      * apply first_valid_sound in E as (before & v & -> & Hb & Hv & _).
        apply in_app_or in Hin as [Hin | [<- | []]].
        -- rewrite (Hb u Hin) in Hans. discriminate.
        -- simpl. congruence.
      * apply first_valid_exhausted in E as [-> Hall].
        rewrite (Hall u Hin) in Hans. discriminate.
  - intros Hm. apply not_true_is_false in Hm. rewrite Hm in Hans.
    destruct r as [a|]; [| now right]. left.
    apply first_valid_sound in E as (before & v & -> & Hb & Hv & _).
    apply in_app_or in Hin as [Hin | [<- | []]]; [| congruence].
    apply in_split in Hin as (c1 & c2 & ->).
    destruct c2 as [|x c2].
    + exists c1, v, []. now rewrite <- app_assoc.
    + exists c1, x, (c2 ++ [v])%list. now rewrite <- app_assoc.
Qed.

Lemma C4_returned_iff_matches_pattern_witness :
  (In "https://icanhazip.com"
      (gets (since st_first_run
               (snd (getCurrentIP None w_fallback st_first_run))))
   /\ http_get w_fallback "https://icanhazip.com"
      = Resolved (mkResponse 200 (Ret ("198.51.100.7" ++ String "010" "")))
   /\ ok (mkResponse 200 (Ret ("198.51.100.7" ++ String "010" ""))) = true)
  /\ (fst (getCurrentIP None w_fallback st_first_run) = Ret "198.51.100.7"
      <-> dotted_quad "198.51.100.7").
Proof.
  assert (Hin : In "https://icanhazip.com"
                   (gets (since st_first_run
                      (snd (getCurrentIP None w_fallback st_first_run))))).
  { vm_compute. auto. }
  split; [repeat split; [exact Hin] |].
  exact (proj1 (C4_returned_iff_matches_pattern None w_fallback st_first_run
                  "https://icanhazip.com" 200
                  ("198.51.100.7" ++ String "010" "")
                  Hin eq_refl eq_refl)).
Defined.

(** C4 as stated fails: a provider answering "999.999.999.999" is believed,
    although no part of it is an octet in 0..255. *)
Lemma C4_counterexample :
  four_octets "999.999.999.999" = false
  /\ fst (getCurrentIP None w_out_of_range st_first_run)
     = Ret "999.999.999.999".
Proof. split; reflexivity. Qed.

Example four_octets_accepts : four_octets "203.0.113.5" = true.
Proof. reflexivity. Qed.

Example four_octets_rejects_256 : four_octets "256.0.0.1" = false.
Proof. reflexivity. Qed.

(** ** The IPv6 resolver *)

(** [getCurrentIPv6] asks its one provider and gives its [answer_v6]. *)
Lemma getCurrentIPv6_answer (arg : option string) (w : World) (st : State) :
  getCurrentIPv6 arg w st
  = (Ret (answer_v6 w (ipService6_or_default arg)),
     extend st [Get (ipService6_or_default arg)]).
Proof.
  unfold getCurrentIPv6, fetch_get, answer_v6.
  run.
  destruct (http_get w (ipService6_or_default arg)) as [m|res];
    [reflexivity |].
  destruct (ok res); simpl; [| reflexivity].
  destruct (payload res) as [body|m]; simpl; [| reflexivity].
  destruct (JS.includes ":" (JS.trim body)); reflexivity.
Qed.

Lemma answer_v6_has_colon (w : World) (u a : string) :
  answer_v6 w u = Some a -> JS.includes ":" a = true.
Proof.
  unfold answer_v6. destruct (http_get w u) as [m|res]; [discriminate |].
  destruct (ok res); [| discriminate].
  destruct (payload res) as [body|m]; [| discriminate].
  destruct (JS.includes ":" (JS.trim body)) eqn:E; [| discriminate].
  now intros [= <-].
Qed.

(** C7, as the code has it.  [getCurrentIPv6] contacts exactly one provider,
    the configured one or the default, and no fallback; it never throws: it
    returns the trimmed body when that provider answers 2xx with a body that
    contains a colon, and [null] in every other case. *)
Theorem C7_ipv6_single_provider_soft_failure :
  forall (arg : option string) (w : World) (st : State),
    fst (getCurrentIPv6 arg w st)
    = Ret (answer_v6 w (ipService6_or_default arg))
    /\ since st (snd (getCurrentIPv6 arg w st))
       = [Get (ipService6_or_default arg)]
    /\ (forall a, fst (getCurrentIPv6 arg w st) = Ret (Some a) ->
                  JS.includes ":" a = true)
    /\ (forall msg, fst (getCurrentIPv6 arg w st) <> Throw msg).
Proof.
  intros arg w st. rewrite getCurrentIPv6_answer. cbn [fst snd].
  rewrite since_extend. repeat split.
  - intros a [= H]. eapply answer_v6_has_colon; eauto.
  - discriminate.
Qed.

(** C7 as stated fails: with the default provider unreachable and every
    other endpoint ready to answer, the IPv4 resolver moves on to a fallback
    and succeeds, while the IPv6 resolver gives up after its one request. *)
Lemma C7_counterexample :
  getCurrentIP None w_default_v4_down st_first_run
  = (Ret "198.51.100.7",
     extend st_first_run
       [Get "https://api.ipify.org"; Get "https://ifconfig.me/ip"])
  /\ getCurrentIPv6 None w_default_v6_down st_first_run
     = (Ret None, extend st_first_run [Get "https://api6.ipify.org"])
  /\ (forall u, u <> default_ipService6 ->
                answer_v6 w_default_v6_down u = Some "2001:db8::1").
Proof.
  split; [reflexivity | split; [reflexivity |]].
  intros u Hu. unfold answer_v6, w_default_v6_down, all_but; simpl.
  apply String.eqb_neq in Hu. now rewrite Hu.
Qed.

(** ** One single-shot tick *)

Lemma or_null_getCurrentIP (arg : option string) (w : World) (st : State) :
  or_null (getCurrentIP arg) w st
  = (Ret (snd (resolve_v4 w arg)),
     extend st (map Get (fst (resolve_v4 w arg)))).
Proof.
  unfold or_null, resolve_v4, catch, bind.
  rewrite getCurrentIP_first_valid.
  destruct (first_valid _ _) as [c [a|]]; reflexivity.
Qed.

Ltac same_state :=
  unfold extend; simpl; rewrite <- ?app_assoc; simpl; reflexivity.

(** What a single-shot tick does once the configuration is known, by
    cases. *)
Lemma runUpdate_detect_cases (w : World) (st : State) :
  let cfg := config st in
  let currentIP := snd (resolve_v4 w (ipService cfg)) in
  let currentIPv6 := snd (resolve_v6 w cfg) in
  let lastIP := load (ipPath (files st)) in
  let probes := (map Get (fst (resolve_v4 w (ipService cfg)))
                 ++ map Get (fst (resolve_v6 w cfg)))%list in
  let body := mkBody (domain cfg) currentIP (ttl cfg) (JS.pick currentIPv6) in
  let post := PostUpdate body (apiToken cfg) in
  runUpdate_detect w st
  = if negb (JS.truthy currentIP) && negb (JS.truthy currentIPv6)
    then (Ret tt, extend st (probes ++ [Out OutNoIp]))
    else if negb (forceUpdate w) && JS.strict_eq lastIP currentIP
    then (Ret tt, extend st (probes ++ [Out (OutUnchanged currentIP)]))
    else
      match post_update_dns w body (apiToken cfg) with
      | Rejected msg => (Throw msg, extend st (probes ++ [post]))
      | Resolved res =>
          match payload res with
          | Throw msg => (Throw msg, extend st (probes ++ [post]))
          | Ret data =>
              if ok res && acknowledges data
              then (Ret tt,
                    mkState cfg
                      (mkStore (write w (ipPath (files st)) currentIP)
                               (ipv6Path (files st)))
                      (trace st
                       ++ probes
                       ++ [post; Save currentIP;
                           Out (OutUpdated (domain cfg) currentIP lastIP)]))
              else (Ret tt,
                    extend st
                      (probes
                       ++ [post;
                           Out (OutError
                                  (JS.or_else (error data) (details data)))]))
          end
      end.
Proof.
  intros cfg currentIP currentIPv6 lastIP probes body post.
  unfold runUpdate_detect.
  unfold bind at 1. unfold ask at 1.
  unfold bind at 1. unfold get_config at 1.
  unfold bind at 1. rewrite or_null_getCurrentIP.
  fold cfg. fold currentIP.
  unfold bind at 1.
  assert (H6 : (if useIPv6 cfg
                then catch (getCurrentIPv6 (ipv6Service cfg))
                           (fun _ => ret None)
                else ret None) w
                 (extend st (map Get (fst (resolve_v4 w (ipService cfg)))))
               = (Ret currentIPv6, extend st probes)).
  { unfold currentIPv6, probes, resolve_v6.
    destruct (useIPv6 cfg); cbn [fst snd map].
    - unfold catch. rewrite getCurrentIPv6_answer.
      now rewrite extend_extend.
    - unfold ret. now rewrite app_nil_r. }
  rewrite H6. clear H6.
  destruct (negb (JS.truthy currentIP) && negb (JS.truthy currentIPv6)).
  { unfold emit. same_state. }
  unfold bind at 1. unfold loadLastIP. run. fold lastIP.
  destruct (negb (forceUpdate w) && JS.strict_eq lastIP currentIP).
  { same_state. }
  unfold fetch_update_dns. run. fold cfg. fold body.
  destruct (post_update_dns w body (apiToken cfg)) as [msg|res]; simpl.
  { same_state. }
  destruct (payload res) as [data|msg]; simpl.
  2: { same_state. }
  destruct (ok res && acknowledges data); simpl.
  - unfold saveCurrentIP. run. rewrite <- !app_assoc. reflexivity.
  - same_state.
Qed.

Lemma since_mk (st : State) (c : Config) (f : Store) (evs : list Event) :
  since st (mkState c f (trace st ++ evs)) = evs.
Proof.
  unfold since; simpl.
  rewrite skipn_app, skipn_all, Nat.sub_diag. reflexivity.
Qed.

Lemma strict_eq_true (a b : option string) :
  JS.strict_eq a b = true <-> a = b.
Proof.
  destruct a as [x|], b as [y|]; simpl; try (split; congruence).
  rewrite String.eqb_eq. split; congruence.
Qed.

Lemma validated_truthy (a : string) :
  ipv4Regex_test a = true -> JS.truthy (Some a) = true.
Proof. destruct a; [discriminate | reflexivity]. Qed.

Lemma getCurrentIP_resolved (arg : option string) (w : World)
  (st st1 : State) (a : string) :
  getCurrentIP arg w st = (Ret a, st1) -> snd (resolve_v4 w arg) = Some a.
Proof.
  rewrite getCurrentIP_first_valid. unfold resolve_v4.
  destruct (first_valid _ _) as [c [b|]]; simpl; [| discriminate].
  now intros [= -> _].
Qed.

Lemma getCurrentIP_unresolved (arg : option string) (w : World) (st : State)
  (msg : string) :
  fst (getCurrentIP arg w st) = Throw msg -> snd (resolve_v4 w arg) = None.
Proof.
  rewrite getCurrentIP_first_valid. unfold resolve_v4.
  destruct (first_valid _ _) as [c [b|]]; simpl; [discriminate | reflexivity].
Qed.

Lemma runUpdate_configured (w : World) (st : State) :
  JS.truthy (apiToken (config st)) = true ->
  runUpdate w st = runUpdate_detect w st.
Proof. intros H. unfold runUpdate. run. now rewrite H. Qed.

Lemma posts_probes (a b : list string) (tail : list Event) :
  posts ((map Get a ++ map Get b) ++ tail) = posts tail.
Proof. now rewrite !posts_app, !posts_map_Get. Qed.

Lemma outs_probes (a b : list string) (tail : list Event) :
  outs ((map Get a ++ map Get b) ++ tail) = outs tail.
Proof. now rewrite !outs_app, !outs_map_Get. Qed.

Lemma saves_probes (a b : list string) (tail : list Event) :
  saves ((map Get a ++ map Get b) ++ tail) = saves tail.
Proof. now rewrite !saves_app, !saves_map_Get. Qed.

(** The requests and the report of a single-shot tick in which the IPv4
    address was resolved. *)
Lemma runUpdate_resolved (w : World) (st : State) (a : string) :
  JS.truthy (apiToken (config st)) = true ->
  snd (resolve_v4 w (ipService (config st))) = Some a ->
  ipv4Regex_test a = true ->
  let evs := since st (snd (runUpdate w st)) in
  if negb (forceUpdate w) && JS.strict_eq (load (ipPath (files st))) (Some a)
  then posts evs = [] /\ outs evs = [OutUnchanged (Some a)]
  else posts evs
       = [mkBody (domain (config st)) (Some a) (ttl (config st))
                 (JS.pick (snd (resolve_v6 w (config st))))]
       /\ reported_unchanged evs = false.
Proof.
  intros Htok Hres Hvalid evs. subst evs.
  rewrite (runUpdate_configured w st Htok), runUpdate_detect_cases.
  rewrite Hres, (validated_truthy a Hvalid). cbn [negb andb].
  destruct (negb (forceUpdate w)
            && JS.strict_eq (load (ipPath (files st))) (Some a)).
  { cbn [snd]. rewrite since_extend, posts_probes, outs_probes. auto. }
  destruct (post_update_dns w _ _) as [msg|res]; cbn [snd].
  { rewrite since_extend. unfold reported_unchanged.
    rewrite posts_probes, outs_probes. auto. }
  destruct (payload res) as [data|msg]; cbn [snd].
  2: { rewrite since_extend. unfold reported_unchanged.
       rewrite posts_probes, outs_probes. auto. }
  destruct (ok res && acknowledges data); cbn [snd].
  - rewrite since_mk. unfold reported_unchanged.
    rewrite posts_probes, outs_probes. auto.
  - rewrite since_extend. unfold reported_unchanged.
    rewrite posts_probes, outs_probes. auto.
Qed.




(** A single-shot tick depends on the files only through [last_ip.txt]. *)
Lemma runUpdate_detect_ignores_ipv6Path (w : World) (st : State) (f6 : File) :
  since (with_ipv6Path st f6) (snd (runUpdate_detect w (with_ipv6Path st f6)))
  = since st (snd (runUpdate_detect w st))
  /\ fst (runUpdate_detect w (with_ipv6Path st f6))
     = fst (runUpdate_detect w st).
Proof.
  rewrite !runUpdate_detect_cases. cbv zeta.
  change (config (with_ipv6Path st f6)) with (config st).
  change (ipPath (files (with_ipv6Path st f6))) with (ipPath (files st)).
  change (trace (with_ipv6Path st f6)) with (trace st).
  destruct (negb (JS.truthy _) && negb (JS.truthy _)).
  { cbn [fst snd]. now rewrite !since_extend. }
  destruct (negb (forceUpdate w) && _).
  { cbn [fst snd]. now rewrite !since_extend. }
  destruct (post_update_dns w _ _) as [msg|res].
  { cbn [fst snd]. now rewrite !since_extend. }
  destruct (payload res) as [data|msg].
  2: { cbn [fst snd]. now rewrite !since_extend. }
  destruct (ok res && acknowledges data); cbn [fst snd].
  - now rewrite (since_mk st), (since_mk (with_ipv6Path st f6)).
  - now rewrite !since_extend.
Qed.

(** C6, as the code has it.  A single-shot tick of a configured client
    compares only the IPv4 address with the stored state: [last_ipv6.txt] is
    never consulted.  When at least one address was resolved and [--force]
    was given or the stored IPv4 address is not the resolved one, exactly one
    update request is sent, carrying the resolved IPv4 address (or [null])
    and, when IPv6 is enabled and was resolved, the IPv6 address; when
    [--force] was not given and the stored IPv4 address is the resolved one,
    no request is sent, whatever the IPv6 address is. *)
Theorem C6_single_request_on_ipv4_decision :
  forall (w : World) (st : State),
    JS.truthy (apiToken (config st)) = true ->
    (forall f6,
        since (with_ipv6Path st f6) (snd (runUpdate w (with_ipv6Path st f6)))
        = since st (snd (runUpdate w st)))
    /\ (JS.truthy (snd (resolve_v4 w (ipService (config st))))
        || JS.truthy (snd (resolve_v6 w (config st))) = true ->
        forceUpdate w
        || negb (JS.strict_eq (load (ipPath (files st)))
                              (snd (resolve_v4 w (ipService (config st)))))
        = true ->
        posts (since st (snd (runUpdate w st)))
        = [mkBody (domain (config st))
                  (snd (resolve_v4 w (ipService (config st))))
                  (ttl (config st))
                  (JS.pick (snd (resolve_v6 w (config st))))])
    /\ (forceUpdate w = false ->
        JS.strict_eq (load (ipPath (files st)))
                     (snd (resolve_v4 w (ipService (config st)))) = true ->
        posts (since st (snd (runUpdate w st))) = []).
Proof.
  intros w st Htok. split; [| split].
  - intros f6.
    rewrite (runUpdate_configured w st Htok).
    rewrite (runUpdate_configured w (with_ipv6Path st f6) Htok).
    apply runUpdate_detect_ignores_ipv6Path.
  - intros Hsome Htrig.
    rewrite (runUpdate_configured w st Htok), runUpdate_detect_cases.
    cbv zeta.
    rewrite <- negb_orb, Hsome. cbn [negb].
    replace (negb (forceUpdate w) && JS.strict_eq _ _) with false.
    2: { destruct (forceUpdate w), (JS.strict_eq _ _); simpl in *; congruence. }
    destruct (post_update_dns w _ _) as [msg|res]; cbn [snd].
    { now rewrite since_extend, posts_probes. }
    destruct (payload res) as [data|msg]; cbn [snd].
    2: { now rewrite since_extend, posts_probes. }
    destruct (ok res && acknowledges data); cbn [snd].
    + now rewrite since_mk, posts_probes.
    + now rewrite since_extend, posts_probes.
  - intros Hf Heq.
    rewrite (runUpdate_configured w st Htok), runUpdate_detect_cases.
    cbv zeta. rewrite Hf, Heq. cbn [negb andb].
    destruct (negb (JS.truthy _) && negb (JS.truthy _)); cbn [snd];
      now rewrite since_extend, posts_probes.
Qed.

Lemma C6_single_request_on_ipv4_decision_witness :
  JS.truthy (apiToken (config st_first_run)) = true
  /\ posts (since st_first_run (snd (runUpdate w_same_address st_first_run)))
     = [mkBody (Some "home.apertodns.com") (Some "203.0.113.5")
               (Some 300%N) None].
Proof.
  split; [reflexivity |].
  apply (proj1 (proj2 (C6_single_request_on_ipv4_decision
                         w_same_address st_first_run eq_refl)));
    reflexivity.
Defined.

(** C6 as stated fails: the IPv6 address differs from the stored one, so the
    Reconciler of the specification decides [Changed] for that family, and
    yet no request is sent, the IPv4 address being the stored one. *)
Lemma C6_counterexample :
  fst (getCurrentIPv6 (ipv6Service (config st_dual_stack)) w_ipv6_changed
         st_dual_stack)
  = Ret (Some "2001:db8::2")
  /\ decide (forceUpdate w_ipv6_changed)
            (load (ipv6Path (files st_dual_stack))) (Some "2001:db8::2")
     = Changed
  /\ triggers Changed = true
  /\ posts (since st_dual_stack (snd (runUpdate w_ipv6_changed st_dual_stack)))
     = [].
Proof. repeat split; reflexivity. Qed.

(** The whole run of a first tick in which only the IPv6 address was
    resolved: [null] is compared with [null], and the tick reports
    "unchanged". *)
Example runUpdate_ipv6_only_first_run :
  since st_dual_stack_first_run
    (snd (runUpdate w_ipv6_only st_dual_stack_first_run))
  = [Get "https://api.ipify.org"; Get "https://ifconfig.me/ip";
     Get "https://icanhazip.com"; Get "https://checkip.amazonaws.com";
     Get "https://api6.ipify.org"; Out (OutUnchanged None)].
Proof. reflexivity. Qed.

(** The spec's first-run and force examples. *)
Example runUpdate_first_run :
  outs (since st_first_run (snd (runUpdate w_same_address st_first_run)))
  = [OutUpdated (Some "home.apertodns.com") (Some "203.0.113.5") None]
  /\ files (snd (runUpdate w_same_address st_first_run))
     = mkStore (Content "203.0.113.5") Missing.
Proof. split; reflexivity. Qed.

(** ** One daemon tick *)

(** What a daemon tick does, by cases. *)
Lemma update_cases (w : World) (st : State) :
  let cfg := config st in
  let arg := JS.or_else (ipService cfg) (Some default_ipService) in
  let currentIP := snd (resolve_v4 w arg) in
  let probes := (Clock :: map Get (fst (resolve_v4 w arg)))%list in
  let lastIP := load (ipPath (files st)) in
  let ts := timestamp_of (now w) in
  let body :=
    mkBody (domain cfg) currentIP (Some (ttl_or_300 (ttl cfg))) None in
  let post := PostUpdate body (apiToken cfg) in
  let changed := Out (LogChanged ts lastIP currentIP) in
  update w st
  = if JS.strict_eq lastIP currentIP
    then (Ret tt, extend st (probes ++ [Out (LogUnchanged ts currentIP)]))
    else if JS.truthy (apiToken cfg) && JS.truthy (domain cfg)
    then
      match post_update_dns w body (apiToken cfg) with
      | Rejected msg =>
          (Ret tt,
           extend st (probes ++ [changed; post; Out (LogError ts msg)]))
      | Resolved res =>
          if ok res
          then (Ret tt,
                mkState cfg
                  (mkStore (write w (ipPath (files st)) currentIP)
                           (ipv6Path (files st)))
                  (trace st
                   ++ probes
                   ++ [changed; post; Save currentIP; Out (LogUpdated ts)]))
          else
            match payload res with
            | Ret data =>
                (Ret tt,
                 extend st
                   (probes
                    ++ [changed; post;
                        Out (LogRejected ts
                               (JS.or_else (error data) (details data)))]))
            | Throw msg =>
                (Ret tt,
                 extend st (probes ++ [changed; post; Out (LogError ts msg)]))
            end
      end
    else (Ret tt, extend st (probes ++ [changed])).
Proof.
  intros cfg arg currentIP probes lastIP ts body post changed.
  unfold update.
  unfold bind at 1. unfold emit at 1.
  change (mkState (config st) (files st) (trace st ++ [Clock]))
    with (extend st [Clock]).
  unfold bind at 1. unfold ask at 1. fold ts.
  unfold catch at 1. unfold update_body.
  unfold bind at 1. unfold get_config at 1.
  change (config (extend st [Clock])) with cfg.
  unfold bind at 1. rewrite or_null_getCurrentIP. fold arg. fold currentIP.
  rewrite extend_extend.
  change ([Clock] ++ map Get (fst (resolve_v4 w arg)))%list with probes.
  unfold bind at 1. unfold loadLastIP. run. fold lastIP.
  destruct (JS.strict_eq lastIP currentIP).
  { same_state. }
  simpl.
  destruct (JS.truthy (apiToken cfg) && JS.truthy (domain cfg)).
  2: { same_state. }
  unfold fetch_update_dns. run. fold cfg. fold body.
  destruct (post_update_dns w body (apiToken cfg)) as [msg|res]; simpl.
  { same_state. }
  destruct (ok res); simpl.
  - unfold saveCurrentIP. run. rewrite <- !app_assoc. reflexivity.
  - destruct (payload res) as [data|msg]; simpl; same_state.
Qed.

(** A daemon tick never rejects. *)
Lemma update_returns (w : World) (st : State) : fst (update w st) = Ret tt.
Proof.
  rewrite update_cases. cbv zeta.
  destruct (JS.strict_eq _ _); [reflexivity |].
  destruct (JS.truthy _ && JS.truthy _); [| reflexivity].
  destruct (post_update_dns w _ _) as [msg|res]; [reflexivity |].
  destruct (ok res); [reflexivity |].
  destruct (payload res); reflexivity.
Qed.




Lemma outs_clock_probes (l : list string) (tail : list Event) :
  outs ((Clock :: map Get l) ++ tail) = outs tail.
Proof.
  rewrite outs_app. change (outs (Clock :: map Get l))
    with (outs (map Get l)). now rewrite outs_map_Get.
Qed.


Lemma since_trace (st st' : State) (evs : list Event) :
  trace st' = (trace st ++ evs)%list -> since st st' = evs.
Proof.
  intros H. unfold since. rewrite H.
  rewrite skipn_app, skipn_all, Nat.sub_diag. reflexivity.
Qed.


(** The daemon is its first tick followed by the timer's ticks. *)
Lemma runDaemonMode_ticks (w0 : World) (ws : list World) (st : State) :
  runDaemonMode w0 ws st
  = interval_ticks ws
      (snd (update w0 (extend st [Out (OutDaemonStart (daemonInterval w0))]))).
Proof.
  unfold runDaemonMode, bind, emit.
  change (mkState (config st) (files st)
            (trace st ++ [Out (OutDaemonStart (daemonInterval w0))]))
    with (extend st [Out (OutDaemonStart (daemonInterval w0))]).
  pose proof (update_returns w0
                (extend st [Out (OutDaemonStart (daemonInterval w0))])) as H.
  destruct (update w0 _) as [[[]|msg] st1]; simpl in *;
    [reflexivity | discriminate].
Qed.








(** ** Credentials *)

Lemma fetchRemoteConfig_trace (token : string) (w : World) (st : State) :
  exists r,
    fetchRemoteConfig token w st = (Ret r, extend st [PostCliConfig token]).
Proof.
  unfold fetchRemoteConfig. run.
  destruct (post_cli_config w token) as [m|res]; [eauto |].
  destruct (payload res) as [data|m]; simpl; [| eauto].
  destruct (reply_config data) as [c|]; [| eauto].
  destruct (negb (ok res) || negb (JS.truthy (id c))); eauto.
Qed.

Lemma runUpdate_detect_trace (w : World) (st : State) :
  exists evs, trace (snd (runUpdate_detect w st)) = (trace st ++ evs)%list.
Proof.
  rewrite runUpdate_detect_cases. cbv zeta.
  destruct (negb (JS.truthy _) && negb (JS.truthy _)); [eexists; reflexivity |].
  destruct (negb (forceUpdate w) && _); [eexists; reflexivity |].
  destruct (post_update_dns w _ _) as [m|res]; [eexists; reflexivity |].
  destruct (payload res) as [data|m]; [| eexists; reflexivity].
  destruct (ok res && acknowledges data); eexists; reflexivity.
Qed.

(** Without a stored token, a single-shot tick starts by prompting. *)
Lemma runUpdate_prompts (w : World) (st : State) :
  JS.truthy (apiToken (config st)) = false ->
  exists rest,
    since st (snd (runUpdate w st)) = Prompt "Token API: " :: rest.
Proof.
  intros H. unfold runUpdate.
  unfold bind at 1. unfold get_config at 1. rewrite H.
  unfold bind at 1. unfold promptInput. run.
  change (mkState (config st) (files st) (trace st ++ [Prompt "Token API: "]))
    with (extend st [Prompt "Token API: "]).
  destruct (fetchRemoteConfig_trace (JS.trim (stdin_answer w)) w
              (extend st [Prompt "Token API: "])) as [r ->].
  rewrite extend_extend.
  destruct r as [rc|]; simpl.
  - match goal with
    | |- context [runUpdate_detect w ?s] =>
        destruct (runUpdate_detect_trace w s) as [evs He]
    end.
    eexists. apply since_trace. rewrite He. simpl.
    rewrite <- app_assoc. reflexivity.
  - eexists. apply since_trace. simpl. rewrite <- app_assoc. reflexivity.
Qed.

Lemma bearers_probes (l : list string) (tail : list Event) :
  bearers ((Clock :: map Get l) ++ tail) = bearers tail.
Proof.
  unfold bearers. rewrite flat_map_app. simpl.
  induction l as [|u l IH]; simpl; auto.
Qed.

Lemma prompts_clock_probes (l : list string) (tail : list Event) :
  prompts ((Clock :: map Get l) ++ tail) = prompts tail.
Proof.
  rewrite prompts_app. change (prompts (Clock :: map Get l))
    with (prompts (map Get l)). now rewrite prompts_map_Get.
Qed.

Lemma posts_clock_probes (l : list string) (tail : list Event) :
  posts ((Clock :: map Get l) ++ tail) = posts tail.
Proof.
  rewrite posts_app. change (posts (Clock :: map Get l))
    with (posts (map Get l)). now rewrite posts_map_Get.
Qed.

(** C9, as the code has it.  [getAuthToken] takes the credential from, in
    this order, the [--api-key] argument, the environment variable
    [APERTODNS_API_KEY], the stored [jwtToken], the stored [apiToken], and
    prompts only when none of them is set.  A daemon tick does not use it:
    it never prompts, authenticates its request with the stored [apiToken]
    only, and when that token is not set it sends no request and reports no
    error.  A single-shot tick without a stored [apiToken] starts by
    prompting for one. *)
Theorem C9_credential_order_and_daemon_without_prompt :
  (forall (w : World) (st : State),
      (forall k, JS.pick (useApiKey w) = Some k ->
                 getAuthToken w st = (Ret k, st))
      /\ (JS.pick (useApiKey w) = None ->
          forall k, JS.pick (env_APERTODNS_API_KEY w) = Some k ->
                    getAuthToken w st = (Ret k, st))
      /\ (JS.pick (useApiKey w) = None ->
          JS.pick (env_APERTODNS_API_KEY w) = None ->
          forall k, JS.pick (jwtToken (config st)) = Some k ->
                    getAuthToken w st = (Ret k, st))
      /\ (JS.pick (useApiKey w) = None ->
          JS.pick (env_APERTODNS_API_KEY w) = None ->
          JS.pick (jwtToken (config st)) = None ->
          forall k, JS.pick (apiToken (config st)) = Some k ->
                    getAuthToken w st = (Ret k, st))
      /\ (JS.pick (useApiKey w) = None ->
          JS.pick (env_APERTODNS_API_KEY w) = None ->
          JS.pick (jwtToken (config st)) = None ->
          JS.pick (apiToken (config st)) = None ->
          getAuthToken w st
          = (Ret (JS.trim (stdin_answer w)),
             extend st [Prompt "Token JWT o API Key: "])))
  /\ (forall (w : World) (st : State),
         prompts (since st (snd (update w st))) = []
         /\ (forall t, In t (bearers (since st (snd (update w st)))) ->
                       t = apiToken (config st))
         /\ (JS.truthy (apiToken (config st)) = false ->
             fst (update w st) = Ret tt
             /\ posts (since st (snd (update w st))) = []
             /\ existsb is_error (outs (since st (snd (update w st))))
                = false))
  /\ (forall (w : World) (st : State),
         JS.truthy (apiToken (config st)) = false ->
         exists rest,
           since st (snd (runUpdate w st)) = Prompt "Token API: " :: rest).
Proof.
  split; [| split].
  - intros w st. unfold getAuthToken, promptInput. run.
    repeat split.
    + intros k ->. reflexivity.
    + intros -> k ->. reflexivity.
    + intros -> -> k ->. reflexivity.
    + intros -> -> -> k ->. reflexivity.
    + intros -> -> -> ->. reflexivity.
  - intros w st. rewrite update_cases. cbv zeta. split; [| split].
    + destruct (JS.strict_eq _ _);
        [| destruct (JS.truthy _ && JS.truthy _);
           [ destruct (post_update_dns w _ _) as [msg|res];
             [| destruct (ok res); [| destruct (payload res) as [data|msg]]]
           |]];
        cbn [snd]; rewrite ?since_extend, ?since_mk, prompts_clock_probes;
        reflexivity.
    + intros t.
      destruct (JS.strict_eq _ _);
        [| destruct (JS.truthy _ && JS.truthy _);
           [ destruct (post_update_dns w _ _) as [msg|res];
             [| destruct (ok res); [| destruct (payload res) as [data|msg]]]
           |]];
        cbn [snd]; rewrite ?since_extend, ?since_mk, bearers_probes; simpl;
        intuition congruence.
    + intros Htok. rewrite Htok. cbn [andb].
      destruct (JS.strict_eq _ _); cbn [fst snd];
        rewrite since_extend, posts_clock_probes, outs_clock_probes;
        auto.
  - exact runUpdate_prompts.
Qed.

Lemma C9_credential_order_and_daemon_without_prompt_witness :
  (JS.pick (useApiKey w_env_key) = None
   /\ JS.pick (env_APERTODNS_API_KEY w_env_key) = Some "ak_live_key")
  /\ getAuthToken w_env_key st_stored_10_0_0_1
     = (Ret "ak_live_key", st_stored_10_0_0_1).
Proof.
  split; [split; reflexivity |].
  exact (proj1 (proj2 (proj1 C9_credential_order_and_daemon_without_prompt
                         w_env_key st_stored_10_0_0_1))
           eq_refl "ak_live_key" eq_refl).
Defined.

(** C9 as stated fails.  A daemon tick of a client without any credential
    returns normally and reports no error: it prints the change and sends
    nothing.  And a credential given by the environment variable is not
    used by the daemon: nothing is sent either. *)
Lemma C9_counterexample :
  (JS.pick (useApiKey w_update_unreachable) = None
   /\ JS.pick (env_APERTODNS_API_KEY w_update_unreachable) = None
   /\ JS.pick (jwtToken (config st_no_credential)) = None
   /\ JS.pick (apiToken (config st_no_credential)) = None)
  /\ update w_update_unreachable st_no_credential
     = (Ret tt,
        extend st_no_credential
          [Clock; Get "https://api.ipify.org";
           Out (LogChanged "2024-05-01 10:20:30" (Some "10.0.0.1")
                  (Some "10.0.0.2"))])
  /\ JS.pick (env_APERTODNS_API_KEY w_env_key) = Some "ak_live_key"
  /\ posts (since st_no_credential (snd (update w_env_key st_no_credential)))
     = [].
Proof. repeat split; reflexivity. Qed.

(** ** The stored address after a failed dispatch *)

(** A single-shot tick whose dispatch fails leaves the files as they were and
    does not call [saveCurrentIP]. *)
Lemma runUpdate_failure_keeps_store (w : World) (st : State) :
  JS.truthy (apiToken (config st)) = true ->
  (forall b t, single_shot_failure (post_update_dns w b t)) ->
  files (snd (runUpdate w st)) = files st
  /\ saves (since st (snd (runUpdate w st))) = [].
Proof.
  intros Htok Hfail.
  rewrite (runUpdate_configured w st Htok), runUpdate_detect_cases. cbv zeta.
  destruct (negb (JS.truthy _) && negb (JS.truthy _)).
  { cbn [snd]. now rewrite since_extend, saves_probes. }
  destruct (negb (forceUpdate w) && _).
  { cbn [snd]. now rewrite since_extend, saves_probes. }
  match goal with
  | |- context [post_update_dns w ?b ?t] => specialize (Hfail b t)
  end.
  destruct (post_update_dns w _ _) as [m|res]; cbn [snd].
  { now rewrite since_extend, saves_probes. }
  simpl in Hfail. destruct (payload res) as [data|m]; cbn [snd].
  - rewrite Hfail. cbn [snd]. now rewrite since_extend, saves_probes.
  - now rewrite since_extend, saves_probes.
Qed.

(** A daemon tick whose dispatch is rejected or answered with a status that
    is not 2xx leaves the files as they were; the next tick, resolving the
    same address, prints the change again and sends the request again. *)
Lemma update_failure_retried (w2 w3 : World) (st : State) :
  let arg := JS.or_else (ipService (config st)) (Some default_ipService) in
  JS.truthy (apiToken (config st)) && JS.truthy (domain (config st)) = true ->
  JS.strict_eq (load (ipPath (files st))) (snd (resolve_v4 w2 arg)) = false ->
  (forall b t, daemon_failure (post_update_dns w2 b t)) ->
  snd (resolve_v4 w3 arg) = snd (resolve_v4 w2 arg) ->
  files (snd (update w2 st)) = files st
  /\ posts (since (snd (update w2 st)) (snd (update w3 (snd (update w2 st)))))
     = [mkBody (domain (config st)) (snd (resolve_v4 w2 arg))
               (Some (ttl_or_300 (ttl (config st)))) None].
Proof.
  intros arg Hcfg Hchanged Hfail Hsame.
  assert (H2 : files (snd (update w2 st)) = files st
               /\ config (snd (update w2 st)) = config st).
  { rewrite update_cases. cbv zeta. fold arg. rewrite Hchanged, Hcfg.
    match goal with
    | |- context [post_update_dns w2 ?b ?t] => specialize (Hfail b t)
    end.
    destruct (post_update_dns w2 _ _) as [m|res]; [auto |].
    simpl in Hfail. rewrite Hfail.
    destruct (payload res); auto. }
  destruct H2 as [Hf Hc]. split; [assumption |].
  rewrite (update_cases w3). cbv zeta. rewrite Hf, Hc. fold arg.
  rewrite Hsame, Hchanged, Hcfg.
  destruct (post_update_dns w3 _ _) as [m|res]; cbn [snd].
  { now rewrite since_extend, posts_clock_probes. }
  destruct (ok res); cbn [snd].
  { now rewrite since_mk, posts_clock_probes. }
  destruct (payload res); cbn [snd];
    now rewrite since_extend, posts_clock_probes.
Qed.

(** C2, at the input where the code departs from it.  The stored address is
    10.0.0.1 and the providers report 10.0.0.2.  The update endpoint answers
    200 with a body that has an [error] and no [results].  The single-shot
    tick reports the error and keeps 10.0.0.1; the daemon tick stores
    10.0.0.2 and prints "DNS aggiornato", so that the next tick, which
    resolves the same address, prints "IP invariato" and sends nothing.  The
    same happens when the body of the 200 answer is not JSON at all. *)
Theorem C2_daemon_saves_unacknowledged_update :
  files (snd (runUpdate w_update_200_no_results st_stored_10_0_0_1))
  = mkStore (Content "10.0.0.1") Missing
  /\ outs (since st_stored_10_0_0_1
             (snd (runUpdate w_update_200_no_results st_stored_10_0_0_1)))
     = [OutError (Some "update refused")]
  /\ files (snd (update w_update_200_no_results st_stored_10_0_0_1))
     = mkStore (Content "10.0.0.2") Missing
  /\ outs (since st_stored_10_0_0_1
             (snd (update w_update_200_no_results st_stored_10_0_0_1)))
     = [LogChanged "2024-05-01 10:20:30" (Some "10.0.0.1") (Some "10.0.0.2");
        LogUpdated "2024-05-01 10:20:30"]
  /\ since (snd (update w_update_200_no_results st_stored_10_0_0_1))
       (snd (update w_update_200_no_results
               (snd (update w_update_200_no_results st_stored_10_0_0_1))))
     = [Clock; Get "https://api.ipify.org";
        Out (LogUnchanged "2024-05-01 10:20:30" (Some "10.0.0.2"))]
  /\ files (snd (update w_update_200_not_json st_stored_10_0_0_1))
     = mkStore (Content "10.0.0.2") Missing.
Proof. repeat split; reflexivity. Qed.

(** The resilience scenario: three ticks, the second of which cannot reach
    the update endpoint; the third sends the same request again. *)
Example resilience_scenario :
  posts (since (initial example_config (mkStore Missing Missing))
           (snd (runDaemonMode w_tick1 [w_update_unreachable; w_tick3]
                   (initial example_config (mkStore Missing Missing)))))
  = [mkBody (Some "home.apertodns.com") (Some "10.0.0.1") (Some 300%N) None;
     mkBody (Some "home.apertodns.com") (Some "10.0.0.2") (Some 300%N) None;
     mkBody (Some "home.apertodns.com") (Some "10.0.0.2") (Some 300%N) None]
  /\ files (snd (runDaemonMode w_tick1 [w_update_unreachable; w_tick3]
                   (initial example_config (mkStore Missing Missing))))
     = mkStore (Content "10.0.0.2") Missing.
Proof. split; reflexivity. Qed.

Example daemon_keeps_store_when_unreachable :
  files (snd (update w_update_unreachable st_stored_10_0_0_1))
  = mkStore (Content "10.0.0.1") Missing.
Proof. reflexivity. Qed.

Example daemon_keeps_store_on_500 :
  files (snd (update w_update_500 st_stored_10_0_0_1))
  = mkStore (Content "10.0.0.1") Missing
  /\ outs (since st_stored_10_0_0_1 (snd (update w_update_500 st_stored_10_0_0_1)))
     = [LogChanged "2024-05-01 10:20:30" (Some "10.0.0.1") (Some "10.0.0.2");
        LogRejected "2024-05-01 10:20:30" (Some "internal error")].
Proof. split; reflexivity. Qed.

(** ** The timing of the ticks *)

Lemma timer_delay_pos (ms : option Z) : (1 <= Scheduler.timer_delay ms)%Z.
Proof.
  unfold Scheduler.timer_delay. destruct ms as [d|]; [| lia].
  destruct ((1 <=? d)%Z && (d <=? 2147483647)%Z) eqn:E; [| lia].
  apply andb_true_iff in E as [E _]. lia.
Qed.

Lemma firings_no_overlap (armed p : Z) (durations : list Z) :
  forall n,
    Scheduler.no_overlap (Scheduler.firings armed p n durations) = true
    <-> Forall (fun d => (d <= p)%Z) (removelast durations).
Proof.
  induction durations as [|d ds IH]; intros n.
  - simpl. split; auto.
  - destruct ds as [|d' ds].
    + simpl. split; auto.
    + change (removelast (d :: d' :: ds)) with (d :: removelast (d' :: ds)).
      specialize (IH (n + 1)%Z).
      change (Scheduler.no_overlap
                (Scheduler.firings armed p n (d :: d' :: ds)))
        with ((armed + n * p + d <=? armed + (n + 1) * p)%Z
              && Scheduler.no_overlap
                   (Scheduler.firings armed p (n + 1) (d' :: ds))).
      rewrite andb_true_iff, IH, Z.leb_le. split.
      * intros [H1 H2]. constructor; [lia | assumption].
      * intros H. inversion H; subst. split; [lia | assumption].
Qed.

(** C5, as the code has it.  The first tick is awaited before the repeating
    timer is armed, and from then on the timer starts a tick every interval
    without looking at the previous one: the ticks of a run do not overlap
    if and only if every tick started by the timer, the last one apart,
    resolves within the interval. *)
Theorem C5_no_overlap_iff_ticks_within_interval :
  forall (interval : option Z) (t0 d0 : Z) (durations : list Z),
    Scheduler.no_overlap (Scheduler.timeline interval t0 d0 durations) = true
    <-> Forall (fun d => (d <= Scheduler.period interval)%Z)
               (removelast durations).
Proof.
  intros interval t0 d0 durations. unfold Scheduler.timeline.
  rewrite <- (firings_no_overlap (t0 + d0) (Scheduler.period interval)
                durations 1).
  destruct durations as [|d ds].
  - simpl. tauto.
  - change (Scheduler.no_overlap
              ((t0, (t0 + d0)%Z)
               :: Scheduler.firings (t0 + d0) (Scheduler.period interval) 1
                    (d :: ds)))
      with ((t0 + d0 <=? t0 + d0 + 1 * Scheduler.period interval)%Z
            && Scheduler.no_overlap
                 (Scheduler.firings (t0 + d0) (Scheduler.period interval) 1
                    (d :: ds))).
    pose proof (timer_delay_pos
                  (option_map (fun i => (i * 1000)%Z) interval)) as Hp.
    fold (Scheduler.period interval) in Hp.
    replace (t0 + d0 <=? t0 + d0 + 1 * Scheduler.period interval)%Z
      with true by (symmetry; apply Z.leb_le; lia).
    simpl. tauto.
Qed.

(** C5 as stated fails: with [--interval 10], a tick that meets an
    unreachable preferred provider and three slow fallbacks lasts 25 seconds,
    and the timer starts the next tick 10 seconds after it started. *)
Lemma C5_counterexample :
  Scheduler.timeline (Some 10%Z) 0 400 [25000; 400]%Z
  = [(0, 400); (10400, 35400); (20400, 20800)]%Z
  /\ Scheduler.no_overlap
       (Scheduler.timeline (Some 10%Z) 0 400 [25000; 400]%Z) = false.
Proof. split; reflexivity. Qed.

Example timeline_nan_interval :
  Scheduler.timeline None 0 400 [300; 300]%Z
  = [(0, 400); (401, 701); (402, 702)]%Z.
Proof. reflexivity. Qed.

(* ================================================================== *)
(** * Further properties                                                *)
(* ================================================================== *)

(** ** The cost and the footprint of IPv4 detection *)

Lemma first_valid_prefix (answer : string -> option string) (l : list string) :
  exists rest, l = (fst (first_valid answer l) ++ rest)%list.
Proof.
  induction l as [|u l IH]; simpl.
  - now exists [].
  - destruct (answer u) as [a|]; simpl.
    + now exists l.
    + destruct (first_valid answer l) as [c r]; simpl in *.
      destruct IH as [rest ->]. now exists rest.
Qed.

Lemma first_valid_nonempty (answer : string -> option string)
  (u : string) (l : list string) :
  hd_error (fst (first_valid answer (u :: l))) = Some u.
Proof.
  simpl. destruct (answer u); [reflexivity |].
  now destruct (first_valid answer l).
Qed.

Lemma candidates_NoDup (ipService : string) : NoDup (candidates ipService).
Proof.
  unfold candidates. constructor.
  - intros H. apply filter_In in H as [_ H].
    now rewrite String.eqb_refl in H.
  - apply NoDup_filter. unfold fallbacks.
    repeat constructor; simpl; intuition discriminate.
Qed.

Lemma candidates_length (ipService : string) :
  List.length (candidates ipService) <= 5
  /\ (In ipService fallbacks -> List.length (candidates ipService) <= 4).
Proof.
  unfold candidates. split.
  - cbn [List.length]. apply le_n_S.
    change 4 with (List.length fallbacks). apply filter_length_le.
  - intros H. unfold fallbacks in *. simpl in H.
    destruct H as [<- | [<- | [<- | [<- | []]]]]; simpl; lia.
Qed.

Lemma NoDup_prefix {A : Type} (a b : list A) : NoDup (a ++ b) -> NoDup a.
Proof.
  induction a as [|x a IH]; simpl; intros H; [constructor |].
  inversion H; subst. constructor.
  - intros Hx. apply H2. apply in_or_app. now left.
  - now apply IH.
Qed.

(** One call of [getCurrentIP] asks the preferred provider first and then no
    provider twice; it sends at most five requests, at most four when the
    preferred provider is one of the fallbacks (as the default is); it does
    nothing but these requests, and leaves the configuration and the files
    alone. *)
Theorem getCurrentIP_requests_bounded :
  forall (arg : option string) (w : World) (st : State),
    since st (snd (getCurrentIP arg w st))
    = map Get (gets (since st (snd (getCurrentIP arg w st))))
    /\ hd_error (gets (since st (snd (getCurrentIP arg w st))))
       = Some (ipService_or_default arg)
    /\ NoDup (gets (since st (snd (getCurrentIP arg w st))))
    /\ List.length (gets (since st (snd (getCurrentIP arg w st)))) <= 5
    /\ (In (ipService_or_default arg) fallbacks ->
        List.length (gets (since st (snd (getCurrentIP arg w st)))) <= 4)
    /\ config (snd (getCurrentIP arg w st)) = config st
    /\ files (snd (getCurrentIP arg w st)) = files st.
Proof.
  intros arg w st. rewrite getCurrentIP_first_valid.
  set (svc := ipService_or_default arg).
  pose proof (first_valid_prefix (answer_v4 w) (candidates svc)) as [rest Hp].
  pose proof (first_valid_nonempty (answer_v4 w) svc
                (filter (fun u => negb (String.eqb u svc)) fallbacks)) as Hhd.
  fold (candidates svc) in Hhd.
  pose proof (candidates_NoDup svc) as Hnd.
  pose proof (candidates_length svc) as [H5 H4].
  destruct (first_valid (answer_v4 w) (candidates svc)) as [c r].
  cbn [fst snd] in *. rewrite since_extend, gets_map_Get.
  rewrite Hp in Hnd, H5, H4. rewrite length_app in H5, H4.
  repeat split; auto.
  - eapply NoDup_prefix; eauto.
  - lia.
  - intros H. specialize (H4 H). lia.
Qed.

(** ** The stored address: saving and loading *)

Lemma rev_append (a b : string) : JS.rev (a ++ b) = JS.rev b ++ JS.rev a.
Proof.
  induction a as [|c a IH]; simpl.
  - now rewrite append_nil_r.
  - now rewrite IH, append_assoc.
Qed.

Lemma rev_involutive (s : string) : JS.rev (JS.rev s) = s.
Proof.
  induction s as [|c s IH]; simpl; [reflexivity |].
  now rewrite rev_append, IH.
Qed.

Lemma list_of_append (a b : string) :
  list_ascii_of_string (a ++ b)
  = (list_ascii_of_string a ++ list_ascii_of_string b)%list.
Proof. induction a as [|c a IH]; simpl; [reflexivity | now rewrite IH]. Qed.

Lemma in_rev (c : ascii) (s : string) :
  In c (list_ascii_of_string (JS.rev s)) -> In c (list_ascii_of_string s).
Proof.
  induction s as [|d s IH]; simpl; [auto |].
  rewrite list_of_append. intros H. apply in_app_or in H as [H | [<- | []]].
  - right. now apply IH.
  - now left.
Qed.

Lemma trimStart_no_space (s : string) :
  (forall c, In c (list_ascii_of_string s) -> JS.isWhiteSpace c = false) ->
  JS.trimStart s = s.
Proof.
  destruct s as [|c s]; simpl; [reflexivity |].
  intros H. now rewrite (H c) by auto.
Qed.

(** A string without white space is its own [trim]. *)
Lemma trim_no_space (s : string) :
  (forall c, In c (list_ascii_of_string s) -> JS.isWhiteSpace c = false) ->
  JS.trim s = s.
Proof.
  intros H. unfold JS.trim, JS.trimEnd.
  rewrite (trimStart_no_space s H).
  rewrite trimStart_no_space; [apply rev_involutive |].
  intros c Hc. apply H. now apply in_rev.
Qed.

Lemma digit_no_space (c : ascii) :
  Regex.isDigit c = true -> JS.isWhiteSpace c = false.
Proof.
  destruct c as [[] [] [] [] [] [] [] []]; vm_compute; congruence.
Qed.

(** An address that passes the pattern has no white space to trim. *)
Lemma validated_trim (a : string) :
  ipv4Regex_test a = true -> JS.trim a = a.
Proof.
  intros H. apply ipv4Regex_dotted_quad in H
    as (x & y & z & t & -> & Hx & Hy & Hz & Ht).
  apply trim_no_space. intros c.
  rewrite !list_of_append. simpl.
  intros Hc.
  apply in_app_or in Hc as [Hc | [<- | Hc]];
    [now apply digit_no_space, (proj2 Hx) | reflexivity |].
  apply in_app_or in Hc as [Hc | [<- | Hc]];
    [now apply digit_no_space, (proj2 Hy) | reflexivity |].
  apply in_app_or in Hc as [Hc | [<- | Hc]];
    [now apply digit_no_space, (proj2 Hz) | reflexivity |].
  now apply digit_no_space, (proj2 Ht).
Qed.

(** The round trip of the stored address.  When the file can be written,
    [loadLastIP] after [saveCurrentIP(ip)] gives [ip] trimmed, which for an
    address that passed the pattern is [ip] itself.  A failed write is
    silent, and what [loadLastIP] gives afterwards depends on where it
    failed: what it gave before when the open was refused, and the trimmed
    beginning of [ip] that reached the file when the write was interrupted
    after the open, which had emptied the file.  A [null] address is never
    written, and [last_ipv6.txt] is not affected. *)
Theorem saveCurrentIP_loadLastIP_round_trip :
  forall (w : World) (st : State) (ip : string),
    (writable w = true ->
     fst ((saveCurrentIP (Some ip) ;; loadLastIP) w st)
     = Ret (Some (JS.trim ip)))
    /\ (writable w = true -> ipv4Regex_test ip = true ->
        fst ((saveCurrentIP (Some ip) ;; loadLastIP) w st) = Ret (Some ip))
    /\ fst (saveCurrentIP (Some ip) w st) = Ret tt
    /\ (writable w = false -> write_failure w = OpenRefused ->
        fst ((saveCurrentIP (Some ip) ;; loadLastIP) w st)
        = fst (loadLastIP w st))
    /\ (forall n,
           writable w = false -> write_failure w = WriteInterrupted n ->
           fst ((saveCurrentIP (Some ip) ;; loadLastIP) w st)
           = Ret (Some (JS.trim (substring 0 n ip))))
    /\ fst ((saveCurrentIP None ;; loadLastIP) w st) = fst (loadLastIP w st)
    /\ fst ((saveCurrentIP (Some ip) ;; loadLastIPv6) w st)
       = fst (loadLastIPv6 w st).
Proof.
  intros w st ip. unfold saveCurrentIP, loadLastIP, loadLastIPv6, write. run.
  split; [| split; [| split; [| split; [| split; [| split]]]]];
    try reflexivity.
  - intros ->. reflexivity.
  - intros -> H. simpl. now rewrite (validated_trim ip H).
  - intros -> ->. reflexivity.
  - intros n -> ->. reflexivity.
Qed.

Lemma saveCurrentIP_loadLastIP_round_trip_witness :
  ((writable w_same_address = true /\ ipv4Regex_test "203.0.113.5" = true)
   /\ fst ((saveCurrentIP (Some "203.0.113.5") ;; loadLastIP)
             w_same_address st_first_run)
      = Ret (Some "203.0.113.5"))
  /\ (writable w_disk_full = false
      /\ write_failure w_disk_full = WriteInterrupted 0)
  /\ fst ((saveCurrentIP (Some "203.0.113.5") ;; loadLastIP)
            w_disk_full st_stored_10_0_0_1)
     = Ret (Some EmptyString).
Proof.
  split; [split; [split; reflexivity |] | split; [split; reflexivity |]].
  - exact (proj1 (proj2 (saveCurrentIP_loadLastIP_round_trip
                           w_same_address st_first_run "203.0.113.5"))
             eq_refl eq_refl).
  - exact (proj1 (proj2 (proj2 (proj2 (proj2
             (saveCurrentIP_loadLastIP_round_trip
                w_disk_full st_stored_10_0_0_1 "203.0.113.5")))))
             0 eq_refl eq_refl).
Defined.

(** ** The single-shot tick: no address, repetition, failure *)

Lemma resolve_v6_getCurrentIPv6 (w : World) (st : State) :
  (useIPv6 (config st) = true ->
   fst (getCurrentIPv6 (ipv6Service (config st)) w st) = Ret None) ->
  JS.truthy (snd (resolve_v6 w (config st))) = false.
Proof.
  unfold resolve_v6. destruct (useIPv6 (config st)); [| reflexivity].
  intros H. specialize (H eq_refl). rewrite getCurrentIPv6_answer in H.
  cbn [fst snd] in *. now injection H as ->.
Qed.

(** A single-shot tick of a configured client that finds neither address
    prints "Nessun IP rilevato" and stops: it sends no update request and
    saves nothing, also when [--force] was given, and it ends normally. *)
Theorem runUpdate_without_address_sends_nothing :
  forall (w : World) (st : State) (msg : string),
    JS.truthy (apiToken (config st)) = true ->
    fst (getCurrentIP (ipService (config st)) w st) = Throw msg ->
    (useIPv6 (config st) = true ->
     fst (getCurrentIPv6 (ipv6Service (config st)) w st) = Ret None) ->
    fst (runUpdate w st) = Ret tt
    /\ outs (since st (snd (runUpdate w st))) = [OutNoIp]
    /\ posts (since st (snd (runUpdate w st))) = []
    /\ saves (since st (snd (runUpdate w st))) = []
    /\ files (snd (runUpdate w st)) = files st.
Proof.
  intros w st msg Htok H4 H6.
  apply getCurrentIP_unresolved in H4.
  apply resolve_v6_getCurrentIPv6 in H6.
  rewrite (runUpdate_configured w st Htok), runUpdate_detect_cases.
  cbv zeta. rewrite H4, H6. cbn [JS.truthy negb andb fst snd].
  now rewrite since_extend, outs_probes, posts_probes, saves_probes.
Qed.

Lemma runUpdate_without_address_sends_nothing_witness :
  (JS.truthy (apiToken (config st_stored_203)) = true
   /\ fst (getCurrentIP (ipService (config st_stored_203)) w_offline
             st_stored_203)
      = Throw "Unable to detect IP address"
   /\ (useIPv6 (config st_stored_203) = true ->
       fst (getCurrentIPv6 (ipv6Service (config st_stored_203)) w_offline
              st_stored_203) = Ret None))
  /\ outs (since st_stored_203 (snd (runUpdate w_offline st_stored_203)))
     = [OutNoIp].
Proof.
  split; [repeat split; discriminate |].
  refine (proj1 (proj2 (runUpdate_without_address_sends_nothing
                          w_offline st_stored_203
                          "Unable to detect IP address" eq_refl eq_refl _))).
  discriminate.
Defined.

(** The state a single-shot tick leaves: the configuration is the one it
    started with, and the files are either untouched or hold the resolved
    address in [last_ip.txt]. *)
Lemma runUpdate_detect_state (w : World) (st : State) :
  config (snd (runUpdate_detect w st)) = config st
  /\ (files (snd (runUpdate_detect w st)) = files st
      \/ files (snd (runUpdate_detect w st))
         = mkStore (write w (ipPath (files st))
                      (snd (resolve_v4 w (ipService (config st)))))
                   (ipv6Path (files st))).
Proof.
  rewrite runUpdate_detect_cases. cbv zeta.
  destruct (negb (JS.truthy _) && negb (JS.truthy _)); [auto |].
  destruct (negb (forceUpdate w) && _); [auto |].
  destruct (post_update_dns w _ _) as [m|res]; [auto |].
  destruct (payload res) as [data|m]; [| auto].
  destruct (ok res && acknowledges data); auto.
Qed.

(** A single-shot tick that succeeded need not be repeated: when the address
    was resolved, the file can be written and the update endpoint
    acknowledges, the tick leaves the resolved address in [last_ip.txt], and
    a second tick in the same world, without [--force], reports "unchanged"
    and sends nothing. *)
Theorem runUpdate_twice_sends_once :
  forall (w : World) (st st1 : State) (a : string),
    JS.truthy (apiToken (config st)) = true ->
    getCurrentIP (ipService (config st)) w st = (Ret a, st1) ->
    forceUpdate w = false ->
    writable w = true ->
    always_acknowledged w ->
    load (ipPath (files (snd (runUpdate w st)))) = Some a
    /\ outs (since (snd (runUpdate w st))
               (snd (runUpdate w (snd (runUpdate w st)))))
       = [OutUnchanged (Some a)]
    /\ posts (since (snd (runUpdate w st))
                (snd (runUpdate w (snd (runUpdate w st)))))
       = [].
Proof.
  intros w st st1 a Htok Hget Hforce Hw Hack.
  pose proof (getCurrentIP_resolved _ _ _ _ _ Hget) as Hres.
  pose proof (getCurrentIP_validated _ _ _ _ _ Hget) as Hvalid.
  assert (Hst : config (snd (runUpdate w st)) = config st
                /\ load (ipPath (files (snd (runUpdate w st)))) = Some a).
  { rewrite (runUpdate_configured w st Htok), runUpdate_detect_cases.
    cbv zeta. rewrite Hres, (validated_truthy a Hvalid), Hforce.
    cbn [negb andb].
    destruct (JS.strict_eq (load (ipPath (files st))) (Some a)) eqn:E.
    { apply strict_eq_true in E. auto. }
    match goal with
    | |- context [post_update_dns w ?b ?t] =>
        destruct (Hack b t) as (res & data & -> & -> & ->)
    end.
    cbn [snd config files ipPath]. unfold write. rewrite Hw. simpl.
    now rewrite (validated_trim a Hvalid). }
  destruct Hst as [Hcfg Hload]. split; [assumption |].
  assert (Htok' : JS.truthy (apiToken (config (snd (runUpdate w st)))) = true)
    by now rewrite Hcfg.
  assert (Hres' : snd (resolve_v4 w
                         (ipService (config (snd (runUpdate w st)))))
                  = Some a) by now rewrite Hcfg.
  pose proof (runUpdate_resolved w (snd (runUpdate w st)) a
                Htok' Hres' Hvalid) as H.
  cbv zeta in H. rewrite Hforce, Hload in H.
  replace (JS.strict_eq (Some a) (Some a)) with true in H
    by (symmetry; now apply strict_eq_true).
  cbn [negb andb] in H. tauto.
Qed.

Lemma runUpdate_twice_sends_once_witness :
  (JS.truthy (apiToken (config st_first_run)) = true
   /\ getCurrentIP (ipService (config st_first_run)) w_same_address
        st_first_run
      = (Ret "203.0.113.5", extend st_first_run [Get "https://api.ipify.org"])
   /\ forceUpdate w_same_address = false
   /\ writable w_same_address = true
   /\ always_acknowledged w_same_address)
  /\ load (ipPath (files (snd (runUpdate w_same_address st_first_run))))
     = Some "203.0.113.5".
Proof.
  assert (Hack : always_acknowledged w_same_address).
  { intros b t. eexists. eexists. repeat split; reflexivity. }
  split; [repeat split; exact Hack |].
  exact (proj1 (runUpdate_twice_sends_once
                  w_same_address st_first_run
                  (extend st_first_run [Get "https://api.ipify.org"])
                  "203.0.113.5" eq_refl eq_refl eq_refl eq_refl Hack)).
Defined.

(** A single-shot tick of a configured client rejects, so that [main] exits
    with status 1, in one situation only: it decided to send the update
    request, and the request was rejected or the body of the response could
    not be read as JSON; the message is that of the failure.  An error
    answer of the server with a JSON body is printed and the tick ends
    normally. *)
Theorem runUpdate_rejects_iff_dispatch_unreadable :
  forall (w : World) (st : State) (msg : string),
    JS.truthy (apiToken (config st)) = true ->
    (fst (runUpdate w st) = Throw msg
     <-> (JS.truthy (snd (resolve_v4 w (ipService (config st))))
          || JS.truthy (snd (resolve_v6 w (config st))) = true
          /\ forceUpdate w
             || negb (JS.strict_eq
                        (load (ipPath (files st)))
                        (snd (resolve_v4 w (ipService (config st))))) = true
          /\ (post_update_dns w
                (mkBody (domain (config st))
                        (snd (resolve_v4 w (ipService (config st))))
                        (ttl (config st))
                        (JS.pick (snd (resolve_v6 w (config st)))))
                (apiToken (config st)) = Rejected msg
              \/ exists res,
                  post_update_dns w
                    (mkBody (domain (config st))
                            (snd (resolve_v4 w (ipService (config st))))
                            (ttl (config st))
                            (JS.pick (snd (resolve_v6 w (config st)))))
                    (apiToken (config st)) = Resolved res
                  /\ payload res = Throw msg))).
Proof.
  intros w st msg Htok.
  rewrite (runUpdate_configured w st Htok), runUpdate_detect_cases.
  cbv zeta. rewrite <- negb_orb.
  destruct (JS.truthy _ || JS.truthy _); cbn [negb].
  2: { split; [discriminate | intros [H _]; discriminate]. }
  destruct (forceUpdate w); cbn [negb andb orb].
  - destruct (post_update_dns w _ _) as [m|res].
    + cbn [fst]. split.
      * intros [= ->]. auto.
      * intros (_ & _ & [[= ->] | (res & [=] & _)]). reflexivity.
    + destruct (payload res) as [data|m] eqn:Hp.
      * destruct (ok res && acknowledges data); cbn [fst];
          (split; [discriminate |]);
          intros (_ & _ & [[=] | (res' & [= <-] & H)]); congruence.
      * cbn [fst]. split.
        -- intros [= ->]. eauto 6.
        -- intros (_ & _ & [[=] | (res' & [= <-] & H)]). congruence.
  - destruct (JS.strict_eq _ _); cbn [negb].
    { split; [discriminate | intros (_ & H & _); discriminate]. }
    destruct (post_update_dns w _ _) as [m|res].
    + cbn [fst]. split.
      * intros [= ->]. auto.
      * intros (_ & _ & [[= ->] | (res & [=] & _)]). reflexivity.
    + destruct (payload res) as [data|m] eqn:Hp.
      * destruct (ok res && acknowledges data); cbn [fst];
          (split; [discriminate |]);
          intros (_ & _ & [[=] | (res' & [= <-] & H)]); congruence.
      * cbn [fst]. split.
        -- intros [= ->]. eauto 6.
        -- intros (_ & _ & [[=] | (res' & [= <-] & H)]). congruence.
Qed.

Lemma runUpdate_rejects_iff_dispatch_unreadable_witness :
  JS.truthy (apiToken (config st_stored_10_0_0_1)) = true
  /\ fst (runUpdate w_update_unreachable st_stored_10_0_0_1)
     = Throw "connect ECONNREFUSED"
  /\ fst (runUpdate w_update_500 st_stored_10_0_0_1) = Ret tt.
Proof.
  split; [reflexivity | split; [| reflexivity]].
  apply (proj2 (runUpdate_rejects_iff_dispatch_unreadable
                  w_update_unreachable st_stored_10_0_0_1
                  "connect ECONNREFUSED" eq_refl)).
  repeat split. now left.
Defined.

(** ** The remote configuration and the prompted token *)

(** [fetchRemoteConfig] sends one request and never rejects: it gives a
    configuration exactly when the response has a 2xx status and a JSON body
    whose [config] has an [id], and [null] in every other case. *)
Theorem fetchRemoteConfig_null_unless_valid :
  forall (token : string) (w : World) (st : State),
    snd (fetchRemoteConfig token w st) = extend st [PostCliConfig token]
    /\ (forall msg, fst (fetchRemoteConfig token w st) <> Throw msg)
    /\ (forall c,
           fst (fetchRemoteConfig token w st) = Ret (Some c)
           <-> exists res data,
               post_cli_config w token = Resolved res
               /\ ok res = true
               /\ payload res = Ret data
               /\ reply_config data = Some c
               /\ JS.truthy (id c) = true).
Proof.
  intros token w st. unfold fetchRemoteConfig. run.
  destruct (post_cli_config w token) as [m|res]; simpl.
  { repeat split; try discriminate.
    intros (res & data & [=] & _). }
  destruct (payload res) as [data|m] eqn:Hp; simpl.
  2: { repeat split; try discriminate.
       intros (res' & data & [= <-] & _ & H & _). congruence. }
  destruct (reply_config data) as [c|] eqn:Hc; simpl.
  2: { repeat split; try discriminate.
       intros (res' & data' & [= <-] & _ & H & H' & _). congruence. }
  destruct (ok res) eqn:Hok; simpl.
  2: { repeat split; try discriminate.
       intros (res' & data' & [= <-] & H & _). congruence. }
  destruct (JS.truthy (id c)) eqn:Hid; simpl.
  - repeat split; try discriminate.
    + intros [= <-]. exists res, data. auto.
    + intros (res' & data' & [= <-] & _ & H & H' & _). congruence.
  - repeat split; try discriminate.
    intros (res' & data' & [= <-] & _ & H & H' & H''). congruence.
Qed.

Lemma fetchRemoteConfig_result (token : string) (w : World) (st st' : State) :
  fst (fetchRemoteConfig token w st) = fst (fetchRemoteConfig token w st').
Proof.
  unfold fetchRemoteConfig. run.
  destruct (post_cli_config w token) as [m|res]; simpl; [reflexivity |].
  destruct (payload res) as [data|m]; simpl; [| reflexivity].
  destruct (reply_config data) as [c|]; simpl; [| reflexivity].
  destruct (negb (ok res) || negb (JS.truthy (id c))); reflexivity.
Qed.

Lemma bearers_app (a b : list Event) :
  bearers (a ++ b) = (bearers a ++ bearers b)%list.
Proof. apply flat_map_app. Qed.

Lemma bearers_map_Get (l : list string) : bearers (map Get l) = [].
Proof. induction l as [|u l IH]; simpl; auto. Qed.

Lemma runUpdate_detect_bearers (w : World) (st : State) (t : option string) :
  In t (bearers (since st (snd (runUpdate_detect w st)))) ->
  t = apiToken (config st).
Proof.
  rewrite runUpdate_detect_cases. cbv zeta.
  destruct (negb (JS.truthy _) && negb (JS.truthy _));
    [| destruct (negb (forceUpdate w) && _);
       [| destruct (post_update_dns w _ _) as [m|res];
          [| destruct (payload res) as [data|m];
             [destruct (ok res && acknowledges data) |]]]];
    cbn [snd]; rewrite ?since_extend, ?since_mk;
    rewrite !bearers_app, !bearers_map_Get; simpl; intuition congruence.
Qed.

(** A single-shot tick of a client without a stored token starts by asking
    for one and fetching the remote configuration with the answer, trimmed.
    When none comes back it prints "Configurazione non trovata" and does
    nothing else: no provider is contacted, nothing is sent.  When one comes
    back, the tick goes on with it, and the answer is the bearer token of
    the update request. *)
Theorem runUpdate_without_token_prompts_first :
  forall (w : World) (st : State),
    JS.truthy (apiToken (config st)) = false ->
    (fst (fetchRemoteConfig (JS.trim (stdin_answer w)) w st) = Ret None ->
     runUpdate w st
     = (Ret tt,
        extend st [Prompt "Token API: ";
                   PostCliConfig (JS.trim (stdin_answer w));
                   Out OutConfigNotFound]))
    /\ (forall rc,
           fst (fetchRemoteConfig (JS.trim (stdin_answer w)) w st)
           = Ret (Some rc) ->
           runUpdate w st
           = runUpdate_detect w
               (mkState
                  (mkConfig (id rc) (Some (JS.trim (stdin_answer w)))
                            (jwtToken rc) (domain rc) (ttl rc)
                            (ipService rc) (ipv6Service rc) (useIPv6 rc))
                  (files st)
                  (trace st ++ [Prompt "Token API: ";
                                PostCliConfig (JS.trim (stdin_answer w))]))
           /\ forall t,
               In t (bearers (since st (snd (runUpdate w st)))) ->
               t = Some (JS.trim (stdin_answer w))).
Proof.
  intros w st Htok.
  assert (Hrun : forall r,
             fst (fetchRemoteConfig (JS.trim (stdin_answer w)) w st) = Ret r ->
             runUpdate w st
             = match r with
               | None =>
                   (Ret tt,
                    extend st [Prompt "Token API: ";
                               PostCliConfig (JS.trim (stdin_answer w));
                               Out OutConfigNotFound])
               | Some rc =>
                   runUpdate_detect w
                     (mkState
                        (mkConfig (id rc) (Some (JS.trim (stdin_answer w)))
                                  (jwtToken rc) (domain rc) (ttl rc)
                                  (ipService rc) (ipv6Service rc)
                                  (useIPv6 rc))
                        (files st)
                        (trace st
                         ++ [Prompt "Token API: ";
                             PostCliConfig (JS.trim (stdin_answer w))]))
               end).
  { intros r Hr. unfold runUpdate.
    unfold bind at 1. unfold get_config at 1. rewrite Htok.
    unfold bind at 1. unfold promptInput. run.
    change (mkState (config st) (files st)
              (trace st ++ [Prompt "Token API: "]))
      with (extend st [Prompt "Token API: "]).
    pose proof (fetchRemoteConfig_result (JS.trim (stdin_answer w)) w
                  (extend st [Prompt "Token API: "]) st) as Hf.
    destruct (fetchRemoteConfig_trace (JS.trim (stdin_answer w)) w
                (extend st [Prompt "Token API: "])) as [r' Hs].
    rewrite Hs in Hf |- *. cbn [fst] in Hf. rewrite Hr in Hf.
    injection Hf as ->.
    destruct r as [rc|]; simpl.
    - now rewrite <- app_assoc.
    - unfold extend; simpl. now rewrite <- !app_assoc. }
  split.
  - intros Hr. exact (Hrun None Hr).
  - intros rc Hr. split; [exact (Hrun (Some rc) Hr) |].
    intros t. rewrite (Hrun (Some rc) Hr).
    set (st2 := mkState _ _ _).
    destruct (runUpdate_detect_trace w st2) as [evs He].
    rewrite (since_trace st _
               ([Prompt "Token API: ";
                 PostCliConfig (JS.trim (stdin_answer w))] ++ evs)).
    2: { rewrite He. unfold st2. simpl. now rewrite <- app_assoc. }
    rewrite bearers_app. simpl. intros Hin.
    apply (runUpdate_detect_bearers w st2).
    now rewrite (since_trace _ _ _ He).
Qed.

Lemma runUpdate_without_token_prompts_first_witness :
  (JS.truthy (apiToken (config st_no_credential)) = false
   /\ fst (fetchRemoteConfig (JS.trim (stdin_answer w_update_unreachable))
             w_update_unreachable st_no_credential) = Ret None)
  /\ runUpdate w_update_unreachable st_no_credential
     = (Ret tt,
        extend st_no_credential
          [Prompt "Token API: "; PostCliConfig ""; Out OutConfigNotFound]).
Proof.
  split; [split; reflexivity |].
  exact (proj1 (runUpdate_without_token_prompts_first
                  w_update_unreachable st_no_credential eq_refl) eq_refl).
Defined.

(** ** The daemon tick: what it ignores, when it is quiet *)

(** A daemon tick does not look at the command line, the environment or the
    terminal: [--force] and [--api-key] given to a daemon change nothing. *)
Theorem update_ignores_force_and_api_key :
  forall (w w' : World) (st : State),
    same_for_daemon w w' -> update w st = update w' st.
Proof.
  intros w w' st H. rewrite !update_cases. cbv zeta.
  destruct w, w'. unfold same_for_daemon in H. simpl in H.
  destruct H as (-> & -> & -> & -> & ->).
  unfold resolve_v4, answer_v4, write. simpl. reflexivity.
Qed.

Lemma update_ignores_force_and_api_key_witness :
  same_for_daemon w_tick3 w_env_key
  /\ update w_tick3 st_stored_10_0_0_1 = update w_env_key st_stored_10_0_0_1.
Proof.
  assert (H : same_for_daemon w_tick3 w_env_key)
    by (repeat split; reflexivity).
  split; [exact H |].
  exact (update_ignores_force_and_api_key w_tick3 w_env_key
           st_stored_10_0_0_1 H).
Defined.


(** A daemon tick in which the stored address is the current one prints
    "IP invariato" and does nothing else.  That is also what it prints when
    there is nothing stored and no provider answers, both sides being
    [null]. *)
Theorem update_unchanged_is_quiet :
  forall (w : World) (st : State),
    (forall a st1,
        getCurrentIP (JS.or_else (ipService (config st))
                                 (Some default_ipService))
                     w st = (Ret a, st1) ->
        load (ipPath (files st)) = Some a ->
        outs (since st (snd (update w st)))
        = [LogUnchanged (timestamp_of (now w)) (Some a)]
        /\ posts (since st (snd (update w st))) = []
        /\ saves (since st (snd (update w st))) = []
        /\ files (snd (update w st)) = files st)
    /\ (forall msg,
           fst (getCurrentIP (JS.or_else (ipService (config st))
                                         (Some default_ipService))
                             w st) = Throw msg ->
           load (ipPath (files st)) = None ->
           outs (since st (snd (update w st)))
           = [LogUnchanged (timestamp_of (now w)) None]
           /\ posts (since st (snd (update w st))) = []
           /\ saves (since st (snd (update w st))) = []
           /\ files (snd (update w st)) = files st).
Proof.
  intros w st. split.
  - intros a st1 Hget Hload.
    apply getCurrentIP_resolved in Hget.
    rewrite update_cases. cbv zeta. rewrite Hget, Hload.
    replace (JS.strict_eq (Some a) (Some a)) with true
      by (symmetry; now apply strict_eq_true).
    cbn [snd]. rewrite since_extend, outs_clock_probes, posts_clock_probes.
    rewrite saves_app. change (saves (Clock :: map Get ?l))
      with (saves (map Get l)). rewrite saves_map_Get. auto.
  - intros msg Hget Hload.
    apply getCurrentIP_unresolved in Hget.
    rewrite update_cases. cbv zeta. rewrite Hget, Hload.
    cbn [JS.strict_eq snd].
    rewrite since_extend, outs_clock_probes, posts_clock_probes.
    rewrite saves_app. change (saves (Clock :: map Get ?l))
      with (saves (map Get l)). rewrite saves_map_Get. auto.
Qed.

Lemma update_unchanged_is_quiet_witness :
  (fst (getCurrentIP (JS.or_else (ipService (config st_first_run))
                                 (Some default_ipService))
                     w_offline st_first_run)
   = Throw "Unable to detect IP address"
   /\ load (ipPath (files st_first_run)) = None)
  /\ outs (since st_first_run (snd (update w_offline st_first_run)))
     = [LogUnchanged "2024-05-01 10:20:30" None].
Proof.
  split; [split; reflexivity |].
  exact (proj1 (proj2 (update_unchanged_is_quiet w_offline st_first_run)
                  "Unable to detect IP address" eq_refl eq_refl)).
Defined.

(** After a daemon tick that resolved the address and got a 2xx answer, with
    a writable file, [last_ip.txt] holds the address, and the next tick in
    the same world prints "IP invariato" and sends nothing. *)
Theorem update_twice_sends_once :
  forall (w : World) (st st1 : State) (a : string),
    JS.truthy (apiToken (config st)) && JS.truthy (domain (config st)) = true ->
    getCurrentIP (JS.or_else (ipService (config st)) (Some default_ipService))
                 w st = (Ret a, st1) ->
    writable w = true ->
    always_ok w ->
    load (ipPath (files (snd (update w st)))) = Some a
    /\ outs (since (snd (update w st)) (snd (update w (snd (update w st)))))
       = [LogUnchanged (timestamp_of (now w)) (Some a)]
    /\ posts (since (snd (update w st)) (snd (update w (snd (update w st)))))
       = [].
Proof.
  intros w st st1 a Hcfg Hget Hw Hok.
  pose proof (getCurrentIP_resolved _ _ _ _ _ Hget) as Hres.
  pose proof (getCurrentIP_validated _ _ _ _ _ Hget) as Hvalid.
  assert (Hst : config (snd (update w st)) = config st
                /\ load (ipPath (files (snd (update w st)))) = Some a).
  { rewrite update_cases. cbv zeta. rewrite Hres, Hcfg.
    destruct (JS.strict_eq (load (ipPath (files st))) (Some a)) eqn:E.
    { apply strict_eq_true in E. auto. }
    match goal with
    | |- context [post_update_dns w ?b ?t] =>
        destruct (Hok b t) as (res & -> & ->)
    end.
    cbn [snd config files ipPath]. unfold write. rewrite Hw. simpl.
    now rewrite (validated_trim a Hvalid). }
  destruct Hst as [Hc Hload]. split; [assumption |].
  rewrite (update_cases w (snd (update w st))). cbv zeta.
  rewrite Hc, Hres, Hload.
  replace (JS.strict_eq (Some a) (Some a)) with true
    by (symmetry; now apply strict_eq_true).
  cbn [snd]. now rewrite since_extend, outs_clock_probes, posts_clock_probes.
Qed.

Lemma update_twice_sends_once_witness :
  (JS.truthy (apiToken (config st_stored_10_0_0_1))
   && JS.truthy (domain (config st_stored_10_0_0_1)) = true
   /\ getCurrentIP (JS.or_else (ipService (config st_stored_10_0_0_1))
                               (Some default_ipService))
                   w_tick3 st_stored_10_0_0_1
      = (Ret "10.0.0.2",
         extend st_stored_10_0_0_1 [Get "https://api.ipify.org"])
   /\ writable w_tick3 = true
   /\ always_ok w_tick3)
  /\ load (ipPath (files (snd (update w_tick3 st_stored_10_0_0_1))))
     = Some "10.0.0.2".
Proof.
  assert (Hok : always_ok w_tick3).
  { intros b t. eexists. split; reflexivity. }
  split; [repeat split; exact Hok |].
  exact (proj1 (update_twice_sends_once w_tick3 st_stored_10_0_0_1
                  (extend st_stored_10_0_0_1 [Get "https://api.ipify.org"])
                  "10.0.0.2" eq_refl eq_refl eq_refl Hok)).
Defined.

(** ** Time stamps *)

Lemma replace_T_first (d x : string) :
  (forall c, In c (list_ascii_of_string d) -> c <> "T"%char) ->
  replace_T (d ++ String "T" x) = d ++ String " " x.
Proof.
  induction d as [|c d IH]; simpl; intros H; [reflexivity |].
  destruct (Ascii.eqb c "T") eqn:E.
  - apply Ascii.eqb_eq in E. exfalso. apply (H c); auto.
  - now rewrite IH by auto.
Qed.

Lemma substring_prefix (a b : string) :
  substring 0 (String.length a) (a ++ b) = a.
Proof.
  induction a as [|c a IH]; simpl.
  - now destruct b.
  - now rewrite IH.
Qed.

(** The time stamp of a log line is the date and the time of day of the ISO
    string, to the second, separated by a space: for an ISO string made of a
    ten-character date, [T], an eight-character time and a rest (the
    milliseconds and [Z]), it is the date, a space and the time. *)
Theorem timestamp_of_iso_string :
  forall (date time rest : string),
    String.length date = 10 ->
    String.length time = 8 ->
    (forall c, In c (list_ascii_of_string date) -> c <> "T"%char) ->
    timestamp_of (date ++ "T" ++ time ++ rest) = date ++ " " ++ time.
Proof.
  intros date time rest Hd Ht HT. unfold timestamp_of.
  change ("T" ++ time ++ rest) with (String "T" (time ++ rest)).
  rewrite (replace_T_first date (time ++ rest) HT).
  change (String " " (time ++ rest)) with (" " ++ time ++ rest).
  replace (date ++ " " ++ time ++ rest) with ((date ++ " " ++ time) ++ rest)
    by now rewrite !append_assoc.
  replace 19 with (String.length (date ++ " " ++ time))
    by (rewrite !length_append; simpl; lia).
  apply substring_prefix.
Qed.

Lemma timestamp_of_iso_string_witness :
  (String.length "2024-05-01" = 10
   /\ String.length "10:20:30" = 8
   /\ (forall c, In c (list_ascii_of_string "2024-05-01") -> c <> "T"%char))
  /\ timestamp_of "2024-05-01T10:20:30.000Z" = "2024-05-01 10:20:30".
Proof.
  assert (H : forall c, In c (list_ascii_of_string "2024-05-01") ->
                        c <> "T"%char).
  { simpl. intros c Hc.
    repeat (destruct Hc as [<- | Hc]; [discriminate |]). destruct Hc. }
  split; [repeat split; exact H |].
  exact (timestamp_of_iso_string "2024-05-01" "10:20:30" ".000Z"
           eq_refl eq_refl H).
Defined.

(** ** The command line *)

Lemma indexOf_split (x : string) (args : list string) (idx : nat) :
  Cli.indexOf x args = Some idx
  <-> exists pre post,
      args = (pre ++ x :: post)%list
      /\ ~ In x pre
      /\ List.length pre = idx.
Proof.
  revert idx. induction args as [|a args IH]; intros idx; simpl.
  - split; [discriminate |].
    intros (pre & post & H & _). destruct pre; discriminate.
  - destruct (String.eqb a x) eqn:E.
    + apply String.eqb_eq in E. subst a. split.
      * intros [= <-]. exists [], args. auto.
      * intros (pre & post & H & Hn & <-).
        destruct pre as [|p pre]; [reflexivity |].
        injection H as -> _. exfalso. apply Hn. now left.
    + apply String.eqb_neq in E. split.
      * destruct (Cli.indexOf x args) as [i|] eqn:Hi; [| discriminate].
        intros [= <-].
        destruct (proj1 (IH i) eq_refl) as (pre & post & -> & Hn & <-).
        exists (a :: pre), post. repeat split.
        intros [H | H]; auto.
      * intros (pre & post & H & Hn & <-).
        destruct pre as [|p pre]; [injection H as -> _; congruence |].
        injection H as <- ->.
        rewrite (proj2 (IH (List.length pre))); [reflexivity |].
        exists pre, post. repeat split.
        intros Hin. apply Hn. now right.
Qed.

Lemma indexOf_absent (x : string) (args : list string) :
  ~ In x args -> Cli.indexOf x args = None.
Proof.
  intros H. destruct (Cli.indexOf x args) as [i|] eqn:E; [| reflexivity].
  apply indexOf_split in E as (pre & post & -> & _). exfalso. apply H.
  apply in_or_app. right. now left.
Qed.

Lemma usable_some (a : option string) (v : string) :
  Cli.usable a = Some v
  <-> a = Some v /\ v <> "" /\ Cli.startsWithDash v = false.
Proof.
  unfold Cli.usable. destruct a as [s|]; [| split; [discriminate | intros [[=] _]]].
  unfold JS.truthy.
  destruct (String.eqb s "") eqn:E; simpl.
  - apply String.eqb_eq in E. split; [discriminate |].
    intros ([= ->] & H & _). congruence.
  - apply String.eqb_neq in E.
    destruct (Cli.startsWithDash s) eqn:D; simpl.
    + split; [discriminate |]. intros ([= ->] & _ & H). congruence.
    + split.
      * intros [= ->]. auto.
      * intros ([= ->] & _). reflexivity.
Qed.

(** [getOption(name)] gives the word that follows the first occurrence of
    [name], provided that word is not empty and does not start with a dash;
    it gives [null] in every other case, also when a later occurrence of
    [name] is followed by a proper value. *)
Theorem getOption_first_occurrence :
  forall (name : string) (args : list string) (v : string),
    Cli.getOption name args = Some v
    <-> exists pre post,
        args = (pre ++ name :: v :: post)%list
        /\ ~ In name pre
        /\ v <> ""
        /\ Cli.startsWithDash v = false.
Proof.
  intros name args v. unfold Cli.getOption. split.
  - destruct (Cli.indexOf name args) as [idx|] eqn:E; [| discriminate].
    apply indexOf_split in E as (pre & post & -> & Hn & <-).
    rewrite nth_error_app2 by lia.
    replace (List.length pre + 1 - List.length pre) with 1 by lia.
    intros H. apply usable_some in H as (H & Hv & Hd).
    destruct post as [|p post]; [discriminate |].
    simpl in H. injection H as ->. exists pre, post. auto.
  - intros (pre & post & -> & Hn & Hv & Hd).
    rewrite (proj2 (indexOf_split name _ (List.length pre))).
    2: { exists pre, (v :: post). auto. }
    rewrite nth_error_app2 by lia.
    replace (List.length pre + 1 - List.length pre) with 1 by lia.
    cbn [nth_error]. apply usable_some. auto.
Qed.

Example getOption_value :
  Cli.getOption "--interval" ["--daemon"; "--interval"; "60"] = Some "60".
Proof. reflexivity. Qed.

Example getOption_negative_value :
  Cli.getOption "--interval" ["--daemon"; "--interval"; "-5"] = None.
Proof. reflexivity. Qed.

Example getOption_second_occurrence_ignored :
  Cli.getOption "--test" ["--test"; "--json"; "--test"; "a.apertodns.com"]
  = None.
Proof. reflexivity. Qed.

Lemma includes_In (x : string) (args : list string) :
  Cli.includes x args = true <-> In x args.
Proof.
  unfold Cli.includes. rewrite existsb_exists. split.
  - intros (y & Hy & E). apply String.eqb_eq in E. now subst y.
  - intros H. exists x. split; [assumption | apply String.eqb_refl].
Qed.

Lemma includes_absent (x : string) (args : list string) :
  ~ In x args -> Cli.includes x args = false.
Proof.
  intros H. apply not_true_is_false. now rewrite includes_In.
Qed.

(** [--cron] does not turn on JSON output or quiet mode: the two flags it
    pushes go to [process.argv], while every flag is read from [args], the
    copy made before.  With [--cron] and without [--json] among the
    arguments, [showJson] is false although [process.argv] does hold
    [--json]; only the banner is suppressed, [isCron] being tested there
    directly. *)
Theorem cron_does_not_enable_json :
  forall (argv : list string),
    In "--cron" (Cli.args_of argv) ->
    In "--json" (Cli.argv_after_startup argv)
    /\ In "--quiet" (Cli.argv_after_startup argv)
    /\ Cli.showsBanner (Cli.args_of argv) = false
    /\ (~ In "--json" (Cli.args_of argv) ->
        Cli.showJson (Cli.args_of argv) = false)
    /\ (~ In "--quiet" (Cli.args_of argv) ->
        Cli.isQuiet (Cli.args_of argv) = false).
Proof.
  intros argv H. unfold Cli.argv_after_startup, Cli.showsBanner, Cli.isCron.
  rewrite (proj2 (includes_In "--cron" _) H).
  repeat split.
  - apply in_or_app. right. simpl. auto.
  - apply in_or_app. right. simpl. auto.
  - apply andb_false_r.
  - apply includes_absent.
  - apply includes_absent.
Qed.

Lemma cron_does_not_enable_json_witness :
  In "--cron" (Cli.args_of ["node"; "apertodns"; "--cron"])
  /\ Cli.showJson (Cli.args_of ["node"; "apertodns"; "--cron"]) = false
  /\ Cli.argv_after_startup ["node"; "apertodns"; "--cron"]
     = ["node"; "apertodns"; "--cron"; "--quiet"; "--json"].
Proof.
  assert (H : In "--cron" (Cli.args_of ["node"; "apertodns"; "--cron"]))
    by (simpl; auto).
  split; [exact H | split; [| reflexivity]].
  apply (proj1 (proj2 (proj2 (proj2 (cron_does_not_enable_json
                                       ["node"; "apertodns"; "--cron"] H))))).
  simpl. intuition discriminate.
Defined.

Lemma getOption_absent (name : string) (args : list string) :
  ~ In name args -> Cli.getOption name args = None.
Proof.
  intros H. unfold Cli.getOption. now rewrite indexOf_absent.
Qed.

Ltac in_list := simpl; repeat (first [now left | right]).

(** Arguments that name no command run the DNS update: when the argument
    list is not empty, holds none of the command flags, and does not start
    with a subcommand word, the process goes to [runUpdate]; a misspelt
    flag, or [--force], [--cron] or [--json] alone, do so. *)
Theorem unrecognised_arguments_run_the_update :
  forall (args : list string),
    args <> [] ->
    (forall a, In a args -> ~ In a Cli.command_flags) ->
    (forall s, Cli.subcommand args = Some s -> ~ In s Cli.subcommands) ->
    Cli.startup args = Cli.RunUpdate.
Proof.
  intros args Hne Hflags Hsub.
  assert (Hf : forall f, In f Cli.command_flags ->
                         Cli.includes f args = false).
  { intros f Hin. apply includes_absent. intros H. exact (Hflags f H Hin). }
  assert (Hg : forall f, In f Cli.command_flags ->
                         Cli.getOption f args = None).
  { intros f Hin. apply getOption_absent. intros H. exact (Hflags f H Hin). }
  assert (Hi : forall f, In f Cli.command_flags ->
                         Cli.indexOf f args = None).
  { intros f Hin. apply indexOf_absent. intros H. exact (Hflags f H Hin). }
  assert (Hs : forall x, In x Cli.subcommands ->
                         JS.strict_eq (Cli.subcommand args) (Some x) = false).
  { intros x Hin. apply not_true_is_false. intros H.
    apply strict_eq_true in H. exact (Hsub x H Hin). }
  unfold Cli.startup, Cli.showHelp, Cli.showVersion, Cli.main, Cli.logout,
    Cli.txtSetArgs, Cli.txtDeleteArgs, Cli.showMyIp, Cli.runDaemon,
    Cli.enableTokenId, Cli.disableTokenId, Cli.toggleTokenId,
    Cli.showDashboard, Cli.listDomains, Cli.addDomainArg,
    Cli.deleteDomainArg, Cli.updateDomainArg, Cli.testDns, Cli.listTokens,
    Cli.showStats, Cli.showLogs, Cli.listWebhooks, Cli.listApiKeys,
    Cli.createApiKeyArg, Cli.deleteApiKeyArg, Cli.showScopes, Cli.runSetup,
    Cli.runVerify, Cli.showStatus, Cli.runConfigEdit, Cli.lists,
    Cli.third_word.
  rewrite !Hf by in_list. rewrite !Hg by in_list. rewrite !Hi by in_list.
  rewrite !Hs by in_list.
  simpl. destruct args; [congruence | reflexivity].
Qed.

Lemma unrecognised_arguments_run_the_update_witness :
  (["--domain"; "--json"] <> []
   /\ (forall a, In a ["--domain"; "--json"] -> ~ In a Cli.command_flags)
   /\ (forall s, Cli.subcommand ["--domain"; "--json"] = Some s ->
                 ~ In s Cli.subcommands))
  /\ Cli.startup ["--domain"; "--json"] = Cli.RunUpdate.
Proof.
  assert (H1 : ["--domain"; "--json"] <> []) by discriminate.
  assert (H2 : forall a, In a ["--domain"; "--json"] ->
                         ~ In a Cli.command_flags).
  { intros a [<- | [<- | []]]; simpl; intuition discriminate. }
  assert (H3 : forall s, Cli.subcommand ["--domain"; "--json"] = Some s ->
                         ~ In s Cli.subcommands) by discriminate.
  split; [repeat split; assumption |].
  exact (unrecognised_arguments_run_the_update _ H1 H2 H3).
Defined.

(** A subcommand without the word it needs is not reported: the process
    runs the DNS update. *)
Example domains_add_without_name :
  Cli.startup ["domains"; "add"] = Cli.RunUpdate
  /\ Cli.startup ["update"] = Cli.RunUpdate
  /\ Cli.startup ["api-keys"; "delete"] = Cli.RunUpdate.
Proof. repeat split; reflexivity. Qed.

Example domains_add_takes_a_flag_as_name :
  Cli.startup ["domains"; "add"; "--json"] = Cli.AddDomain "--json".
Proof. reflexivity. Qed.

Example no_arguments_is_interactive : Cli.startup [] = Cli.Interactive.
Proof. reflexivity. Qed.

(** ** The interval of the daemon *)

Lemma getOption_usable (name : string) (args : list string) (v : string) :
  Cli.getOption name args = Some v ->
  v <> "" /\ Cli.startsWithDash v = false.
Proof.
  unfold Cli.getOption.
  destruct (Cli.indexOf name args) as [idx|]; [| discriminate].
  intros H. apply usable_some in H. tauto.
Qed.

Lemma digit_value_decimal (c : ascii) :
  Regex.isDigit c = true -> digit_value 10 c = Some (nat_of_ascii c - 48).
Proof.
  destruct c as [[] [] [] [] [] [] [] []]; vm_compute; congruence.
Qed.

Lemma digit_not_sign (c : ascii) :
  Regex.isDigit c = true ->
  Ascii.eqb c "-" = false /\ Ascii.eqb c "+" = false
  /\ Ascii.eqb c "x" = false /\ Ascii.eqb c "X" = false.
Proof.
  destruct c as [[] [] [] [] [] [] [] []]; vm_compute; intuition congruence.
Qed.

Lemma parse_digits_decimal (s : string) :
  forallb Regex.isDigit (list_ascii_of_string s) = true ->
  forall n,
    parse_digits 10 (Some (Z.of_nat n)) s = Some (Z.of_nat (decimal_value n s)).
Proof.
  induction s as [|c s IH]; simpl; intros H n; [reflexivity |].
  apply andb_true_iff in H as [Hc Hs].
  rewrite (digit_value_decimal c Hc).
  rewrite <- (IH Hs). f_equal. f_equal. lia.
Qed.

(** On a numeral, [parseInt] is its value. *)
Lemma parseInt_numeral (v : string) :
  v <> "" ->
  forallb Regex.isDigit (list_ascii_of_string v) = true ->
  parseInt v = Some (Z.of_nat (decimal_value 0 v)).
Proof.
  intros Hne Hd. destruct v as [|c v]; [congruence |].
  pose proof Hd as Hd'. simpl in Hd'.
  apply andb_true_iff in Hd' as [Hc Hv].
  destruct (digit_not_sign c Hc) as (Hm & Hp & _).
  unfold parseInt.
  rewrite trimStart_no_space.
  2: { intros x Hx. apply digit_no_space.
       rewrite forallb_forall in Hd. now apply Hd. }
  rewrite Hm, Hp.
  assert (Hradix : match String c v with
                   | String c0 (String c1 r) =>
                       if Ascii.eqb c0 "0"
                          && (Ascii.eqb c1 "x" || Ascii.eqb c1 "X")
                       then (16, r) else (10, String c v)
                   | _ => (10, String c v)
                   end = (10, String c v)).
  { destruct v as [|c1 r]; [reflexivity |].
    simpl in Hv. apply andb_true_iff in Hv as [Hc1 _].
    destruct (digit_not_sign c1 Hc1) as (_ & _ & Hx & HX).
    rewrite Hx, HX. simpl. now rewrite andb_false_r. }
  rewrite Hradix.
  cbn [parse_digits]. rewrite (digit_value_decimal c Hc).
  change (0 * Z.of_nat 10 + Z.of_nat (nat_of_ascii c - 48))%Z
    with (Z.of_nat (nat_of_ascii c - 48)).
  rewrite (parse_digits_decimal v Hv). reflexivity.
Qed.

(** The period of the daemon's timer, from the command line.  Without a
    usable [--interval] value (none, or one that starts with a dash, so also
    a negative number) it is 300 seconds.  With a numeral [n] it is [n]
    seconds when [n] is between 1 and 2147483, and one millisecond
    otherwise: [--interval 0] and intervals of 2147484 seconds or more make
    the timer fire every millisecond. *)
Theorem daemon_period_from_command_line :
  forall (args : list string),
    (Cli.getOption "--interval" args = None ->
     Scheduler.period (daemonInterval_of args) = 300000%Z)
    /\ (forall v,
           Cli.getOption "--interval" args = Some v ->
           forallb Regex.isDigit (list_ascii_of_string v) = true ->
           Scheduler.period (daemonInterval_of args)
           = if ((1 <=? Z.of_nat (decimal_value 0 v))
                 && (Z.of_nat (decimal_value 0 v) <=? 2147483))%Z
             then (Z.of_nat (decimal_value 0 v) * 1000)%Z
             else 1%Z).
Proof.
  intros args. unfold daemonInterval_of. split.
  - intros ->. reflexivity.
  - intros v Hv Hd. rewrite Hv.
    apply getOption_usable in Hv as [Hne _].
    unfold JS.pick, JS.truthy.
    rewrite (proj2 (String.eqb_neq v "") Hne). cbn [negb].
    rewrite (parseInt_numeral v Hne Hd).
    unfold Scheduler.period, Scheduler.timer_delay. cbn [option_map].
    set (n := Z.of_nat (decimal_value 0 v)).
    destruct ((1 <=? n * 1000)%Z && (n * 1000 <=? 2147483647)%Z) eqn:E1;
      destruct ((1 <=? n)%Z && (n <=? 2147483)%Z) eqn:E2;
      try reflexivity;
      rewrite ?andb_true_iff, ?andb_false_iff, ?Z.leb_le, ?Z.leb_gt in *;
      lia.
Qed.

Lemma daemon_period_from_command_line_witness :
  (Cli.getOption "--interval" ["--daemon"; "--interval"; "0"] = Some "0"
   /\ forallb Regex.isDigit (list_ascii_of_string "0") = true)
  /\ Scheduler.period (daemonInterval_of ["--daemon"; "--interval"; "0"])
     = 1%Z.
Proof.
  split; [split; reflexivity |].
  exact (proj2 (daemon_period_from_command_line
                  ["--daemon"; "--interval"; "0"]) "0" eq_refl eq_refl).
Defined.

Example daemon_period_negative_interval :
  Scheduler.period (daemonInterval_of ["--daemon"; "--interval"; "-5"])
  = 300000%Z.
Proof. reflexivity. Qed.

Example daemon_period_minute :
  Scheduler.period (daemonInterval_of ["daemon"; "--interval"; "60"])
  = 60000%Z.
Proof. reflexivity. Qed.

Example parseInt_examples :
  parseInt "60s" = Some 60%Z /\ parseInt "abc" = None
  /\ parseInt "0x10" = Some 16%Z /\ parseInt " 42" = Some 42%Z
  /\ parseInt "1e3" = Some 1%Z /\ parseInt "1.5" = Some 1%Z.
Proof. repeat split; reflexivity. Qed.

(** ** The order of versions *)

Section VersionOrder.

Variable num : Type.
Variable zero : num.
Variable gtb : num -> num -> bool.
Variable Number : string -> option num.

(** The order of numbers is strict and total. *)
Hypothesis gtb_irrefl : forall a, gtb a a = false.
Hypothesis gtb_asym : forall a b, gtb a b = true -> gtb b a = false.
Hypothesis gtb_total : forall a b, gtb a b = false -> gtb b a = false -> a = b.
Hypothesis gtb_trans :
  forall a b c, gtb a b = true -> gtb b c = true -> gtb a c = true.

Let cmp := compare_from zero gtb.
Let at_ := part zero.

Lemma compare_from_zero (p1 p2 : list (option num)) (steps : nat) :
  forall i,
    cmp p1 p2 i steps = 0%Z
    <-> forall j, j < steps -> at_ p1 (i + j) = at_ p2 (i + j).
Proof.
  unfold cmp, at_.
  induction steps as [|k IH]; intros i; simpl.
  - split; [intros _ j Hj; lia | reflexivity].
  - destruct (gtb (part zero p1 i) (part zero p2 i)) eqn:E1.
    { split; [discriminate |]. intros H. specialize (H 0 ltac:(lia)).
      rewrite Nat.add_0_r in H. rewrite H, gtb_irrefl in E1. discriminate. }
    destruct (gtb (part zero p2 i) (part zero p1 i)) eqn:E2.
    { split; [discriminate |]. intros H. specialize (H 0 ltac:(lia)).
      rewrite Nat.add_0_r in H. rewrite H, gtb_irrefl in E2. discriminate. }
    rewrite IH. split.
    + intros H j Hj. destruct j as [|j].
      * rewrite Nat.add_0_r. now apply gtb_total.
      * rewrite Nat.add_succ_r. apply (H j). lia.
    + intros H j Hj. specialize (H (S j) ltac:(lia)).
      now rewrite Nat.add_succ_r in H.
Qed.

Lemma compare_from_one (p1 p2 : list (option num)) (steps : nat) :
  forall i,
    cmp p1 p2 i steps = 1%Z
    <-> exists k,
        k < steps
        /\ (forall j, j < k -> at_ p1 (i + j) = at_ p2 (i + j))
        /\ gtb (at_ p1 (i + k)) (at_ p2 (i + k)) = true.
Proof.
  unfold cmp, at_.
  induction steps as [|n IH]; intros i; simpl.
  - split; [discriminate | intros (k & Hk & _); lia].
  - destruct (gtb (part zero p1 i) (part zero p2 i)) eqn:E1.
    { split; [| reflexivity]. intros _. exists 0.
      rewrite Nat.add_0_r. repeat split; [lia | intros j Hj; lia | assumption]. }
    destruct (gtb (part zero p2 i) (part zero p1 i)) eqn:E2.
    { split; [discriminate |]. intros (k & Hk & Heq & Hgt).
      destruct k as [|k].
      - rewrite Nat.add_0_r in Hgt. congruence.
      - specialize (Heq 0 ltac:(lia)). rewrite Nat.add_0_r in Heq.
        rewrite Heq, gtb_irrefl in E2. discriminate. }
    rewrite IH. split.
    + intros (k & Hk & Heq & Hgt). exists (S k). repeat split.
      * lia.
      * intros j Hj. destruct j as [|j].
        -- rewrite Nat.add_0_r. now apply gtb_total.
        -- rewrite Nat.add_succ_r. apply (Heq j). lia.
      * now rewrite Nat.add_succ_r.
    + intros (k & Hk & Heq & Hgt). destruct k as [|k].
      * rewrite Nat.add_0_r in Hgt. congruence.
      * exists k. repeat split.
        -- lia.
        -- intros j Hj. specialize (Heq (S j) ltac:(lia)).
           now rewrite Nat.add_succ_r in Heq.
        -- now rewrite Nat.add_succ_r in Hgt.
Qed.

Lemma compare_from_swap (p1 p2 : list (option num)) (steps : nat) :
  forall i, cmp p2 p1 i steps = (- cmp p1 p2 i steps)%Z.
Proof.
  unfold cmp.
  induction steps as [|n IH]; intros i; simpl; [reflexivity |].
  destruct (gtb (part zero p1 i) (part zero p2 i)) eqn:E1.
  - now rewrite (gtb_asym _ _ E1).
  - destruct (gtb (part zero p2 i) (part zero p1 i)); [reflexivity | apply IH].
Qed.

Lemma compare_from_values (p1 p2 : list (option num)) (steps i : nat) :
  cmp p1 p2 i steps = 1%Z \/ cmp p1 p2 i steps = 0%Z
  \/ cmp p1 p2 i steps = (-1)%Z.
Proof.
  unfold cmp. revert i.
  induction steps as [|n IH]; intros i; simpl; [auto |].
  destruct (gtb _ _); [auto |]. destruct (gtb _ _); [auto | apply IH].
Qed.

(** Past the end of a version every part is zero. *)
Lemma part_beyond (p : list (option num)) (i : nat) :
  List.length p <= i -> at_ p i = zero.
Proof.
  intros H. unfold at_, part.
  now rewrite (proj2 (nth_error_None p i) H).
Qed.

Lemma compareVersions_one (v1 v2 : string) :
  compareVersions zero gtb Number v1 v2 = 1%Z
  <-> exists k,
      (forall j, j < k ->
                 at_ (version_parts Number v1) j
                 = at_ (version_parts Number v2) j)
      /\ gtb (at_ (version_parts Number v1) k)
             (at_ (version_parts Number v2) k) = true.
Proof.
  unfold compareVersions. cbv zeta. fold cmp.
  rewrite compare_from_one. simpl. split.
  - intros (k & _ & H). eauto.
  - intros (k & Heq & Hgt). exists k. repeat split; auto.
    destruct (Nat.lt_ge_cases k
                (Nat.max (List.length (version_parts Number v1))
                         (List.length (version_parts Number v2))))
      as [Hk | Hk]; [assumption |].
    rewrite !part_beyond in Hgt by lia.
    rewrite gtb_irrefl in Hgt. discriminate.
Qed.

Lemma compareVersions_zero (v1 v2 : string) :
  compareVersions zero gtb Number v1 v2 = 0%Z
  <-> forall j,
      at_ (version_parts Number v1) j = at_ (version_parts Number v2) j.
Proof.
  unfold compareVersions. cbv zeta. fold cmp.
  rewrite compare_from_zero. simpl. split.
  - intros H j.
    destruct (Nat.lt_ge_cases j
                (Nat.max (List.length (version_parts Number v1))
                         (List.length (version_parts Number v2))))
      as [Hj | Hj]; [auto |].
    now rewrite !part_beyond by lia.
  - intros H j _. apply H.
Qed.

Lemma compareVersions_swap (v1 v2 : string) :
  compareVersions zero gtb Number v2 v1
  = (- compareVersions zero gtb Number v1 v2)%Z.
Proof.
  unfold compareVersions. cbv zeta. fold cmp.
  rewrite Nat.max_comm. apply compare_from_swap.
Qed.

Lemma compareVersions_values (v1 v2 : string) :
  compareVersions zero gtb Number v1 v2 = 1%Z
  \/ compareVersions zero gtb Number v1 v2 = 0%Z
  \/ compareVersions zero gtb Number v1 v2 = (-1)%Z.
Proof. apply compare_from_values. Qed.

(** [compareVersions] finds the first position at which the parts differ,
    parts that are missing or not numeric counting as zero: it is 1 when the
    part of the first version is the greater there, -1 when it is the
    smaller, and 0 when there is no such position. *)
Theorem compareVersions_first_difference :
  forall (v1 v2 : string),
    (compareVersions zero gtb Number v1 v2 = 1%Z
     <-> exists k,
         (forall j, j < k ->
                    part zero (version_parts Number v1) j
                    = part zero (version_parts Number v2) j)
         /\ gtb (part zero (version_parts Number v1) k)
                (part zero (version_parts Number v2) k) = true)
    /\ (compareVersions zero gtb Number v1 v2 = (-1)%Z
        <-> exists k,
            (forall j, j < k ->
                       part zero (version_parts Number v1) j
                       = part zero (version_parts Number v2) j)
            /\ gtb (part zero (version_parts Number v2) k)
                   (part zero (version_parts Number v1) k) = true)
    /\ (compareVersions zero gtb Number v1 v2 = 0%Z
        <-> forall j,
            part zero (version_parts Number v1) j
            = part zero (version_parts Number v2) j).
Proof.
  intros v1 v2. split; [| split].
  - apply compareVersions_one.
  - assert (Hs : compareVersions zero gtb Number v1 v2 = (-1)%Z
                 <-> compareVersions zero gtb Number v2 v1 = 1%Z).
    { rewrite (compareVersions_swap v1 v2). split; lia. }
    rewrite Hs, compareVersions_one. fold at_.
    split; intros (k & Heq & Hgt); exists k; split; auto;
      intros j Hj; symmetry; auto.
  - apply compareVersions_zero.
Qed.

(** [compareVersions] is a consistent order: a version equals itself,
    swapping the arguments negates the result, the result is one of 1, 0
    and -1, and "greater than" is transitive. *)
Theorem compareVersions_is_an_order :
  forall (v1 v2 v3 : string),
    compareVersions zero gtb Number v1 v1 = 0%Z
    /\ compareVersions zero gtb Number v2 v1
       = (- compareVersions zero gtb Number v1 v2)%Z
    /\ (compareVersions zero gtb Number v1 v2 = 1%Z
        \/ compareVersions zero gtb Number v1 v2 = 0%Z
        \/ compareVersions zero gtb Number v1 v2 = (-1)%Z)
    /\ (compareVersions zero gtb Number v1 v2 = 1%Z ->
        compareVersions zero gtb Number v2 v3 = 1%Z ->
        compareVersions zero gtb Number v1 v3 = 1%Z).
Proof.
  intros v1 v2 v3. split; [| split; [| split]].
  - apply compareVersions_zero. reflexivity.
  - apply compareVersions_swap.
  - apply compareVersions_values.
  - rewrite !compareVersions_one.
    intros (i & Hi & Gi) (k & Hk & Gk).
    destruct (Nat.lt_trichotomy i k) as [Hlt | [-> | Hgt]].
    + exists i. split.
      * intros j Hj. rewrite (Hi j Hj). apply Hk. lia.
      * now rewrite <- (Hk i Hlt).
    + exists k. split.
      * intros j Hj. rewrite (Hi j Hj). now apply Hk.
      * eapply gtb_trans; eauto.
    + exists k. split.
      * intros j Hj. rewrite (Hi j) by lia. now apply Hk.
      * now rewrite (Hi k Hgt).
Qed.

Lemma split_dots_nonempty (s : string) : split_dots s <> [].
Proof.
  destruct s as [|c s]; simpl; [discriminate |].
  destruct (Ascii.eqb c "."); [discriminate |].
  destruct (split_dots s); discriminate.
Qed.

Lemma split_dots_append (a b : string) :
  split_dots (a ++ String "." b) = (split_dots a ++ split_dots b)%list.
Proof.
  induction a as [|c a IH]; simpl; [reflexivity |].
  destruct (Ascii.eqb c ".").
  - now rewrite IH.
  - rewrite IH. pose proof (split_dots_nonempty a) as Hne.
    destruct (split_dots a) as [|h t]; [congruence | reflexivity].
Qed.

Lemma part_app_zero (p : list (option num)) (j : nat) :
  at_ (p ++ [Some zero]) j = at_ p j.
Proof.
  unfold at_, part.
  destruct (Nat.lt_ge_cases j (List.length p)) as [H | H].
  - now rewrite nth_error_app1.
  - rewrite nth_error_app2 by assumption.
    rewrite (proj2 (nth_error_None p j) H).
    destruct (j - List.length p) as [|[|n]]; reflexivity.
Qed.

(** Only the parts count, each with missing and non-numeric ones taken as
    zero: two versions with the same parts in this sense compare alike with
    any third, and so a version and the same version followed by [.0] do. *)
Theorem compareVersions_trailing_zero :
  forall (v1 v1' v2 : string),
    ((forall j, part zero (version_parts Number v1) j
                = part zero (version_parts Number v1') j) ->
     compareVersions zero gtb Number v1 v2
     = compareVersions zero gtb Number v1' v2)
    /\ (Number "0" = Some zero ->
        compareVersions zero gtb Number (v1 ++ ".0") v2
        = compareVersions zero gtb Number v1 v2).
Proof.
  intros v1 v1' v2.
  assert (Hsame : forall a b,
             (forall j, at_ (version_parts Number a) j
                        = at_ (version_parts Number b) j) ->
             compareVersions zero gtb Number a v2
             = compareVersions zero gtb Number b v2).
  { intros a b H.
    assert (H1 : compareVersions zero gtb Number a v2 = 1%Z
                 <-> compareVersions zero gtb Number b v2 = 1%Z).
    { rewrite !compareVersions_one.
      split; intros (k & Heq & Hgt); exists k; split;
        try (intros j Hj; specialize (Heq j Hj));
        rewrite ?H in *; rewrite <- ?H in *; auto; congruence. }
    assert (H0 : compareVersions zero gtb Number a v2 = 0%Z
                 <-> compareVersions zero gtb Number b v2 = 0%Z).
    { rewrite !compareVersions_zero.
      split; intros Heq j; specialize (Heq j); congruence. }
    destruct (compareVersions_values a v2) as [Ea | [Ea | Ea]];
      destruct (compareVersions_values b v2) as [Eb | [Eb | Eb]];
      try congruence;
      try (apply H1 in Ea; congruence); try (apply H1 in Eb; congruence);
      try (apply H0 in Ea; congruence); try (apply H0 in Eb; congruence). }
  split.
  - apply Hsame.
  - intros H0. apply Hsame. intros j. unfold version_parts.
    change (v1 ++ ".0") with (v1 ++ String "." "0").
    rewrite split_dots_append, map_app. simpl. rewrite H0.
    apply part_app_zero.
Qed.

End VersionOrder.

(** The integers with their order are an instance of the numbers. *)
Lemma Zgtb_irrefl : forall a : Z, Z.gtb a a = false.
Proof. intros a. rewrite Z.gtb_ltb. apply Z.ltb_irrefl. Qed.

Lemma Zgtb_asym : forall a b : Z, Z.gtb a b = true -> Z.gtb b a = false.
Proof. intros a b. rewrite !Z.gtb_ltb, Z.ltb_lt, Z.ltb_ge. lia. Qed.

Lemma Zgtb_total :
  forall a b : Z, Z.gtb a b = false -> Z.gtb b a = false -> a = b.
Proof. intros a b. rewrite !Z.gtb_ltb, !Z.ltb_ge. lia. Qed.

Lemma Zgtb_trans :
  forall a b c : Z, Z.gtb a b = true -> Z.gtb b c = true -> Z.gtb a c = true.
Proof. intros a b c. rewrite !Z.gtb_ltb, !Z.ltb_lt. lia. Qed.

Lemma compareVersions_first_difference_witness :
  compareVersions 0%Z Z.gtb Number_of_numeral "1.10.0" "1.9" = 1%Z
  <-> exists k,
      (forall j, j < k ->
                 part 0%Z (version_parts Number_of_numeral "1.10.0") j
                 = part 0%Z (version_parts Number_of_numeral "1.9") j)
      /\ Z.gtb (part 0%Z (version_parts Number_of_numeral "1.10.0") k)
               (part 0%Z (version_parts Number_of_numeral "1.9") k) = true.
Proof.
  exact (proj1 (compareVersions_first_difference Z 0%Z Z.gtb Number_of_numeral
                  Zgtb_irrefl Zgtb_asym Zgtb_total "1.10.0" "1.9")).
Defined.

Lemma compareVersions_is_an_order_witness :
  compareVersions 0%Z Z.gtb Number_of_numeral "1.9" "1.10.0"
  = (- compareVersions 0%Z Z.gtb Number_of_numeral "1.10.0" "1.9")%Z.
Proof.
  exact (proj1 (proj2 (compareVersions_is_an_order Z 0%Z Z.gtb
                         Number_of_numeral Zgtb_irrefl Zgtb_asym Zgtb_total
                         Zgtb_trans "1.10.0" "1.9" "1.0"))).
Defined.

Lemma compareVersions_trailing_zero_witness :
  Number_of_numeral "0" = Some 0%Z
  /\ compareVersions 0%Z Z.gtb Number_of_numeral ("1.2" ++ ".0") "1.2.1"
     = compareVersions 0%Z Z.gtb Number_of_numeral "1.2" "1.2.1".
Proof.
  split; [reflexivity |].
  exact (proj2 (compareVersions_trailing_zero Z 0%Z Z.gtb Number_of_numeral
                  Zgtb_irrefl Zgtb_total "1.2" "1.2" "1.2.1") eq_refl).
Defined.

Example compareVersions_numeric_not_textual :
  compareVersions 0%Z Z.gtb Number_of_numeral "1.10.0" "1.9" = 1%Z.
Proof. reflexivity. Qed.

Example compareVersions_prerelease_part_is_zero :
  compareVersions 0%Z Z.gtb Number_of_numeral "1.2.3-beta" "1.2.1" = (-1)%Z
  /\ compareVersions 0%Z Z.gtb Number_of_numeral "1.2.3-beta" "1.2" = 0%Z.
Proof. split; reflexivity. Qed.

(** ** Updating one domain of the account *)

Lemma getAuthToken_token (w : World) (st : State) :
  getAuthToken w st
  = (Ret (Account.auth_token w (config st)),
     extend st (Account.auth_prompts w (config st))).
Proof.
  unfold getAuthToken, Account.auth_token, Account.auth_prompts, promptInput.
  run.
  destruct (JS.pick (useApiKey w)); [now rewrite extend_nil |].
  destruct (JS.pick (env_APERTODNS_API_KEY w)); [now rewrite extend_nil |].
  destruct (JS.pick (jwtToken (config st))); [now rewrite extend_nil |].
  destruct (JS.pick (apiToken (config st))); [now rewrite extend_nil |].
  reflexivity.
Qed.

Ltac calls_done := simpl; rewrite <- ?app_assoc; simpl; reflexivity.

(** What [updateSingleDomain] does, in one equation: it never rejects, the
    core state only gains the prompt and the provider requests, and the
    calls are those of [calls_of]. *)
Lemma updateSingleDomain_cases (domainName : string) (api : Account.Api)
  (w : World) (s : Account.AState) :
  let st := Account.core s in
  let token := Account.auth_token w (config st) in
  let ip4 := snd (resolve_v4 w (Some "https://api.ipify.org")) in
  let ip6 := answer_v6 w "https://api6.ipify.org" in
  Account.updateSingleDomain domainName api w s
  = (Ret tt,
     Account.mkAState
       (extend st
          (Account.auth_prompts w (config st)
           ++ map Get (fst (resolve_v4 w (Some "https://api.ipify.org")))
           ++ [Get "https://api6.ipify.org"]))
       (Account.calls s ++ Account.calls_of api domainName token ip4 ip6)).
Proof.
  intros st token ip4 ip6.
  unfold Account.updateSingleDomain.
  unfold Account.bindA at 1. unfold Account.lift at 1.
  rewrite getAuthToken_token. fold st. fold token.
  unfold Account.catchA, Account.updateSingleDomain_body.
  unfold Account.bindA at 1. unfold Account.lift at 1. cbn [Account.core].
  rewrite or_null_getCurrentIP. fold ip4.
  unfold Account.bindA at 1. unfold Account.lift at 1. cbn [Account.core].
  unfold catch. rewrite getCurrentIPv6_answer.
  change (ipService6_or_default (Some "https://api6.ipify.org"))
    with "https://api6.ipify.org".
  fold ip6. cbn [Account.calls]. rewrite !extend_extend.
  unfold Account.calls_of, Account.calls_after_patch, Account.fetch_domains,
    Account.fetch_patch, Account.bindA, Account.call, Account.json,
    Account.retA, Account.throwA.
  destruct (negb (JS.truthy ip4) && negb (JS.truthy ip6)); [reflexivity |].
  destruct (Account.get_domains api (Account.getAuthHeaders token))
    as [msg|res]; [calls_done |].
  destruct (ok res); cbn [negb].
  2: { destruct (payload res) as [[e|]|msg]; calls_done. }
  destruct (payload res) as [[data|]|msg]; try calls_done.
  destruct (Account.as_list data) as [domains|]; try calls_done.
  destruct (Account.find_domain domainName domains) as [[d|]|msg];
    try calls_done.
  destruct (Account.patch_domain api _ _ _) as [msg|r]; [calls_done |].
  destruct (payload r) as [pd|msg]; [| calls_done].
  destruct (ok r); [calls_done |].
  destruct pd as [e|]; calls_done.
Qed.

Lemma new_calls_app (s : Account.AState) (c : State) (l : list Account.Call) :
  Account.new_calls s (Account.mkAState c (Account.calls s ++ l)) = l.
Proof.
  unfold Account.new_calls; simpl.
  rewrite skipn_app, skipn_all, Nat.sub_diag. reflexivity.
Qed.

Lemma since_prompts_probes (st : State) (a : list Event) (b : list string)
  (u : string) :
  posts (since st (extend st (a ++ map Get b ++ [Get u]))) = posts a
  /\ saves (since st (extend st (a ++ map Get b ++ [Get u]))) = saves a.
Proof.
  rewrite since_extend, !posts_app, !saves_app, posts_map_Get, saves_map_Get.
  simpl. now rewrite !app_nil_r.
Qed.

Lemma auth_prompts_silent (w : World) (cfg : Config) :
  posts (Account.auth_prompts w cfg) = []
  /\ saves (Account.auth_prompts w cfg) = [].
Proof.
  unfold Account.auth_prompts.
  destruct (JS.pick (useApiKey w)), (JS.pick (env_APERTODNS_API_KEY w)),
    (JS.pick (jwtToken cfg)), (JS.pick (apiToken cfg)); auto.
Qed.

(** [updateSingleDomain] never rejects and keeps no state: it changes
    neither the configuration nor the files, it never calls [saveCurrentIP]
    or the update endpoint of the tick, and what it asks of the account API
    does not depend on what [last_ip.txt] holds.  When neither address is
    found it reports that and asks nothing. *)
Theorem updateSingleDomain_keeps_no_state :
  forall (domainName : string) (api : Account.Api) (w : World)
         (s : Account.AState),
    fst (Account.updateSingleDomain domainName api w s) = Ret tt
    /\ files (Account.core (snd (Account.updateSingleDomain domainName api w s)))
       = files (Account.core s)
    /\ config (Account.core
                 (snd (Account.updateSingleDomain domainName api w s)))
       = config (Account.core s)
    /\ posts (since (Account.core s)
                (Account.core
                   (snd (Account.updateSingleDomain domainName api w s))))
       = []
    /\ saves (since (Account.core s)
                (Account.core
                   (snd (Account.updateSingleDomain domainName api w s))))
       = []
    /\ (forall f,
           Account.new_calls (Account.with_files s f)
             (snd (Account.updateSingleDomain domainName api w
                     (Account.with_files s f)))
           = Account.new_calls s
               (snd (Account.updateSingleDomain domainName api w s)))
    /\ (JS.truthy (snd (resolve_v4 w (Some "https://api.ipify.org"))) = false ->
        JS.truthy (answer_v6 w "https://api6.ipify.org") = false ->
        Account.new_calls s
          (snd (Account.updateSingleDomain domainName api w s))
        = [Account.Say Account.NoIp]).
Proof.
  intros domainName api w s.
  rewrite updateSingleDomain_cases. cbv zeta. cbn [fst snd Account.core].
  destruct (since_prompts_probes (Account.core s)
              (Account.auth_prompts w (config (Account.core s)))
              (fst (resolve_v4 w (Some "https://api.ipify.org")))
              "https://api6.ipify.org") as [Hp Hs].
  destruct (auth_prompts_silent w (config (Account.core s))) as [Hp' Hs'].
  repeat split.
  - now rewrite Hp.
  - now rewrite Hs.
  - intros f. rewrite updateSingleDomain_cases. cbv zeta. cbn [snd].
    rewrite (new_calls_app s), (new_calls_app (Account.with_files s f)).
    reflexivity.
  - intros H4 H6. rewrite new_calls_app. unfold Account.calls_of.
    now rewrite H4, H6.
Qed.

Lemma find_domain_first_match (domainName : string)
  (domains : list Account.Domain) (d : Account.Domain) :
  Account.find_domain domainName domains = Ret (Some d)
  <-> exists before after,
      domains = (before ++ d :: after)%list
      /\ Account.matches domainName d = true
      /\ forall x, In x before ->
                   Account.domain_name x <> None
                   /\ Account.matches domainName x = false.
Proof.
  induction domains as [|x l IH]; simpl.
  - split; [discriminate |].
    intros (before & after & H & _). destruct before; discriminate.
  - assert (Hx : forall n, Account.domain_name x = Some n ->
                   Account.matches domainName x
                   = String.eqb n domainName
                     || String.eqb (Account.toLowerCase n)
                                   (Account.toLowerCase domainName)).
    { intros n Hn. unfold Account.matches. now rewrite Hn. }
    destruct (Account.domain_name x) as [n|] eqn:Hn.
    + rewrite <- (Hx n eq_refl).
      destruct (Account.matches domainName x) eqn:E.
      * split.
        -- intros [= <-]. exists [], l.
           split; [reflexivity | split; [assumption | intros y []]].
        -- intros (before & after & H & Hm & Hb).
           destruct before as [|y before]; simpl in H.
           ++ now injection H as ->.
           ++ injection H as <- _.
              destruct (Hb x (or_introl eq_refl)) as [_ Hf]. congruence.
      * rewrite IH. split.
        -- intros (before & after & -> & Hm & Hb).
           exists (x :: before), after.
           split; [reflexivity | split; [assumption |]].
           intros y [<- | Hy]; [split; congruence | now apply Hb].
        -- intros (before & after & H & Hm & Hb).
           destruct before as [|y before]; simpl in H.
           ++ injection H as <- _. congruence.
           ++ injection H as <- ->. exists before, after.
              split; [reflexivity | split; [assumption |]].
              intros z Hz. apply Hb. now right.
    + split; [discriminate |].
      intros (before & after & H & Hm & Hb).
      destruct before as [|y before]; simpl in H.
      * injection H as <- _.
        unfold Account.matches in Hm. rewrite Hn in Hm. discriminate.
      * injection H as <- _.
        destruct (Hb x (or_introl eq_refl)) as [Hf _]. congruence.
Qed.

Lemma patches_cons_get (h : Account.Header) (l : list Account.Call) :
  Account.patches (Account.GetDomains h :: l) = Account.patches l.
Proof. reflexivity. Qed.

Lemma calls_after_patch_patches (api : Account.Api) (domainName : string)
  (h : Account.Header) (ip4 ip6 : option string) (d : Account.Domain) :
  Account.patches (Account.calls_after_patch api domainName h ip4 ip6 d)
  = [(Account.domain_id d, Account.mkPatch ip4 (JS.pick ip6), h)].
Proof.
  unfold Account.calls_after_patch. simpl.
  destruct (Account.patch_domain api _ _ _) as [msg|r]; [reflexivity |].
  destruct (payload r) as [pd|msg]; [| reflexivity].
  destruct (ok r); [reflexivity |]. now destruct pd.
Qed.

(** The [PATCH] of [updateSingleDomain].  It is sent at most once, to the
    first entry of the account's domain list whose name is the given one up
    to the case of letters; it carries the IPv4 address found (or [null]),
    the IPv6 address when there is one, and the header [getAuthHeaders]
    makes of the token.  It is sent whenever an address was found and the
    list has such an entry: the address the entry already has is not
    compared. *)
Theorem updateSingleDomain_patches_first_match :
  forall (domainName : string) (api : Account.Api) (w : World)
         (s : Account.AState),
    List.length
      (Account.patches
         (Account.new_calls s
            (snd (Account.updateSingleDomain domainName api w s)))) <= 1
    /\ (forall i b h,
           In (i, b, h)
              (Account.patches
                 (Account.new_calls s
                    (snd (Account.updateSingleDomain domainName api w s)))) ->
           h = Account.getAuthHeaders
                 (Account.auth_token w (config (Account.core s)))
           /\ b = Account.mkPatch
                    (snd (resolve_v4 w (Some "https://api.ipify.org")))
                    (JS.pick (answer_v6 w "https://api6.ipify.org"))
           /\ exists res data before d after,
               Account.get_domains api h = Resolved res
               /\ ok res = true
               /\ payload res = Ret (Some data)
               /\ Account.as_list data = Some (before ++ d :: after)%list
               /\ Account.matches domainName d = true
               /\ (forall x, In x before ->
                             Account.matches domainName x = false)
               /\ i = Account.domain_id d)
    /\ (forall res data domains d,
           JS.truthy (snd (resolve_v4 w (Some "https://api.ipify.org")))
           || JS.truthy (answer_v6 w "https://api6.ipify.org") = true ->
           Account.get_domains api
             (Account.getAuthHeaders
                (Account.auth_token w (config (Account.core s))))
           = Resolved res ->
           ok res = true ->
           payload res = Ret (Some data) ->
           Account.as_list data = Some domains ->
           Account.find_domain domainName domains = Ret (Some d) ->
           Account.patches
             (Account.new_calls s
                (snd (Account.updateSingleDomain domainName api w s)))
           = [(Account.domain_id d,
               Account.mkPatch
                 (snd (resolve_v4 w (Some "https://api.ipify.org")))
                 (JS.pick (answer_v6 w "https://api6.ipify.org")),
               Account.getAuthHeaders
                 (Account.auth_token w (config (Account.core s))))]).
Proof.
  intros domainName api w s.
  rewrite updateSingleDomain_cases. cbv zeta. cbn [snd].
  rewrite new_calls_app.
  set (token := Account.auth_token w (config (Account.core s))).
  set (ip4 := snd (resolve_v4 w (Some "https://api.ipify.org"))).
  set (ip6 := answer_v6 w "https://api6.ipify.org").
  unfold Account.calls_of.
  split; [| split].
  - destruct (negb (JS.truthy ip4) && negb (JS.truthy ip6)); [simpl; lia |].
    rewrite patches_cons_get.
    destruct (Account.get_domains api _) as [msg|res]; [simpl; lia |].
    destruct (negb (ok res)).
    { destruct (payload res) as [[e|]|msg]; simpl; lia. }
    destruct (payload res) as [[data|]|msg]; try (simpl; lia).
    destruct (Account.as_list data) as [domains|]; try (simpl; lia).
    destruct (Account.find_domain domainName domains) as [[d|]|msg];
      try (simpl; lia).
    rewrite calls_after_patch_patches. simpl. lia.
  - intros i b h.
    destruct (negb (JS.truthy ip4) && negb (JS.truthy ip6)); [intros [] |].
    rewrite patches_cons_get.
    destruct (Account.get_domains api _) as [msg|res] eqn:Hget;
      [intros [] |].
    destruct (ok res) eqn:Hok; cbn [negb].
    2: { destruct (payload res) as [[e|]|msg]; intros []. }
    destruct (payload res) as [[data|]|msg] eqn:Hp; try (intros []).
    destruct (Account.as_list data) as [domains|] eqn:Hl; try (intros []).
    destruct (Account.find_domain domainName domains) as [[d|]|msg] eqn:Hf;
      [| intros [] | intros []].
    rewrite calls_after_patch_patches.
    intros [[= <- <- <-] | []].
    apply find_domain_first_match in Hf
      as (before & after & -> & Hm & Hb).
    repeat split.
    exists res, data, before, d, after. repeat split; auto.
    intros x Hx. now apply Hb.
  - intros res data domains d Hsome Hget Hok Hp Hl Hf.
    rewrite <- negb_orb, Hsome. cbn [negb].
    rewrite patches_cons_get.
    rewrite Hget, Hok, Hp, Hl, Hf. cbn [negb].
    apply calls_after_patch_patches.
Qed.

(** The name is matched without regard to case, and the request is sent
    although the entry already has the address. *)
Example updateSingleDomain_same_address :
  Account.new_calls (Account.mkAState st_first_run [])
    (snd (Account.updateSingleDomain "home.apertodns.com"
            (Account.example_api Account.example_domains) w_same_address
            (Account.mkAState st_first_run [])))
  = [Account.GetDomains (Account.Bearer "tok");
     Account.PatchDomain "42" (Account.mkPatch (Some "203.0.113.5") None)
                         (Account.Bearer "tok");
     Account.Say (Account.Updated "home.apertodns.com" (Some "203.0.113.5")
                                  None (Some "203.0.113.5"))].
Proof. reflexivity. Qed.

Example updateSingleDomain_unknown_domain :
  Account.new_calls (Account.mkAState st_first_run [])
    (snd (Account.updateSingleDomain "other.apertodns.com"
            (Account.example_api Account.example_domains) w_same_address
            (Account.mkAState st_first_run [])))
  = [Account.GetDomains (Account.Bearer "tok");
     Account.Say (Account.NotFound "other.apertodns.com")].
Proof. reflexivity. Qed.

Example getAuthHeaders_shapes :
  Account.getAuthHeaders "ak_123" = Account.XApiKey "ak_123"
  /\ Account.getAuthHeaders "apertodns_live_9" = Account.XApiKey "apertodns_live_9"
  /\ Account.getAuthHeaders "AK_123" = Account.Bearer "AK_123"
  /\ Account.getAuthHeaders "eyJhbGciOi" = Account.Bearer "eyJhbGciOi"
  /\ Account.getAuthHeaders "" = Account.Bearer "".
Proof. repeat split; reflexivity. Qed.

(** ** A daemon whose address does not change *)

Lemma update_quiet_step (w : World) (st : State) (a : string) :
  snd (resolve_v4 w (JS.or_else (ipService (config st))
                                (Some default_ipService))) = Some a ->
  load (ipPath (files st)) = Some a ->
  config (snd (update w st)) = config st
  /\ files (snd (update w st)) = files st
  /\ exists evs,
      trace (snd (update w st)) = (trace st ++ evs)%list /\ posts evs = [].
Proof.
  intros Hres Hload. rewrite update_cases. cbv zeta. rewrite Hres, Hload.
  replace (JS.strict_eq (Some a) (Some a)) with true
    by (symmetry; now apply strict_eq_true).
  cbn [snd]. repeat split. eexists. split; [reflexivity |].
  now rewrite posts_clock_probes.
Qed.

Lemma interval_ticks_quiet (w : World) (a : string) (n : nat) :
  forall st,
    snd (resolve_v4 w (JS.or_else (ipService (config st))
                                  (Some default_ipService))) = Some a ->
    load (ipPath (files st)) = Some a ->
    files (snd (interval_ticks (repeat w n) st)) = files st
    /\ exists evs,
        trace (snd (interval_ticks (repeat w n) st)) = (trace st ++ evs)%list
        /\ posts evs = [].
Proof.
  induction n as [|n IH]; intros st Hres Hload; simpl.
  - split; [reflexivity |]. exists []. now rewrite app_nil_r.
  - pose proof (update_returns w st) as Hr.
    destruct (update_quiet_step w st a Hres Hload)
      as (Hc & Hf & e1 & He1 & Hp1).
    destruct (update w st) as [[[]|msg] st1]; simpl in *; [| discriminate].
    destruct (IH st1) as (Hf2 & e2 & He2 & Hp2).
    + now rewrite Hc.
    + now rewrite Hf.
    + split; [congruence |].
      exists (e1 ++ e2)%list. rewrite He2, He1, <- app_assoc, posts_app.
      split; [reflexivity |]. now rewrite Hp1, Hp2.
Qed.

(** A daemon whose address stays the same sends at most one update request,
    however many ticks it runs: when the address is resolved, the file can
    be written and the update endpoint answers 2xx, the first tick stores
    the address (sending one request unless it was stored already) and all
    later ticks are quiet. *)
Theorem runDaemonMode_stable_address_sends_once :
  forall (w : World) (n : nat) (st st1 : State) (a : string),
    JS.truthy (apiToken (config st)) && JS.truthy (domain (config st)) = true ->
    getCurrentIP (JS.or_else (ipService (config st)) (Some default_ipService))
                 w st = (Ret a, st1) ->
    writable w = true ->
    always_ok w ->
    List.length
      (posts (since st (snd (runDaemonMode w (repeat w n) st)))) <= 1
    /\ (load (ipPath (files st)) <> Some a ->
        posts (since st (snd (runDaemonMode w (repeat w n) st)))
        = [mkBody (domain (config st)) (Some a)
                  (Some (ttl_or_300 (ttl (config st)))) None])
    /\ load (ipPath (files (snd (runDaemonMode w (repeat w n) st)))) = Some a.
Proof.
  intros w n st st1 a Hcfg Hget Hw Hok.
  pose proof (getCurrentIP_resolved _ _ _ _ _ Hget) as Hres.
  pose proof (getCurrentIP_validated _ _ _ _ _ Hget) as Hvalid.
  rewrite runDaemonMode_ticks.
  set (st0 := extend st [Out (OutDaemonStart (daemonInterval w))]).
  assert (H1 : config (snd (update w st0)) = config st
               /\ load (ipPath (files (snd (update w st0)))) = Some a
               /\ exists evs,
                   trace (snd (update w st0)) = (trace st0 ++ evs)%list
                   /\ (posts evs = []
                       \/ posts evs
                          = [mkBody (domain (config st)) (Some a)
                                    (Some (ttl_or_300 (ttl (config st))))
                                    None])
                   /\ (load (ipPath (files st)) <> Some a ->
                       posts evs
                       = [mkBody (domain (config st)) (Some a)
                                 (Some (ttl_or_300 (ttl (config st))))
                                 None])).
  { rewrite update_cases. cbv zeta.
    change (config st0) with (config st).
    change (files st0) with (files st).
    rewrite Hres, Hcfg.
    destruct (JS.strict_eq (load (ipPath (files st))) (Some a)) eqn:E.
    { apply strict_eq_true in E. cbn [snd].
      repeat split; auto. eexists. split; [reflexivity |].
      rewrite posts_clock_probes. simpl. split; [auto | congruence]. }
    match goal with
    | |- context [post_update_dns w ?b ?t] =>
        destruct (Hok b t) as (res & -> & ->)
    end.
    cbn [snd config files ipPath trace]. unfold write. rewrite Hw.
    cbn [load]. rewrite (validated_trim a Hvalid).
    split; [reflexivity | split; [reflexivity |]].
    eexists. split; [reflexivity |].
    rewrite posts_clock_probes. simpl. auto. }
  destruct H1 as (Hc & Hl & e1 & He1 & Hp1 & Hp1').
  destruct (interval_ticks_quiet w a n (snd (update w st0)))
    as (Hf & e2 & He2 & Hp2).
  { now rewrite Hc. }
  { assumption. }
  assert (Hs : since st (snd (interval_ticks (repeat w n) (snd (update w st0))))
               = ([Out (OutDaemonStart (daemonInterval w))] ++ e1 ++ e2)%list).
  { apply since_trace. rewrite He2, He1. unfold st0. simpl.
    now rewrite <- !app_assoc. }
  rewrite Hs, !posts_app, Hp2, app_nil_r. cbn [posts flat_map app].
  split; [| split].
  - destruct Hp1 as [-> | ->]; simpl; lia.
  - assumption.
  - now rewrite Hf.
Qed.

Lemma runDaemonMode_stable_address_sends_once_witness :
  (JS.truthy (apiToken (config st_stored_10_0_0_1))
   && JS.truthy (domain (config st_stored_10_0_0_1)) = true
   /\ getCurrentIP (JS.or_else (ipService (config st_stored_10_0_0_1))
                               (Some default_ipService))
                   w_tick3 st_stored_10_0_0_1
      = (Ret "10.0.0.2",
         extend st_stored_10_0_0_1 [Get "https://api.ipify.org"])
   /\ writable w_tick3 = true
   /\ always_ok w_tick3)
  /\ List.length
       (posts (since st_stored_10_0_0_1
                 (snd (runDaemonMode w_tick3 (repeat w_tick3 5)
                         st_stored_10_0_0_1)))) <= 1.
Proof.
  assert (Hok : always_ok w_tick3).
  { intros b t. eexists. split; reflexivity. }
  split; [repeat split; exact Hok |].
  exact (proj1 (runDaemonMode_stable_address_sends_once
                  w_tick3 5 st_stored_10_0_0_1
                  (extend st_stored_10_0_0_1 [Get "https://api.ipify.org"])
                  "10.0.0.2" eq_refl eq_refl eq_refl Hok)).
Defined.

(** ** Witnesses for the lemmas on failed dispatches *)

Lemma runUpdate_failure_keeps_store_witness :
  (JS.truthy (apiToken (config st_stored_10_0_0_1)) = true
   /\ forall b t, single_shot_failure (post_update_dns w_update_500 b t))
  /\ files (snd (runUpdate w_update_500 st_stored_10_0_0_1))
     = files st_stored_10_0_0_1.
Proof.
  assert (H : forall b t, single_shot_failure (post_update_dns w_update_500 b t))
    by (intros b t; reflexivity).
  split; [split; [reflexivity | exact H] |].
  exact (proj1 (runUpdate_failure_keeps_store w_update_500 st_stored_10_0_0_1
                  eq_refl H)).
Defined.

Lemma update_failure_retried_witness :
  (JS.truthy (apiToken (config st_stored_10_0_0_1))
   && JS.truthy (domain (config st_stored_10_0_0_1)) = true
   /\ (forall b t, daemon_failure (post_update_dns w_update_unreachable b t)))
  /\ posts (since (snd (update w_update_unreachable st_stored_10_0_0_1))
              (snd (update w_tick3
                      (snd (update w_update_unreachable
                              st_stored_10_0_0_1)))))
     = [mkBody (Some "home.apertodns.com") (Some "10.0.0.2") (Some 300%N) None].
Proof.
  assert (H : forall b t,
             daemon_failure (post_update_dns w_update_unreachable b t))
    by (intros b t; exact I).
  split; [split; [reflexivity | exact H] |].
  exact (proj2 (update_failure_retried w_update_unreachable w_tick3
                  st_stored_10_0_0_1 eq_refl eq_refl H eq_refl)).
Defined.
